(** * Capital-flow explorer: report-tree extraction, transaction
      reconstruction and valuation

    A shallow embedding of the algorithmic core of the Python scripts
    [analyze_asset_buys_sells.py], [comprehensive_asset_analysis.py] and
    [analyze_volatility.py], together with the properties the specification
    states about them.

    Conventions of the embedding.
    - A Python [str] is a [string] (of ASCII characters); [dict]s are
      association lists in insertion order ([dict_set] overwrites in place,
      as Python does); [list]s are lists.
    - A call that can raise ([datetime.strptime] raises [ValueError] on a
      text that is not a date) returns an [option]: [None] is the raised
      exception, threaded by the bind [x <- c ;; k].
    - Python floats are kept abstract in the valuation engine (a type with a
      zero, an addition, a subtraction and the test [x > 0]), so that what
      is proved holds for IEEE arithmetic as well as for exact arithmetic.
    - Dates are written as CPython 3.11 writes them with the C library of
      Linux: [%Y] does not pad a year before 1000.
    - [process_assets] is modelled with the recursion limit of the
      interpreter: a call for which no frame is left raises
      [RecursionError].  [extract_all_assets_with_metrics] is modelled
      twice: as a total function, which gives the result of the script
      whenever the script returns one, and under the recursion limit
      ([extract_all_assets_with_metrics_within]); the two agree whenever
      the second returns.  The other walks are studied through their
      results only and are total functions. *)

From Stdlib Require Import List String Ascii ZArith Bool Lia Arith.
From Stdlib Require Import Sorted Permutation DecimalString.
From Equations Require Import Equations.
Import ListNotations.

Set Implicit Arguments.
Set Warnings "-register-all,-abstract-large-number".
Set Equations Transparent.
Unset Equations With Funext.
Open Scope string_scope.
Open Scope list_scope.

(** ** Python primitives *)

Module Py.

(** Exceptions: [None] stands for a raised exception. *)
Definition exn (A : Type) : Type := option A.
Definition ret {A} (a : A) : exn A := Some a.
Definition bind {A B} (c : exn A) (k : A -> exn B) : exn B :=
  match c with
  | Some a => k a
  | None => None
  end.

(** [[f(x) for x in l]] where [f] may raise. *)
Fixpoint mapM {A B} (f : A -> exn B) (l : list A) : exn (list B) :=
  match l with
  | [] => Some []
  | x :: xs =>
      match f x with
      | None => None
      | Some y =>
          match mapM f xs with
          | None => None
          | Some ys => Some (y :: ys)
          end
      end
  end.

(** [sorted(l)]: a stable sort; the result does not depend on the
    algorithm, written here as a stable insertion sort. *)
Section Sorted.
Variable A : Type.
Variable leb : A -> A -> bool.

Fixpoint insert (x : A) (l : list A) : list A :=
  match l with
  | [] => [x]
  | y :: l' => if leb x y then x :: l else y :: insert x l'
  end.

Definition sorted (l : list A) : list A := fold_right insert [] l.
End Sorted.

(** [l[-1]], which raises [IndexError] on an empty list. *)
Definition last_opt {A} (l : list A) : exn A :=
  match rev l with
  | x :: _ => Some x
  | [] => None
  end.

(** Dictionaries, in insertion order. *)
Definition dict (K V : Type) : Type := list (K * V).

Definition dict_keys {K V} (d : dict K V) : list K := map fst d.

Section Dict.
Variables K V : Type.
Variable keq : K -> K -> bool.

(** [d.get(k)] *)
Fixpoint dict_get (d : dict K V) (k : K) : option V :=
  match d with
  | [] => None
  | (k', v) :: d' => if keq k' k then Some v else dict_get d' k
  end.

(** [k in d] *)
Definition dict_mem (d : dict K V) (k : K) : bool :=
  match dict_get d k with Some _ => true | None => false end.

(** [d[k] = v] *)
Fixpoint dict_set (d : dict K V) (k : K) (v : V) : dict K V :=
  match d with
  | [] => [(k, v)]
  | (k', v') :: d' =>
      if keq k' k then (k', v) :: d' else (k', v') :: dict_set d' k v
  end.
End Dict.

(** [c.lower()] on an ASCII character. *)
Definition lower_ascii (c : ascii) : ascii :=
  let n := nat_of_ascii c in
  if (65 <=? n)%nat && (n <=? 90)%nat then ascii_of_nat (n + 32) else c.

(** [s.lower()] *)
Fixpoint lower (s : string) : string :=
  match s with
  | EmptyString => EmptyString
  | String c s' => String (lower_ascii c) (lower s')
  end.

(** [needle in hay] on strings. *)
Fixpoint contains (needle hay : string) : bool :=
  String.prefix needle hay ||
  match hay with
  | EmptyString => false
  | String _ hay' => contains needle hay'
  end.

(** [s.split('T')[0]]: the text before the first ['T']. *)
Fixpoint split_T_head (s : string) : string :=
  match s with
  | EmptyString => EmptyString
  | String c s' =>
      if Ascii.eqb c "T" then EmptyString else String c (split_T_head s')
  end.

End Py.

Import Py.

Declare Scope exn_scope.
Notation "x <- c ;; k" := (bind c (fun x => k))
  (at level 61, c at next level, right associativity) : exn_scope.
Open Scope exn_scope.

(** ** Calendar dates: the part of [datetime] the scripts use *)

Module Calendar.

(** A [datetime] whose time of day is midnight, which is all that
    [strptime(_, "%Y-%m-%d")] builds. *)
Record date : Type := mkdate { year : Z; month : Z; day : Z }.

Definition is_leap (y : Z) : bool :=
  (y mod 4 =? 0)%Z && (negb (y mod 100 =? 0)%Z || (y mod 400 =? 0)%Z).

Definition days_in_month (y m : Z) : Z :=
  if (m =? 2)%Z then (if is_leap y then 29 else 28)%Z
  else if ((m =? 4) || (m =? 6) || (m =? 9) || (m =? 11))%Z then 30%Z
  else 31%Z.

(** The [datetime] constructor raises [ValueError] outside this range. *)
Definition valid_date (d : date) : bool :=
  ((1 <=? year d) && (year d <=? 9999) &&
   (1 <=? month d) && (month d <=? 12) &&
   (1 <=? day d) && (day d <=? days_in_month (year d) (month d)))%Z.

Definition days_before_year (y : Z) : Z :=
  let y1 := (y - 1)%Z in
  (y1 * 365 + y1 / 4 - y1 / 100 + y1 / 400)%Z.

Definition days_before_month (y m : Z) : Z :=
  (nth (Z.to_nat m) [0; 0; 31; 59; 90; 120; 151; 181; 212; 243; 273; 304; 334] 0
   + (if (2 <? m) && is_leap y then 1 else 0))%Z.

(** [d.toordinal()] *)
Definition toordinal (d : date) : Z :=
  (days_before_year (year d) + days_before_month (year d) (month d) + day d)%Z.

(** [(b - a).days] for two midnights. *)
Definition days_between (a b : date) : Z := (toordinal b - toordinal a)%Z.

(** Comparison of dates is comparison of the tuples (year, month, day). *)
Definition date_compare (a b : date) : comparison :=
  match (year a ?= year b)%Z with
  | Eq => match (month a ?= month b)%Z with
          | Eq => (day a ?= day b)%Z
          | c => c
          end
  | c => c
  end.

Definition date_eqb (a b : date) : bool :=
  match date_compare a b with Eq => true | _ => false end.
Definition date_ltb (a b : date) : bool :=
  match date_compare a b with Lt => true | _ => false end.
Definition date_leb (a b : date) : bool :=
  match date_compare a b with Gt => false | _ => true end.

Definition date_eq_dec (a b : date) : {a = b} + {a <> b}.
Proof. decide equality; apply Z.eq_dec. Defined.

(** Decimal digits. *)
Definition digit_of (c : ascii) : option Z :=
  let n := nat_of_ascii c in
  if (48 <=? n)%nat && (n <=? 57)%nat then Some (Z.of_nat (n - 48)) else None.

Definition digit_char (n : Z) : ascii := ascii_of_nat (48 + Z.to_nat n).

Definition in_range (lo hi : Z) (c : ascii) : option Z :=
  match digit_of c with
  | Some n => if ((lo <=? n) && (n <=? hi))%Z then Some n else None
  | None => None
  end.

(** [%m], the pattern [1[0-2]|0[1-9]|[1-9]]: the alternatives are tried
    in this order; the month and the rest of the text. *)
Definition parse_month (s : string) : option (Z * string) :=
  let one_digit :=
    match s with
    | String c r =>
        match in_range 1 9 c with Some n => Some (n, r) | None => None end
    | EmptyString => None
    end in
  match s with
  | String c1 (String c2 r) =>
      if Ascii.eqb c1 "1" then
        match in_range 0 2 c2 with
        | Some n => Some (10 + n, r)%Z
        | None => one_digit
        end
      else if Ascii.eqb c1 "0" then
        match in_range 1 9 c2 with
        | Some n => Some (n, r)
        | None => one_digit
        end
      else one_digit
  | _ => one_digit
  end.

(** [%d], the pattern [3[0-1]|[1-2]\d|0[1-9]|[1-9]| [1-9]]. *)
Definition parse_day (s : string) : option (Z * string) :=
  let one_digit :=
    match s with
    | String c r =>
        match in_range 1 9 c with Some n => Some (n, r) | None => None end
    | EmptyString => None
    end in
  match s with
  | String c1 (String c2 r) =>
      if Ascii.eqb c1 "3" then
        match in_range 0 1 c2 with
        | Some n => Some (30 + n, r)%Z
        | None => one_digit
        end
      else if Ascii.eqb c1 "1" || Ascii.eqb c1 "2" then
        match digit_of c1, digit_of c2 with
        | Some n1, Some n2 => Some (10 * n1 + n2, r)%Z
        | _, _ => one_digit
        end
      else if Ascii.eqb c1 "0" then
        match in_range 1 9 c2 with
        | Some n => Some (n, r)
        | None => one_digit
        end
      else if Ascii.eqb c1 " " then
        match in_range 1 9 c2 with
        | Some n => Some (n, r)
        | None => None
        end
      else one_digit
  | _ => one_digit
  end.

(** [datetime.strptime(s, "%Y-%m-%d")]: four digits of year, a month and
    a day separated by ['-'], nothing left over, and a date that
    exists. *)
Definition strptime_ymd (s : string) : exn date :=
  match s with
  | String a (String b (String c (String d (String dash1 r1)))) =>
      match digit_of a, digit_of b, digit_of c, digit_of d with
      | Some ya, Some yb, Some yc, Some yd =>
          if Ascii.eqb dash1 "-" then
            match parse_month r1 with
            | Some (m, String dash2 r2) =>
                if Ascii.eqb dash2 "-" then
                  match parse_day r2 with
                  | Some (dd, EmptyString) =>
                      let dt := mkdate (1000 * ya + 100 * yb + 10 * yc + yd) m dd in
                      if valid_date dt then Some dt else None
                  | _ => None
                  end
                else None
            | _ => None
            end
          else None
      | _, _, _, _ => None
      end
  | _ => None
  end.

Definition pad2 (n : Z) : string :=
  String (digit_char (n / 10 mod 10)) (String (digit_char (n mod 10)) EmptyString).

Definition pad4 (n : Z) : string :=
  String (digit_char (n / 1000 mod 10))
    (String (digit_char (n / 100 mod 10)) (pad2 n)).

(** [%Y] of [strftime], as CPython 3.11 writes it with the C library of
    Linux: the year in decimal without leading zeros, so that a year
    before 1000 takes fewer than four characters. *)
Definition year_text (y : Z) : string :=
  if (y <? 10)%Z then String (digit_char (y mod 10)) EmptyString
  else if (y <? 100)%Z then pad2 y
  else if (y <? 1000)%Z then String (digit_char (y / 100 mod 10)) (pad2 y)
  else pad4 y.

(** [d.strftime("%Y-%m-%d")] *)
Definition strftime_ymd (d : date) : string :=
  (year_text (year d) ++ "-" ++ pad2 (month d) ++ "-" ++ pad2 (day d))%string.

End Calendar.

Import Calendar.

(** ** Report payload: cells, nodes, headers, events *)

Module Report.

(** A JSON value as [json.load] builds it.  A cell of a report line is
    such a value: a bare scalar, or an object that may hold ["rawValue"]
    and ["value"].  An object keeps the insertion order of its keys. *)
Inductive json : Type :=
| JNull
| JBool (b : bool)
| JInt (n : Z)
| JFloat (mantissa : Z) (exponent : Z)
| JStr (s : string)
| JList (l : list json)
| JDict (d : list (string * json)).

(** A report line: [{"name": string?, "values": [Cell, ...],
    "subLines": [ReportNode, ...]?}].  An absent name is [None]; absent
    ["subLines"] and an empty list of them are both the empty list (the
    scripts test [if sublines:]). *)
Inductive node : Type :=
  Node (name : option string) (values : list json) (subLines : list node).

Definition node_name (n : node) : option string :=
  let 'Node name _ _ := n in name.
Definition node_values (n : node) : list json :=
  let 'Node _ values _ := n in values.
Definition node_subLines (n : node) : list node :=
  let 'Node _ _ subs := n in subs.

(** A column header: an object with optional ["name"] and ["command"]
    texts, or a bare text. *)
Inductive header : Type :=
| HDict (name : option string) (command : option string)
| HStr (s : string).

Inductive action : Type := bought | sold.

Definition action_eqb (a b : action) : bool :=
  match a, b with
  | bought, bought | sold, sold => true
  | _, _ => false
  end.

(** [{"action": ..., "date": "YYYY-MM-DD"}] *)
Record event : Type := mkevent { ev_action : action; ev_date : string }.

(** Truth value of an optional text: [None] and the empty text are false. *)
Definition truthy (s : option string) : bool :=
  match s with
  | Some (String _ _) => true
  | _ => false
  end.

End Report.

Import Report.

(** ** analyze_asset_buys_sells.py *)

Module BuysSells.

Definition REFERENCE_END_DATE : date := mkdate 2025 11 29.

(** [parse_timestamp(ts)] *)
Definition parse_timestamp (ts : string) : exn date :=
  let date_str := split_T_head ts in
  strptime_ymd date_str.

(** The value of an index out of range; the loops never read it. *)
Definition no_date : date := mkdate 1 1 1.

(** [find_buy_sell_dates(time_series)]; only the keys of the time series
    are read. *)
Definition find_buy_sell_dates {V} (time_series : dict string V)
  : exn (list event) :=
  match time_series with
  | [] => ret []
  | _ =>
      raw <- mapM parse_timestamp (dict_keys time_series) ;;
      let dates := sorted date_leb raw in
      match dates with
      | [] => ret []
      | first_date :: _ =>
          let last_date := last dates first_date in
          let transactions := [mkevent bought (strftime_ymd first_date)] in
          let transactions :=
            fold_left
              (fun transactions i =>
                 let current_date := nth i dates no_date in
                 let next_date := nth (i + 1) dates no_date in
                 let days_diff := days_between current_date next_date in
                 if (days_diff >? 1)%Z then
                   transactions
                     ++ [mkevent sold (strftime_ymd current_date)]
                     ++ [mkevent bought (strftime_ymd next_date)]
                 else transactions)
              (seq 0 (List.length dates - 1)) transactions in
          let transactions :=
            if negb (date_eqb last_date REFERENCE_END_DATE) then
              transactions ++ [mkevent sold (strftime_ymd last_date)]
            else transactions in
          ret transactions
      end
  end.

(** The reconstruction as the specification words it, on a list of
    distinct dates in ascending order and a reference end date. *)
Fixpoint gap_events (ds : list date) : list event :=
  match ds with
  | d1 :: ((d2 :: _) as rest) =>
      (if (days_between d1 d2 >? 1)%Z then
         [mkevent sold (strftime_ymd d1); mkevent bought (strftime_ymd d2)]
       else [])
      ++ gap_events rest
  | _ => []
  end.

Definition closing_events (last_date reference_end : date) : list event :=
  if date_ltb last_date reference_end then
    [mkevent sold (strftime_ymd last_date)]
  else if date_eqb last_date reference_end then []
  else [mkevent sold (strftime_ymd last_date)].

Definition reconstruct (ds : list date) (reference_end : date) : list event :=
  match ds with
  | [] => []
  | first_date :: _ =>
      [mkevent bought (strftime_ymd first_date)]
      ++ gap_events ds
      ++ closing_events (last ds first_date) reference_end
  end.

(** Distinct calendar dates, sorted ascending. *)
Definition distinct_sorted (raw : list date) : list date :=
  sorted date_leb (nodup date_eq_dec raw).

End BuysSells.

(** ** comprehensive_asset_analysis.py: the valuation engine *)

Module Analysis.

Definition REFERENCE_END_DATE : date := mkdate 2025 11 29.

(** [parse_timestamp(ts)] *)
Definition parse_timestamp (ts : string) : exn date :=
  let date_str := split_T_head ts in
  strptime_ymd date_str.

(** The [for ts_key in sorted_keys] loop of [find_timestamp_key], with
    its early [return] and its [break]. *)
Fixpoint scan_keys (target_date : date) (sorted_keys : list string)
    (best_match : option string) : exn (option string) :=
  match sorted_keys with
  | [] => ret best_match
  | ts_key :: rest =>
      ts_date <- parse_timestamp ts_key ;;
      if date_eqb ts_date target_date then ret (Some ts_key)
      else
        let best_match :=
          if date_ltb ts_date target_date then Some ts_key else best_match in
        if date_ltb target_date ts_date then ret best_match
        else scan_keys target_date rest best_match
  end.

(** [find_timestamp_key(date_str, time_series)] *)
Definition find_timestamp_key {V} (date_str : string)
    (time_series : dict string V) : exn (option string) :=
  target_date <- strptime_ymd date_str ;;
  let sorted_keys := sorted String.leb (dict_keys time_series) in
  scan_keys target_date sorted_keys None.

(** [get_cell_value(cell)] *)
Definition get_cell_value (cell : json) : json :=
  match cell with
  | JDict d =>
      match dict_get String.eqb d "rawValue" with
      | Some JNull | None =>
          match dict_get String.eqb d "value" with
          | Some v => v
          | None => JNull
          end
      | Some raw => raw
      end
  | _ => cell
  end.

Section Valuation.

(** Python's floats. *)
Variable num : Type.
Variable zero : num.
Variable add sub : num -> num -> num.
Variable gt_zero : num -> bool.

Record detail : Type := mkdetail {
  buy_date : string;
  sell_date : string;
  purchase_price : num;
  selling_price : num;
  buy_nav : num;
  sell_nav : num;
  profit : num
}.

Record profit_data : Type := mkprofit_data {
  asset : string;
  total_profit : num;
  transactions_detail : list detail;
  error : option string
}.

(** [time_series.get(ts, 0.0) if ts else 0.0] *)
Definition nav_or_zero (time_series : dict string num)
    (ts : option string) : num :=
  if truthy ts then
    match ts with
    | Some k =>
        match dict_get String.eqb time_series k with
        | Some v => v
        | None => zero
        end
    | None => zero
    end
  else zero.

Variable asset_name : string.
Variable transactions : list event.
Variable nav_time_series : dict string num.
Variable purchase_price_arg : option num.

Definition no_event : event := mkevent sold EmptyString.

(** The body of [if transactions[i]["action"] == "bought":]: whether a
    sell was found at [i + 1], and the detail record appended.  The
    values of the series are floats, so that the test
    [sell_nav is not None and buy_nav is not None] holds. *)
Definition holding_period (i : nat) : exn (bool * detail) :=
  let buy_date := ev_date (nth i transactions no_event) in
  buy_ts <- find_timestamp_key buy_date nav_time_series ;;
  let buy_nav := nav_or_zero nav_time_series buy_ts in
  sell <-
    (if (i + 1 <? List.length transactions)%nat
        && action_eqb (ev_action (nth (i + 1) transactions no_event)) sold
     then
       let sell_date := ev_date (nth (i + 1) transactions no_event) in
       sell_ts <- find_timestamp_key sell_date nav_time_series ;;
       let sell_nav := nav_or_zero nav_time_series sell_ts in
       ret (true, sell_date, sell_nav)
     else
       last_ts <- last_opt (sorted String.leb (dict_keys nav_time_series)) ;;
       last_date <- parse_timestamp last_ts ;;
       let sell_date := strftime_ymd last_date in
       sell_nav <- dict_get String.eqb nav_time_series last_ts ;;
       ret (false, sell_date, sell_nav)) ;;
  let '(found_sell, sell_date, sell_nav) := sell in
  let profit := sub sell_nav buy_nav in
  let actual_purchase_price :=
    match purchase_price_arg with
    | Some p => if gt_zero p then p else buy_nav
    | None => buy_nav
    end in
  let selling_price := add actual_purchase_price profit in
  ret (found_sell,
       mkdetail buy_date sell_date actual_purchase_price selling_price
         buy_nav sell_nav profit).

(** The [while i < len(transactions)] loop, from index [i] with the
    accumulators [total_profit] and [transactions_detail]. *)
Equations? while_loop (i : nat) (total : num) (details : list detail)
  : exn (num * list detail) by wf (List.length transactions - i) lt :=
  while_loop i total details with lt_dec i (List.length transactions) := {
    | right _ => ret (total, details)
    | left _ with ev_action (nth i transactions no_event) := {
        | bought with holding_period i := {
            | None => None
            | Some (true, d) =>
                while_loop (i + 2) (add total (profit d)) (details ++ [d])
            | Some (false, d) =>
                while_loop (i + 1) (add total (profit d)) (details ++ [d]) }
        | sold => while_loop (i + 1) total details } }.
Proof. all: lia. Qed.

(** [calculate_profit_and_prices(asset_name, transactions,
    nav_time_series, purchase_price)] *)
Definition calculate_profit_and_prices : exn profit_data :=
  match nav_time_series with
  | [] =>
      ret (mkprofit_data asset_name zero [] (Some "No NAV time series found"))
  | _ =>
      r <- while_loop 0 zero [] ;;
      ret (mkprofit_data asset_name (fst r) (snd r) None)
  end.

End Valuation.

End Analysis.

(** ** The recursive walk shared by the scripts *)

Module Walker.

(** Every script walks the report with the same recursive function:
    [for line in lines: <visit line>; sublines = line.get("subLines");
     if sublines: walk_lines(sublines)].
    [visit] is the script's own treatment of one line; it updates the
    results the script collects (its state). *)
Section Walk.
Variable S : Type.
Variable visit : node -> S -> S.

Fixpoint walk_line (line : node) (st : S) : S :=
  match line with
  | Node _ _ subLines =>
      let st := visit line st in
      (fix walk_lines (lines : list node) (st : S) : S :=
         match lines with
         | [] => st
         | l :: rest => walk_lines rest (walk_line l st)
         end) subLines st
  end.

Definition walk_lines (lines : list node) (st : S) : S :=
  fold_left (fun st line => walk_line line st) lines st.
End Walk.

(** The same walk under the recursion limit of the interpreter.  A call
    of [walk_lines] takes a frame of the interpreter's stack, and so do
    the calls made to treat a line; a call for which no frame is left
    raises [RecursionError].  [frames] is the number of frames left where
    [walk_lines] is called; [visit] is given the number of frames left for
    the calls that the treatment of a line makes.  [walk_lines] is not
    called on an empty list of sublines ([if sublines:]). *)
Section WalkWithin.
Variable T : Type.
Variable visit : nat -> node -> exn T -> exn T.

Fixpoint walk_line_within (frames : nat) (line : node) (st : exn T)
    {struct line} : exn T :=
  match line with
  | Node _ _ subLines =>
      let st := visit frames line st in
      match subLines with
      | [] => st
      | _ :: _ =>
          match frames with
          | 0 => None
          | S frames' =>
              (fix walk_lines (lines : list node) (st : exn T) : exn T :=
                 match lines with
                 | [] => st
                 | l :: rest =>
                     walk_lines rest (walk_line_within frames' l st)
                 end) subLines st
          end
      end
  end.

Definition walk_lines_within (frames : nat) (lines : list node)
    (st : exn T) : exn T :=
  match frames with
  | 0 => None
  | S frames' =>
      fold_left (fun st line => walk_line_within frames' line st) lines st
  end.
End WalkWithin.

(** All the lines of a report in pre-order: a line, then the lines below
    it, then its later siblings. *)
Fixpoint preorder_line (line : node) : list node :=
  match line with
  | Node _ _ subLines =>
      line ::
      (fix preorder_lines (lines : list node) : list node :=
         match lines with
         | [] => []
         | l :: rest => preorder_line l ++ preorder_lines rest
         end) subLines
  end.

Definition preorder (lines : list node) : list node :=
  flat_map preorder_line lines.

(** Number of levels of lines. *)
Fixpoint depth_line (line : node) : nat :=
  match line with
  | Node _ _ subLines =>
      S ((fix depth_lines (lines : list node) : nat :=
            match lines with
            | [] => 0
            | l :: rest => Nat.max (depth_line l) (depth_lines rest)
            end) subLines)
  end.

Definition depth (lines : list node) : nat :=
  fold_right (fun l d => Nat.max (depth_line l) d) 0 lines.

End Walker.

Import Walker.

(** ** Time-series cells (analyze_asset_buys_sells.py) *)

Module Series.

(** [isinstance(v, (int, float))]; a Python [bool] is an [int]. *)
Definition is_number (v : json) : bool :=
  match v with
  | JInt _ | JFloat _ _ | JBool _ => true
  | _ => false
  end.

(** The test made on a [rawValue] that is a [dict]: its first key, if
    any, is taken as a sample. *)
Definition looks_like_time_series (raw_value : dict string json) : bool :=
  let sample_key :=
    match raw_value with
    | (k, _) :: _ => Some k
    | [] => None
    end in
  match sample_key with
  | Some k =>
      truthy sample_key && contains "T" k &&
      match dict_get String.eqb raw_value k with
      | Some v => is_number v
      | None => false
      end
  | None => false
  end.

(** [extract_asset_time_series(asset_data)], on the line's values. *)
Fixpoint extract_asset_time_series_values (values : list json)
  : option (dict string json) :=
  match values with
  | [] => None
  | value :: rest =>
      match value with
      | JDict d =>
          match dict_get String.eqb d "rawValue" with
          | Some (JDict raw_value) =>
              if looks_like_time_series raw_value then Some raw_value
              else extract_asset_time_series_values rest
          | _ => extract_asset_time_series_values rest
          end
      | _ => extract_asset_time_series_values rest
      end
  end.

Definition extract_asset_time_series (asset_data : node)
  : option (dict string json) :=
  extract_asset_time_series_values (node_values asset_data).

End Series.

Import Series.

(** ** analyze_asset_buys_sells.py: [process_assets] *)

Module ProcessAssets.

Import BuysSells.

Record asset_result : Type := mkasset_result {
  asset : string;
  transactions : list event;
  first_date : string;
  last_date : string
}.

(** [min(l)] and [max(l)] on dates. *)
Definition min_date (l : list date) : date :=
  match l with
  | [] => no_date
  | d :: l' => fold_left (fun m x => if date_ltb x m then x else m) l' d
  end.
Definition max_date (l : list date) : date :=
  match l with
  | [] => no_date
  | d :: l' => fold_left (fun m x => if date_ltb m x then x else m) l' d
  end.

Definition unique_key : Type :=
  (string * string * string * list (action * string))%type.

Definition trans_eqb (a b : action * string) : bool :=
  action_eqb (fst a) (fst b) && String.eqb (snd a) (snd b).

Fixpoint list_eqb {A} (eqb : A -> A -> bool) (l1 l2 : list A) : bool :=
  match l1, l2 with
  | [], [] => true
  | x :: l1', y :: l2' => eqb x y && list_eqb eqb l1' l2'
  | _, _ => false
  end.

Definition unique_key_eqb (a b : unique_key) : bool :=
  let '(n1, f1, l1, t1) := a in
  let '(n2, f2, l2, t2) := b in
  String.eqb n1 n2 && String.eqb f1 f2 && String.eqb l1 l2
  && list_eqb trans_eqb t1 t2.

(** The state of the walk: [results] and [seen]. *)
Definition state : Type := (list asset_result * list unique_key)%type.

(** What [walk_lines] does with one line, before it descends. *)
Definition visit (line : node) (st : exn state) : exn state :=
  st <- st ;;
  let '(results, seen) := st in
  let name := node_name line in
  match name with
  | Some name_text =>
      if truthy name then
        match extract_asset_time_series line with
        | Some ((_ :: _) as time_series) =>
            transactions <- find_buy_sell_dates time_series ;;
            match transactions with
            | [] => ret (results, seen)
            | _ :: _ =>
                parsed <- mapM parse_timestamp (dict_keys time_series) ;;
                let first_date := strftime_ymd (min_date parsed) in
                parsed <- mapM parse_timestamp (dict_keys time_series) ;;
                let last_date := strftime_ymd (max_date parsed) in
                let trans_key :=
                  map (fun t => (ev_action t, ev_date t)) transactions in
                let unique_key := (name_text, first_date, last_date, trans_key) in
                if existsb (unique_key_eqb unique_key) seen then
                  ret (results, seen)
                else
                  ret (results
                         ++ [mkasset_result name_text transactions
                               first_date last_date],
                       seen ++ [unique_key])
            end
        | _ => ret (results, seen)
        end
      else ret (results, seen)
  | None => ret (results, seen)
  end.

Section RecursionLimit.

(** [calls st line]: the number of frames that the calls made to treat
    the named line [line] need when the walk is in the state [st]: the
    depth of the calls of [extract_asset_time_series],
    [find_buy_sell_dates] and of what they call in the libraries.  It
    depends on the interpreter. *)
Variable calls : state -> node -> nat.

(** What [walk_lines] does with one line when [frames] frames are
    left.  A line without a name makes no call. *)
Definition visit_within (frames : nat) (line : node) (st : exn state)
  : exn state :=
  st' <- st ;;
  if truthy (node_name line) && (frames <? calls st' line)%nat then None
  else visit line st.

(** [process_assets(data)], on [data["resultLine"]["subLines"]], when
    [frames] frames are left where it calls [walk_lines]. *)
Definition process_assets (frames : nat) (lines : list node)
  : exn (list asset_result) :=
  st <- walk_lines_within visit_within frames lines (ret ([], [])) ;;
  ret (fst st).

End RecursionLimit.

End ProcessAssets.

(** ** comprehensive_asset_analysis.py: header resolution and extraction *)

Module Metrics.

Import Analysis.

(** The lower-cased command and name of a header. *)
Definition header_cmd_name (header : header) : string * string :=
  match header with
  | HDict name command =>
      let cmd := lower (match command with Some c => c | None => EmptyString end) in
      let name := lower (match name with Some n => n | None => EmptyString end) in
      (cmd, name)
  | HStr s =>
      let cmd := lower s in
      (cmd, cmd)
  end.

(** The body of [for i, header in enumerate(headers)]. *)
Definition bind_header (metric_indices : dict string nat)
    (ih : nat * header) : dict string nat :=
  let '(i, header) := ih in
  let '(cmd, name) := header_cmd_name header in
  let metric_indices :=
    if contains "volatility" cmd || contains "volatility" name
    then dict_set String.eqb metric_indices "volatility" i
    else metric_indices in
  let metric_indices :=
    if contains "interest" cmd || contains "interest" name
       || contains "interest_rate" cmd
    then dict_set String.eqb metric_indices "interest_rate" i
    else metric_indices in
  let metric_indices :=
    if contains "purchase" cmd || contains "purchase" name
       || contains "buy" cmd || contains "buy" name
    then dict_set String.eqb metric_indices "purchase_price" i
    else metric_indices in
  let metric_indices :=
    if (contains "price" cmd || contains "price" name)
       && negb (contains "purchase" cmd) && negb (contains "purchase" name)
    then dict_set String.eqb metric_indices "price" i
    else metric_indices in
  metric_indices.

(** [enumerate(l)] *)
Definition enumerate {A} (l : list A) : list (nat * A) :=
  combine (seq 0 (List.length l)) l.

(** The first loop of [extract_metrics_from_asset]: the column of each
    metric. *)
Definition metric_indices (headers : list header) : dict string nat :=
  fold_left bind_header (enumerate headers) [].

(** Keys of the [time_series] dictionary: a cell's command (or
    ["value_<idx>"] when it has none) and the cell's position. *)
Inductive series_key : Type :=
| KCommand (c : string)
| KIndex (i : nat).

Definition series_key_eqb (a b : series_key) : bool :=
  match a, b with
  | KCommand x, KCommand y => String.eqb x y
  | KIndex x, KIndex y => Nat.eqb x y
  | _, _ => false
  end.

(** A value stored in a metrics record. *)
Inductive metric_value : Type :=
| MCell (v : json)
| MSeries (d : dict series_key (dict string json)).

Definition is_None (v : metric_value) : bool :=
  match v with
  | MCell JNull => true
  | _ => false
  end.

Definition str_of_nat (n : nat) : string :=
  DecimalString.NilEmpty.string_of_uint (Nat.to_uint n).

(** [extract_metrics_from_asset(asset_data, headers)].  The commands of
    the cells are texts, as the commands of the headers are: the key that
    a cell whose command is not a text would get in [time_series] is not
    modelled, and what is stated about the keys of [time_series] is stated
    of lines whose cells have a text for command, or none. *)
Definition extract_metrics_from_asset (asset_data : node)
    (headers : list header) : dict string metric_value :=
  let metrics : dict string metric_value := [] in
  let values := node_values asset_data in
  let metric_indices := metric_indices headers in
  let metrics :=
    fold_left
      (fun metrics (entry : string * nat) =>
         let '(metric_name, idx) := entry in
         match nth_error values idx with
         | Some cell =>
             dict_set String.eqb metrics metric_name (MCell (get_cell_value cell))
         | None => metrics
         end)
      metric_indices metrics in
  let time_series_dict :=
    fold_left
      (fun (time_series_dict : dict series_key (dict string json))
           (entry : nat * json) =>
         let '(idx, value) := entry in
         match value with
         | JDict d =>
             match dict_get String.eqb d "rawValue" with
             | Some (JDict raw_value) =>
                 if looks_like_time_series raw_value then
                   let command :=
                     match dict_get String.eqb d "command" with
                     | Some (JStr c) => c
                     | _ => ("value_" ++ str_of_nat idx)%string
                     end in
                   let time_series_dict :=
                     dict_set series_key_eqb time_series_dict
                       (KCommand command) raw_value in
                   dict_set series_key_eqb time_series_dict (KIndex idx) raw_value
                 else time_series_dict
             | _ => time_series_dict
             end
         | _ => time_series_dict
         end)
      (enumerate values) [] in
  dict_set String.eqb metrics "time_series" (MSeries time_series_dict).

Definition assets : Type := dict string (dict string metric_value).

(** The merge of the metrics of a line whose name was seen before:
    [for key, value in metrics.items(): if key not in assets_dict[name]
     or assets_dict[name][key] is None: assets_dict[name][key] = value]. *)
Definition merge_metrics (existing metrics : dict string metric_value)
  : dict string metric_value :=
  fold_left
    (fun existing (entry : string * metric_value) =>
       let '(key, value) := entry in
       match dict_get String.eqb existing key with
       | None => dict_set String.eqb existing key value
       | Some old =>
           if is_None old then dict_set String.eqb existing key value
           else existing
       end)
    metrics existing.

(** What [walk_lines] of [extract_all_assets_with_metrics] does with one
    line, before it descends. *)
Definition visit (headers : list header) (line : node)
    (assets_dict : assets) : assets :=
  let name := node_name line in
  match name with
  | Some name_text =>
      if truthy name then
        let metrics := extract_metrics_from_asset line headers in
        match metrics with
        | [] => assets_dict
        | _ :: _ =>
            match dict_get String.eqb assets_dict name_text with
            | None => dict_set String.eqb assets_dict name_text metrics
            | Some existing =>
                dict_set String.eqb assets_dict name_text
                  (merge_metrics existing metrics)
            end
        end
      else assets_dict
  | None => assets_dict
  end.

(** [extract_all_assets_with_metrics(data, headers)], on
    [data["resultLine"]["subLines"]]. *)
Definition extract_all_assets_with_metrics (lines : list node)
    (headers : list header) : assets :=
  walk_lines (visit headers) lines [].

Section RecursionLimit.

(** [calls assets_dict line]: the number of frames that the calls made
    to treat the named line [line] need ([extract_metrics_from_asset]
    and what it calls).  It depends on the interpreter. *)
Variable calls : assets -> node -> nat.

(** What [walk_lines] does with one line when [frames] frames are
    left.  A line without a name makes no call. *)
Definition visit_within (headers : list header) (frames : nat)
    (line : node) (st : exn assets) : exn assets :=
  assets_dict <- st ;;
  if truthy (node_name line) && (frames <? calls assets_dict line)%nat
  then None
  else ret (visit headers line assets_dict).


End RecursionLimit.

End Metrics.

(** ** analyze_volatility.py *)

Module Volatility.

(** [extract_volatility_index(headers)] *)
Definition header_name_cmd (header : header) : string * string :=
  match header with
  | HDict name command =>
      let name := lower (match name with Some n => n | None => EmptyString end) in
      let cmd := lower (match command with Some c => c | None => EmptyString end) in
      (name, cmd)
  | HStr s =>
      let name := lower s in
      (name, name)
  end.

Fixpoint extract_volatility_index_from (i : nat) (headers : list header)
  : option nat :=
  match headers with
  | [] => None
  | header :: rest =>
      let '(name, cmd) := header_name_cmd header in
      if contains "volatility" name || contains "volatility" cmd
      then Some i
      else extract_volatility_index_from (S i) rest
  end.

Definition extract_volatility_index (headers : list header) : option nat :=
  extract_volatility_index_from 0 headers.

Record volatility_row : Type := mkrow { asset : string; volatility : json }.

(** What [walk_lines] does with one line, before it descends. *)
Definition visit (volatility_idx : option nat) (line : node)
    (results : list volatility_row) : list volatility_row :=
  let name := node_name line in
  let values := node_values line in
  match name, volatility_idx with
  | Some name_text, Some idx =>
      if truthy name && (idx <? List.length values)%nat then
        let cell := nth idx values JNull in
        let volatility :=
          match cell with
          | JDict d =>
              match dict_get String.eqb d "rawValue" with
              | Some JNull | None =>
                  match dict_get String.eqb d "value" with
                  | Some v => v
                  | None => JNull
                  end
              | Some raw => raw
              end
          | _ => cell
          end in
        match volatility with
        | JNull => results
        | _ => results ++ [mkrow name_text volatility]
        end
      else results
  | _, _ => results
  end.

(** [walk_lines(lines, volatility_idx, results)] *)
Definition walk_lines (lines : list node) (volatility_idx : option nat)
    (results : list volatility_row) : list volatility_row :=
  Walker.walk_lines (visit volatility_idx) lines results.

End Volatility.

(** ** comprehensive_asset_analysis.py: [calculate_daily_changes] *)

Module DailyChanges.

(** [for x in l: st = body(st, x)], where the body may raise. *)
Fixpoint for_each {S A} (body : S -> A -> exn S) (l : list A) (st : S)
  : exn S :=
  match l with
  | [] => ret st
  | x :: rest => st <- body st x ;; for_each body rest st
  end.

(** [sorted(keys, key=lambda x: parse_timestamp(x))]: the key of every
    element is computed first, then the elements are sorted by their keys,
    elements with the same key staying in their order. *)
Definition sorted_by_date (keys : list string) : exn (list string) :=
  decorated <- mapM (fun x => d <- Analysis.parse_timestamp x ;; ret (d, x))
                 keys ;;
  ret (map snd (sorted (fun a b => date_leb (fst a) (fst b)) decorated)).

Section Changes.

(** Python's floats: subtraction, division, multiplication, the
    constant [100] and the test [x == 0]. *)
Variable num : Type.
Variable sub div mul : num -> num -> num.
Variable hundred : num.
Variable is_zero : num -> bool.

Record daily_change : Type := mkdaily_change {
  dc_date : string;
  dc_nav : num;
  dc_change : option num;
  dc_change_percent : option num
}.

Variable nav_time_series : dict string num.

(** The body of [for date_key in sorted_dates], on the accumulators
    [daily_changes] and [prev_nav]. *)
Definition loop_body (st : list daily_change * option num)
    (date_key : string) : exn (list daily_change * option num) :=
  let '(daily_changes, prev_nav) := st in
  nav <- dict_get String.eqb nav_time_series date_key ;;
  d <- Analysis.parse_timestamp date_key ;;
  let date_str := strftime_ymd d in
  let '(change, change_percent) :=
    match prev_nav with
    | Some prev_nav =>
        let change := sub nav prev_nav in
        let change_percent :=
          if negb (is_zero prev_nav)
          then Some (mul (div change prev_nav) hundred)
          else None in
        (Some change, change_percent)
    | None => (None, None)
    end in
  ret (daily_changes ++ [mkdaily_change date_str nav change change_percent],
       Some nav).

(** [calculate_daily_changes(nav_time_series)] *)
Definition calculate_daily_changes : exn (list daily_change) :=
  match nav_time_series with
  | [] => ret []
  | _ =>
      sorted_dates <- sorted_by_date (dict_keys nav_time_series) ;;
      st <- for_each loop_body sorted_dates ([], None) ;;
      ret (fst st)
  end.

End Changes.

End DailyChanges.

(** ** comprehensive_asset_analysis.py: the lookup of the transactions of an
       asset in [main] *)

Module Lookup.

(** [(asset_name, first_date, last_date)] *)
Definition lookup_key : Type := (string * string * string)%type.

Definition lookup_key_eqb (a b : lookup_key) : bool :=
  let '(n1, f1, l1) := a in
  let '(n2, f2, l2) := b in
  String.eqb n1 n2 && String.eqb f1 f2 && String.eqb l1 l2.

(** The loop [for item in buy_sell_data] that fills [buy_sell_lookup];
    the items are the records written by [analyze_asset_buys_sells.py]. *)
Definition buy_sell_lookup (buy_sell_data : list ProcessAssets.asset_result)
  : dict lookup_key ProcessAssets.asset_result :=
  fold_left
    (fun buy_sell_lookup item =>
       let asset_name := ProcessAssets.asset item in
       if truthy (Some asset_name) then
         let key := (asset_name, ProcessAssets.first_date item,
                     ProcessAssets.last_date item) in
         if negb (dict_mem lookup_key_eqb buy_sell_lookup key)
         then dict_set lookup_key_eqb buy_sell_lookup key item
         else buy_sell_lookup
       else buy_sell_lookup)
    buy_sell_data [].

(** The loop [for key, buy_sell_item in buy_sell_lookup.items()] of
    [walk_security_lines], with its [break]: [None] when no key carries
    the name. *)
Fixpoint find_transactions
    (buy_sell_lookup : dict lookup_key ProcessAssets.asset_result)
    (name : string) : option (list event) :=
  match buy_sell_lookup with
  | [] => None
  | (key, buy_sell_item) :: rest =>
      if String.eqb (fst (fst key)) name
      then Some (ProcessAssets.transactions buy_sell_item)
      else find_transactions rest name
  end.

End Lookup.

(** ** access.py: [extract_common_property_data] *)

Module CommonProperty.

(** The command and the name of a header, not lower-cased. *)
Definition header_cmd_name (header : header) : string * string :=
  match header with
  | HDict name command =>
      let cmd := match command with Some c => c | None => EmptyString end in
      let name := match name with Some n => n | None => EmptyString end in
      (cmd, name)
  | HStr s => (s, s)
  end.

(** The test of the loop over the headers. *)
Definition is_common_property (header : header) : bool :=
  let '(cmd, name) := header_cmd_name header in
  String.eqb cmd "common_property" || String.eqb name "Common Property"
  || contains "common_property" (lower cmd)
  || contains "common property" (lower name).

(** [common_property_indices] *)
Definition common_property_indices (headers : list header) : list nat :=
  fold_left
    (fun common_property_indices (ih : nat * header) =>
       let '(i, header) := ih in
       if is_common_property header
       then common_property_indices ++ [i]
       else common_property_indices)
    (Metrics.enumerate headers) [].

(** The local [get_cell_value(cell)] *)
Definition get_cell_value (cell : json) : json :=
  match cell with
  | JDict d =>
      match dict_get String.eqb d "rawValue" with
      | Some JNull | None =>
          match dict_get String.eqb d "value" with
          | Some v => v
          | None => JNull
          end
      | Some raw => raw
      end
  | _ => cell
  end.

(** [for idx in common_property_indices: if idx < len(values): ...; break],
    from [common_property = None]. *)
Fixpoint first_cell (common_property_indices : list nat) (values : list json)
  : json :=
  match common_property_indices with
  | [] => JNull
  | idx :: rest =>
      if (idx <? List.length values)%nat
      then get_cell_value (nth idx values JNull)
      else first_cell rest values
  end.

Record row : Type := mkrow { asset : string; common_property : json }.

(** What [walk_lines] does with one line, before it descends.  The values
    of a line are a list, so that the test [isinstance(values, list)]
    holds. *)
Definition visit (common_property_indices : list nat) (line : node)
    (rows : list row) : list row :=
  let name := node_name line in
  let values := node_values line in
  match name with
  | Some name_text =>
      if truthy name then
        let common_property := first_cell common_property_indices values in
        match common_property with
        | JNull => rows
        | _ => rows ++ [mkrow name_text common_property]
        end
      else rows
  | None => rows
  end.

(** [extract_common_property_data(payload)], on [payload["headers"]] and
    [payload["resultLine"]["subLines"]]. *)
Definition extract_common_property_data (headers : list header)
    (lines : list node) : list row :=
  walk_lines (visit (common_property_indices headers)) lines [].

End CommonProperty.

(** ** update_zero_volatility.py: [find_matching_volatility] *)

Module ZeroVolatility.

Section Matching.

(** Python's floats, with the test [x == 0]. *)
Variable num : Type.
Variable is_zero : num -> bool.

(** [{"volatility": ..., "last_sell_date": ...}] *)
Record vol_data : Type := mkvol_data {
  volatility : num;
  last_sell_date : option string
}.

(** [a == b] on optional texts. *)
Definition option_string_eqb (a b : option string) : bool :=
  match a, b with
  | Some x, Some y => String.eqb x y
  | None, None => true
  | _, _ => false
  end.

(** [name in already_matched] *)
Definition mem (name : string) (already_matched : list string) : bool :=
  existsb (String.eqb name) already_matched.

(** The loop of the second try, with its [continue] and [return]. *)
Fixpoint by_sell_date (sell_date : option string)
    (items : list (string * vol_data)) (already_matched : list string)
  : option num :=
  match items with
  | [] => None
  | (name, vol_data) :: rest =>
      if mem name already_matched
      then by_sell_date sell_date rest already_matched
      else if option_string_eqb (last_sell_date vol_data) sell_date
              && negb (is_zero (volatility vol_data))
      then Some (volatility vol_data)
      else by_sell_date sell_date rest already_matched
  end.

(** [find_matching_volatility(asset_name, sell_date, volatility_map,
    already_matched)] *)
Definition find_matching_volatility (asset_name : string)
    (sell_date : option string) (volatility_map : dict string vol_data)
    (already_matched : list string) : option num :=
  let exact :=
    match dict_get String.eqb volatility_map asset_name with
    | Some vol_data =>
        if negb (is_zero (volatility vol_data))
        then Some (volatility vol_data) else None
    | None => None
    end in
  match exact with
  | Some v => Some v
  | None =>
      let dated :=
        if truthy sell_date
        then by_sell_date sell_date volatility_map already_matched
        else None in
      match dated with
      | Some v => Some v
      | None =>
          let candidates_with_date :=
            filter
              (fun item : string * vol_data =>
                 negb (is_zero (volatility (snd item)))
                 && truthy (last_sell_date (snd item))
                 && negb (mem (fst item) already_matched))
              volatility_map in
          match candidates_with_date with
          | candidate :: _ => Some (volatility (snd candidate))
          | [] =>
              let candidates :=
                filter
                  (fun item : string * vol_data =>
                     negb (is_zero (volatility (snd item)))
                     && negb (mem (fst item) already_matched))
                  volatility_map in
              match candidates with
              | candidate :: _ => Some (volatility (snd candidate))
              | [] => None
              end
          end
      end
  end.

End Matching.

End ZeroVolatility.

(** ** Definitions used to state the properties *)

Module Aux.

(** Removal of adjacent repetitions: on an ascending list, what is left
    are the distinct dates. *)
Fixpoint squash (l : list date) : list date :=
  match l with
  | [] => []
  | x :: l' =>
      match l' with
      | [] => [x]
      | y :: _ => if date_eq_dec x y then squash l' else x :: squash l'
      end
  end.

(** A key of a time series in ISO-8601 form: it starts with its calendar
    date as [strftime] writes it, [YYYY-MM-DD] (from the year 1000 on: an
    earlier year is written with fewer digits than it is read with). *)
Definition iso_dated (k : string) : bool :=
  match Analysis.parse_timestamp k with
  | Some d => String.prefix (strftime_ymd d) k
  | None => false
  end.

(** The calendar date of a key. *)
Definition date_of_key (k : string) : date :=
  match Analysis.parse_timestamp k with
  | Some d => d
  | None => mkdate 1 1 1
  end.

(** The keys dated on, and before, a target date. *)
Definition key_on (target : date) (k : string) : bool :=
  date_eqb (date_of_key k) target.
Definition key_before (target : date) (k : string) : bool :=
  date_ltb (date_of_key k) target.

(** The key [find_timestamp_key] selects among keys in ascending order:
    the first key on the target date, else the last key before it, else
    [best]. *)
Definition selected_key (target : date) (sorted_keys : list string)
    (best : option string) : option string :=
  match find (key_on target) sorted_keys with
  | Some k => Some k
  | None =>
      match last_opt (filter (key_before target) sorted_keys) with
      | Some k => Some k
      | None => best
      end
  end.

(** Inputs on which the valuation engine does not raise: the keys of the
    NAV series are in ISO-8601 form and the dates of the events are
    dates. *)
Definition is_date_text (s : string) : bool :=
  match strptime_ymd s with Some _ => true | None => false end.

Definition well_formed_inputs {V} (transactions : list event)
    (nav_time_series : dict string V) : bool :=
  forallb iso_dated (dict_keys nav_time_series)
  && forallb (fun e => is_date_text (ev_date e)) transactions.

Section Pairing.
Variable num : Type.
Variable zero : num.
Variable add sub : num -> num -> num.
Variable gt_zero : num -> bool.
Variable nav_time_series : dict string num.
Variable purchase_price_arg : option num.

(** The reference value of a date: the lookup of the nearest past date
    followed by the conversion of a missing key to zero. *)
Definition reference_value (date_str : string) : exn num :=
  ts <- Analysis.find_timestamp_key date_str nav_time_series ;;
  ret (Analysis.nav_or_zero zero nav_time_series ts).

(** The detail record of the [bought] event at the head of [events]. *)
Definition period_detail (events : list event)
  : exn (Analysis.detail num) :=
  option_map snd
    (Analysis.holding_period zero add sub gt_zero events nav_time_series
       purchase_price_arg 0).

(** The walk over the events, by recursion on the list: a [bought] is
    paired with the [sold] that immediately follows it, which is then
    skipped, or with the last NAV date; a [sold] met by the walk is
    skipped. *)
Fixpoint pair_events (events : list event)
  : exn (list (Analysis.detail num)) :=
  match events with
  | [] => ret []
  | e :: rest =>
      match ev_action e with
      | sold => pair_events rest
      | bought =>
          d <- period_detail events ;;
          ds <- match rest with
                | s :: rest' =>
                    if action_eqb (ev_action s) sold
                    then pair_events rest'
                    else pair_events rest
                | [] => ret []
                end ;;
          ret (d :: ds)
      end
  end.

(** A detail record is priced from its two reference values. *)
Definition priced (d : Analysis.detail num) : Prop :=
  Analysis.profit d = sub (Analysis.sell_nav d) (Analysis.buy_nav d)
  /\ Analysis.purchase_price d =
     match purchase_price_arg with
     | Some p => if gt_zero p then p else Analysis.buy_nav d
     | None => Analysis.buy_nav d
     end
  /\ Analysis.selling_price d =
     add (Analysis.purchase_price d) (Analysis.profit d).

(** The buy side of a detail record is the event [e]. *)
Definition bought_at (e : event) (d : Analysis.detail num) : Prop :=
  Analysis.buy_date d = ev_date e
  /\ reference_value (ev_date e) = Some (Analysis.buy_nav d).

(** The sell side of a detail record is the event [s]. *)
Definition sold_at (s : event) (d : Analysis.detail num) : Prop :=
  Analysis.sell_date d = ev_date s
  /\ reference_value (ev_date s) = Some (Analysis.sell_nav d).

(** The last available NAV key: the greatest key, whose date is the
    latest date of the series. *)
Definition last_nav_key (k : string) : Prop :=
  In k (dict_keys nav_time_series)
  /\ forall k', In k' (dict_keys nav_time_series) ->
                String.leb k' k = true
                /\ date_leb (date_of_key k') (date_of_key k) = true.

(** The sell side of a detail record is the synthetic sell at the last
    available NAV date, with the NAV value of that date. *)
Definition sold_at_last_nav (d : Analysis.detail num) : Prop :=
  exists last_ts,
    last_nav_key last_ts
    /\ Analysis.sell_date d = strftime_ymd (date_of_key last_ts)
    /\ dict_get String.eqb nav_time_series last_ts
       = Some (Analysis.sell_nav d).

(** The detail record [d] is the pair [p] of positions of
    [transactions]. *)
Definition detail_of_pair (transactions : list event)
    (p : nat * option nat) (d : Analysis.detail num) : Prop :=
  priced d
  /\ (exists e, nth_error transactions (fst p) = Some e /\ bought_at e d)
  /\ match snd p with
     | Some j => exists s, nth_error transactions j = Some s /\ sold_at s d
     | None => sold_at_last_nav d
     end.
End Pairing.

(** Two detail records that differ at most by their prices: same dates,
    same reference values, same profit. *)
Definition same_valuation {num} (d d' : Analysis.detail num) : Prop :=
  Analysis.buy_date d = Analysis.buy_date d'
  /\ Analysis.sell_date d = Analysis.sell_date d'
  /\ Analysis.buy_nav d = Analysis.buy_nav d'
  /\ Analysis.sell_nav d = Analysis.sell_nav d'
  /\ Analysis.profit d = Analysis.profit d'.

(** The pairs of the walk as positions in the event list, from position
    [i]: the position of a [bought] and, when a [sold] immediately
    follows, the position of that [sold]. *)
Fixpoint pair_indices (i : nat) (events : list event)
  : list (nat * option nat) :=
  match events with
  | [] => []
  | e :: rest =>
      match ev_action e with
      | sold => pair_indices (S i) rest
      | bought =>
          match rest with
          | s :: rest' =>
              if action_eqb (ev_action s) sold
              then (i, Some (S i)) :: pair_indices (S (S i)) rest'
              else (i, None) :: pair_indices (S i) rest
          | [] => [(i, None)]
          end
      end
  end.

(** The positions a list of pairs uses. *)
Definition used_indices (pairs : list (nat * option nat)) : list nat :=
  flat_map
    (fun p => fst p :: match snd p with Some s => [s] | None => [] end)
    pairs.

(** The named lines of a report, in pre-order. *)
Definition named_lines (lines : list node) : list node :=
  filter (fun line => truthy (node_name line)) (preorder lines).

Definition name_text (line : node) : string :=
  match node_name line with Some n => n | None => EmptyString end.

(** The value [analyze_volatility.walk_lines] reads in a line: the cell
    of the volatility column, its ["rawValue"] when it has one that is
    not null, else its ["value"]. *)
Definition volatility_of (volatility_idx : option nat) (line : node)
  : option json :=
  match volatility_idx with
  | Some idx =>
      match nth_error (node_values line) idx with
      | Some cell =>
          match Analysis.get_cell_value cell with
          | JNull => None
          | v => Some v
          end
      | None => None
      end
  | None => None
  end.

(** The rows of the named lines that have a volatility. *)
Definition volatility_rows (volatility_idx : option nat)
    (lines : list node) : list Volatility.volatility_row :=
  flat_map
    (fun line =>
       match volatility_of volatility_idx line with
       | Some v => [Volatility.mkrow (name_text line) v]
       | None => []
       end)
    (named_lines lines).

(** A time series as the specification describes it: every key parses as
    a date-time and every value is a number. *)
Definition is_time_series (raw_value : dict string json) : bool :=
  forallb
    (fun kv =>
       match BuysSells.parse_timestamp (fst kv) with
       | Some _ => is_number (snd kv)
       | None => false
       end)
    raw_value.

(** What the extraction checks of a cell: it is an object whose
    ["rawValue"] is a non-empty object, the first key of which contains
    a ['T'] and holds a number. *)
Definition sampled_time_series (cell : json) (raw_value : dict string json)
  : Prop :=
  exists d k v rest,
    cell = JDict d
    /\ dict_get String.eqb d "rawValue" = Some (JDict raw_value)
    /\ raw_value = (k, v) :: rest
    /\ contains "T" k = true
    /\ is_number v = true.


(** The headers whose lower-cased name or command contains ["volatility"]. *)
Definition mentions_volatility (h : header) : bool :=
  let '(cmd, name) := Metrics.header_cmd_name h in
  contains "volatility" cmd || contains "volatility" name.

(** Position of the first, and of the last, element of a list that
    satisfies a test. *)
Definition first_index {A} (f : A -> bool) (l : list A) : option nat :=
  option_map fst (find (fun ia => f (snd ia)) (Metrics.enumerate l)).
Definition last_index {A} (f : A -> bool) (l : list A) : option nat :=
  option_map fst
    (last_opt (filter (fun ia => f (snd ia)) (Metrics.enumerate l))).

End Aux.

Import Aux.

(** ** Sample inputs *)

Module Samples.

(** A NAV series with three dated values. *)
Definition sample_nav : dict string Z :=
  [("2025-01-05T00:00:00", 15%Z); ("2025-01-01T00:00:00", 10%Z);
   ("2025-01-10T00:00:00", 30%Z)].

(** A closed position, a stray [sold], a position bought before any NAV
    is known and left open, and a position left open. *)
Definition sample_events : list event :=
  [mkevent bought "2025-01-01"; mkevent sold "2025-01-06";
   mkevent sold "2025-01-07"; mkevent bought "2024-06-01";
   mkevent bought "2025-01-02"].

Definition positive (x : Z) : bool := (0 <? x)%Z.

(** A cell whose ["rawValue"] starts like a time series and goes on with
    an entry that is neither dated nor numeric. *)
Definition mixed_series : dict string json :=
  [("2025-01-01T00:00:00", JInt 1); ("Total", JStr "n/a")].
Definition mixed_cell : json := JDict [("rawValue", JDict mixed_series)].

(** A line with a proper time series of two days. *)
Definition two_days : dict string json :=
  [("2025-01-01T00:00:00", JInt 10); ("2025-01-02T00:00:00", JInt 11)].
Definition fund_line : node :=
  Node (Some "Fund A") [JDict [("rawValue", JDict two_days)]] [].

(** Three named lines: one without a volatility, two with the same
    name. *)
Definition three_lines : list node :=
  [Node (Some "Fund A") [JNull] [];
   Node (Some "Fund B") [JInt 5] [];
   Node (Some "Fund B") [JInt 7] []].

End Samples.

Import Samples.

(** ** Definitions used to state further properties *)

Module Aux2.

Definition other_action (a : action) : action :=
  match a with bought => sold | sold => bought end.

(** The events alternate, the first one being [expected]. *)
Fixpoint alternates (expected : action) (events : list event) : bool :=
  match events with
  | [] => true
  | e :: rest =>
      action_eqb (ev_action e) expected
      && alternates (other_action expected) rest
  end.

Definition is_bought (e : event) : bool := action_eqb (ev_action e) bought.

(** The command of a cell, when it has one, is a text. *)
Definition text_command (cell : json) : bool :=
  match cell with
  | JDict d =>
      match dict_get String.eqb d "command" with
      | Some (JStr _) | None => true
      | Some _ => false
      end
  | _ => true
  end.

(** The key [k] is not dated before the year 1000.  [strftime] writes an
    earlier year with fewer than four digits, and [strptime] reads a year
    of four digits only. *)
Definition from_year_1000 (k : string) : bool :=
  match BuysSells.parse_timestamp k with
  | Some d => (1000 <=? year d)%Z
  | None => true
  end.

(** No time series of a line of the report has a key dated before the
    year 1000. *)
Definition series_from_year_1000 (lines : list node) : bool :=
  forallb
    (fun line =>
       match extract_asset_time_series line with
       | Some time_series => forallb from_year_1000 (dict_keys time_series)
       | None => true
       end)
    (preorder lines).

(** *** The records of [process_assets] *)

(** The key under which [process_assets] remembers a record in [seen]. *)
Definition result_key (r : ProcessAssets.asset_result)
  : ProcessAssets.unique_key :=
  (ProcessAssets.asset r, ProcessAssets.first_date r,
   ProcessAssets.last_date r,
   map (fun t => (ev_action t, ev_date t)) (ProcessAssets.transactions r)).

Definition same_result (a b : ProcessAssets.asset_result) : bool :=
  ProcessAssets.unique_key_eqb (result_key a) (result_key b).

(** The record that the walk of [process_assets] builds for one line,
    before it looks the record up in [seen]: none for a line without a
    name, without a time series or without events. *)
Definition line_record (line : node) : exn (option ProcessAssets.asset_result) :=
  match node_name line with
  | Some name_text =>
      if truthy (node_name line) then
        match extract_asset_time_series line with
        | Some ((_ :: _) as time_series) =>
            transactions <- BuysSells.find_buy_sell_dates time_series ;;
            match transactions with
            | [] => ret None
            | _ :: _ =>
                parsed <- mapM BuysSells.parse_timestamp
                            (dict_keys time_series) ;;
                ret (Some (ProcessAssets.mkasset_result name_text transactions
                             (strftime_ymd (ProcessAssets.min_date parsed))
                             (strftime_ymd (ProcessAssets.max_date parsed))))
            end
        | _ => ret None
        end
      else ret None
  | None => ret None
  end.

(** One step of the walk: the line's record is appended unless it was seen. *)
Definition record_line (st : ProcessAssets.state)
    (c : option ProcessAssets.asset_result) : ProcessAssets.state :=
  match c with
  | None => st
  | Some r =>
      if existsb (ProcessAssets.unique_key_eqb (result_key r)) (snd st)
      then st
      else (fst st ++ [r], snd st ++ [result_key r])
  end.

(** The values that are present, in order. *)
Definition somes {A} (l : list (option A)) : list A :=
  flat_map (fun o => match o with Some a => [a] | None => [] end) l.

(** A list without the repetitions of its elements: the first occurrence
    of each stays. *)
Fixpoint first_occurrences {A} (same : A -> A -> bool) (l : list A) : list A :=
  match l with
  | [] => []
  | x :: rest =>
      x :: filter (fun y => negb (same x y)) (first_occurrences same rest)
  end.

(** *** The rows of [calculate_daily_changes] *)

Section Chained.
Variable num : Type.
Variable sub div mul : num -> num -> num.
Variable hundred : num.
Variable is_zero : num -> bool.

(** The change of a row after a row of value [prev]. *)
Definition change_after (prev : option num)
    (r : DailyChanges.daily_change num) : Prop :=
  match prev with
  | None =>
      DailyChanges.dc_change r = None
      /\ DailyChanges.dc_change_percent r = None
  | Some p =>
      DailyChanges.dc_change r = Some (sub (DailyChanges.dc_nav r) p)
      /\ DailyChanges.dc_change_percent r
         = if is_zero p then None
           else Some (mul (div (sub (DailyChanges.dc_nav r) p) p) hundred)
  end.

(** Every row carries the change from the row before it. *)
Fixpoint chained (prev : option num)
    (rows : list (DailyChanges.daily_change num)) : Prop :=
  match rows with
  | [] => True
  | r :: rest =>
      change_after prev r /\ chained (Some (DailyChanges.dc_nav r)) rest
  end.
End Chained.

(** *** The metrics of [extract_metrics_from_asset] *)

(** The test that binds a header to the metric of a given name. *)
Definition metric_matches (metric : string) (h : header) : bool :=
  let '(cmd, name) := Metrics.header_cmd_name h in
  String.eqb "volatility" metric
  && (contains "volatility" cmd || contains "volatility" name)
  || String.eqb "interest_rate" metric
     && (contains "interest" cmd || contains "interest" name
         || contains "interest_rate" cmd)
  || String.eqb "purchase_price" metric
     && (contains "purchase" cmd || contains "purchase" name
         || contains "buy" cmd || contains "buy" name)
  || String.eqb "price" metric
     && ((contains "price" cmd || contains "price" name)
         && negb (contains "purchase" cmd)
         && negb (contains "purchase" name)).

(** The lines of a report that carry the name [name], in pre-order. *)
Definition lines_named (name : string) (lines : list node) : list node :=
  filter
    (fun line =>
       match node_name line with
       | Some n => truthy (Some n) && String.eqb n name
       | None => false
       end)
    (preorder lines).

End Aux2.

Import Aux2.

(** * Properties *)

(** ** Sorting *)

Section SortedFacts.
Variable A : Type.
Variable leb : A -> A -> bool.
Hypothesis leb_total : forall x y, leb x y = true \/ leb y x = true.
Hypothesis leb_trans :
  forall x y z, leb x y = true -> leb y z = true -> leb x z = true.

Let le (x y : A) : Prop := leb x y = true.

Lemma insert_perm (x : A) (l : list A) : Permutation (insert leb x l) (x :: l).
Proof.
  induction l as [|y l IH]; simpl.
  - apply Permutation_refl.
  - destruct (leb x y).
    + apply Permutation_refl.
    + eapply perm_trans; [apply perm_skip, IH | apply perm_swap].
Qed.

Lemma sorted_perm (l : list A) : Permutation (sorted leb l) l.
Proof.
  induction l as [|x l IH]; simpl.
  - constructor.
  - eapply perm_trans; [apply insert_perm | apply perm_skip, IH].
Qed.

Lemma sorted_In (l : list A) (x : A) : In x (sorted leb l) <-> In x l.
Proof.
  split; apply Permutation_in;
    [apply sorted_perm | apply Permutation_sym, sorted_perm].
Qed.

Lemma insert_sorted (x : A) (l : list A) :
  StronglySorted le l -> StronglySorted le (insert leb x l).
Proof.
  induction 1 as [|y l Hs IH Hall]; simpl.
  - constructor; constructor.
  - destruct (leb x y) eqn:E.
    + constructor.
      * constructor; assumption.
      * constructor; [exact E|].
        eapply Forall_impl; [|exact Hall].
        intros z Hz. eapply leb_trans; eassumption.
    + constructor; [exact IH|].
      assert (Hyx : le y x) by (destruct (leb_total x y); congruence).
      rewrite Forall_forall in *. intros z Hz.
      apply (Permutation_in _ (insert_perm x l)) in Hz.
      destruct Hz as [<-|Hz]; auto.
Qed.

Lemma sorted_sorted (l : list A) : StronglySorted le (sorted leb l).
Proof.
  induction l as [|x l IH]; simpl.
  - constructor.
  - apply insert_sorted, IH.
Qed.

Lemma sorted_nil_inv (l : list A) : sorted leb l = [] -> l = [].
Proof.
  intros H. pose proof (sorted_perm l) as P. rewrite H in P.
  apply Permutation_nil in P. exact P.
Qed.

Lemma sorted_length (l : list A) : List.length (sorted leb l) = List.length l.
Proof. apply Permutation_length, sorted_perm. Qed.

End SortedFacts.

(** ** The order of dates *)

Lemma date_compare_eq (a b : date) : date_compare a b = Eq <-> a = b.
Proof.
  destruct a as [y m d], b as [y' m' d']; unfold date_compare; simpl.
  destruct (Z.compare_spec y y'); [destruct (Z.compare_spec m m');
    [destruct (Z.compare_spec d d')|..]|..];
    split; intros H'; try discriminate; try congruence;
    injection H'; lia.
Qed.

Lemma date_eqb_eq (a b : date) : date_eqb a b = true <-> a = b.
Proof.
  unfold date_eqb. rewrite <- date_compare_eq.
  destruct (date_compare a b); split; congruence.
Qed.

Lemma date_eqb_refl (a : date) : date_eqb a a = true.
Proof. apply date_eqb_eq; reflexivity. Qed.

Lemma date_compare_antisym (a b : date) :
  date_compare b a = CompOpp (date_compare a b).
Proof.
  destruct a as [y m d], b as [y' m' d']; unfold date_compare; simpl.
  rewrite (Z.compare_antisym y y'), (Z.compare_antisym m m'),
    (Z.compare_antisym d d').
  destruct (y ?= y')%Z, (m ?= m')%Z, (d ?= d')%Z; reflexivity.
Qed.

Lemma date_compare_lt_trans (a b c : date) :
  date_compare a b = Lt -> date_compare b c = Lt -> date_compare a c = Lt.
Proof.
  destruct a as [y m d], b as [y' m' d'], c as [y'' m'' d''].
  unfold date_compare; simpl.
  destruct (Z.compare_spec y y'), (Z.compare_spec y' y''),
    (Z.compare_spec y y''); try lia; try discriminate; auto;
  destruct (Z.compare_spec m m'), (Z.compare_spec m' m''),
    (Z.compare_spec m m''); try lia; try discriminate; auto;
  destruct (Z.compare_spec d d'), (Z.compare_spec d' d''),
    (Z.compare_spec d d''); try lia; try discriminate; auto.
Qed.

Lemma date_leb_total (a b : date) : date_leb a b = true \/ date_leb b a = true.
Proof.
  unfold date_leb. rewrite (date_compare_antisym a b).
  destruct (date_compare a b); simpl; auto.
Qed.

Lemma date_leb_trans (a b c : date) :
  date_leb a b = true -> date_leb b c = true -> date_leb a c = true.
Proof.
  unfold date_leb. intros Hab Hbc.
  destruct (date_compare a b) eqn:E1; try discriminate;
  destruct (date_compare b c) eqn:E2; try discriminate.
  - apply date_compare_eq in E1, E2. subst.
    rewrite (proj2 (date_compare_eq c c) eq_refl). reflexivity.
  - apply date_compare_eq in E1. subst. rewrite E2. reflexivity.
  - apply date_compare_eq in E2. subst. rewrite E1. reflexivity.
  - rewrite (date_compare_lt_trans _ _ _ E1 E2). reflexivity.
Qed.

Lemma date_leb_antisym (a b : date) :
  date_leb a b = true -> date_leb b a = true -> a = b.
Proof.
  unfold date_leb. rewrite (date_compare_antisym a b).
  destruct (date_compare a b) eqn:E; simpl; try discriminate.
  intros _ _. apply date_compare_eq, E.
Qed.

Lemma date_ltb_leb (a b : date) : date_ltb a b = true -> date_leb a b = true.
Proof. unfold date_ltb, date_leb. destruct (date_compare a b); congruence. Qed.

Lemma date_ltb_irrefl (a : date) : date_ltb a a = false.
Proof.
  unfold date_ltb. rewrite (proj2 (date_compare_eq a a) eq_refl). reflexivity.
Qed.

Lemma date_leb_neq_ltb (a b : date) :
  date_leb a b = true -> a <> b -> date_ltb a b = true.
Proof.
  unfold date_leb, date_ltb. intros H N.
  destruct (date_compare a b) eqn:E; try discriminate; auto.
  apply date_compare_eq in E. contradiction.
Qed.

Lemma date_ltb_asym (a b : date) :
  date_ltb a b = true -> date_ltb b a = true -> False.
Proof.
  unfold date_ltb. rewrite (date_compare_antisym a b).
  destruct (date_compare a b); simpl; discriminate.
Qed.

Lemma date_ltb_neq (a b : date) : date_ltb a b = true -> a <> b.
Proof. intros H ->. rewrite date_ltb_irrefl in H. discriminate. Qed.

Lemma days_between_same (a : date) : days_between a a = 0%Z.
Proof. unfold days_between. lia. Qed.

(** ** Transaction reconstruction *)

Section Reconstruction.
Import BuysSells.

Let lt (x y : date) : Prop := date_ltb x y = true.
Let le (x y : date) : Prop := date_leb x y = true.

(** Two strictly ascending lists with the same elements are equal. *)
Lemma strictly_sorted_unique (l1 l2 : list date) :
  StronglySorted lt l1 -> StronglySorted lt l2 ->
  (forall x, In x l1 <-> In x l2) -> l1 = l2.
Proof.
  intros S1. revert l2.
  induction S1 as [|x l1 S1 IH H1]; intros l2 S2 Hin.
  - destruct l2 as [|y l2]; auto.
    exfalso. apply (proj2 (Hin y)). left; reflexivity.
  - destruct S2 as [|y l2 S2 H2].
    + exfalso. apply (proj1 (Hin x)). left; reflexivity.
    + rewrite Forall_forall in H1, H2.
      assert (x = y) as ->.
      { destruct (proj1 (Hin x) (or_introl eq_refl)) as [E|Hx]; auto.
        destruct (proj2 (Hin y) (or_introl eq_refl)) as [E|Hy]; auto.
        exfalso. apply (date_ltb_asym x y); [apply H1, Hy | apply H2, Hx]. }
      f_equal. apply IH; auto.
      intros z; split; intros Hz.
      * destruct (proj1 (Hin z) (or_intror Hz)) as [E|Hz']; auto.
        subst z. apply H1 in Hz. unfold lt in Hz.
        rewrite date_ltb_irrefl in Hz. discriminate.
      * destruct (proj2 (Hin z) (or_intror Hz)) as [E|Hz']; auto.
        subst z. apply H2 in Hz. unfold lt in Hz.
        rewrite date_ltb_irrefl in Hz. discriminate.
Qed.

Lemma squash_In (l : list date) (x : date) : In x (squash l) <-> In x l.
Proof.
  induction l as [|a l IH]; simpl; [tauto|].
  destruct l as [|b l]; [simpl; tauto|].
  destruct (date_eq_dec a b) as [->|N].
  - rewrite IH. simpl. tauto.
  - simpl in *. rewrite IH. tauto.
Qed.

Lemma squash_head (a : date) (l : list date) :
  exists t, squash (a :: l) = a :: t.
Proof.
  revert a. induction l as [|b l IH]; intros a; simpl.
  - eexists; reflexivity.
  - destruct (date_eq_dec a b) as [->|N].
    + apply IH.
    + eexists; reflexivity.
Qed.

Lemma squash_sorted (l : list date) :
  StronglySorted le l -> StronglySorted lt (squash l).
Proof.
  induction 1 as [|a l Hs IH H]; [constructor|].
  destruct l as [|b l]; [simpl; repeat constructor|].
  change (squash (a :: b :: l))
    with (if date_eq_dec a b then squash (b :: l) else a :: squash (b :: l)).
  destruct (date_eq_dec a b) as [->|N]; [exact IH|].
  constructor; [exact IH|].
  rewrite Forall_forall in *. intros z Hz. apply (proj1 (squash_In _ _)) in Hz.
  inversion Hs as [|? ? ? Hb]; subst. rewrite Forall_forall in Hb.
  simpl in Hz. destruct Hz as [<-|Hz].
  - apply date_leb_neq_ltb; auto. apply H; left; reflexivity.
  - apply date_leb_neq_ltb.
    + apply H; right; exact Hz.
    + intros ->. apply N, date_leb_antisym.
      * apply H; left; reflexivity.
      * apply Hb, Hz.
Qed.

Lemma squash_last (l : list date) (d : date) :
  last (squash l) d = last l d.
Proof.
  induction l as [|a l IH]; [reflexivity|].
  destruct l as [|b l]; [reflexivity|].
  change (squash (a :: b :: l))
    with (if date_eq_dec a b then squash (b :: l) else a :: squash (b :: l)).
  destruct (date_eq_dec a b) as [->|N].
  - rewrite IH. reflexivity.
  - destruct (squash_head b l) as [t Ht]. rewrite Ht in *.
    change (last (a :: b :: t) d) with (last (b :: t) d). rewrite IH.
    reflexivity.
Qed.

Lemma gap_events_squash (l : list date) :
  gap_events (squash l) = gap_events l.
Proof.
  induction l as [|a l IH]; [reflexivity|].
  destruct l as [|b l]; [reflexivity|].
  change (squash (a :: b :: l))
    with (if date_eq_dec a b then squash (b :: l) else a :: squash (b :: l)).
  change (gap_events (a :: b :: l))
    with ((if (days_between a b >? 1)%Z then
             [mkevent sold (strftime_ymd a); mkevent bought (strftime_ymd b)]
           else []) ++ gap_events (b :: l)).
  destruct (date_eq_dec a b) as [->|N].
  - rewrite IH, days_between_same. reflexivity.
  - destruct (squash_head b l) as [t Ht]. rewrite Ht in *.
    change (gap_events (a :: b :: t))
      with ((if (days_between a b >? 1)%Z then
               [mkevent sold (strftime_ymd a); mkevent bought (strftime_ymd b)]
             else []) ++ gap_events (b :: t)).
    rewrite IH. reflexivity.
Qed.

Lemma sorted_lt_of_NoDup (l : list date) :
  NoDup l -> StronglySorted le l -> StronglySorted lt l.
Proof.
  induction 1 as [|a l Hn ND IH]; intros Hs; [constructor|].
  inversion Hs as [|? ? Hs' H]; subst.
  constructor; [auto|].
  rewrite Forall_forall in *. intros z Hz.
  apply date_leb_neq_ltb; [apply H, Hz|]. intros ->. contradiction.
Qed.

(** The distinct dates in ascending order are the sorted dates without
    their adjacent repetitions. *)
Lemma distinct_sorted_squash (raw : list date) :
  distinct_sorted raw = squash (sorted date_leb raw).
Proof.
  apply strictly_sorted_unique.
  - apply sorted_lt_of_NoDup.
    + eapply Permutation_NoDup;
        [apply Permutation_sym, sorted_perm | apply NoDup_nodup].
    + apply sorted_sorted; [apply date_leb_total | apply date_leb_trans].
  - apply squash_sorted, sorted_sorted;
      [apply date_leb_total | apply date_leb_trans].
  - intros x. unfold distinct_sorted.
    rewrite sorted_In, nodup_In, squash_In, sorted_In. tauto.
Qed.

(** The loop over [range(len(dates) - 1)] emits the events of the gaps. *)
Lemma gap_loop (dates : list date) :
  forall (l : list date) (k : nat) (acc : list event),
    (forall j, j < List.length l ->
               nth (k + j) dates no_date = nth j l no_date) ->
    fold_left
      (fun transactions i =>
         let current_date := nth i dates no_date in
         let next_date := nth (i + 1) dates no_date in
         let days_diff := days_between current_date next_date in
         if (days_diff >? 1)%Z then
           transactions
             ++ [mkevent sold (strftime_ymd current_date)]
             ++ [mkevent bought (strftime_ymd next_date)]
         else transactions)
      (seq k (List.length l - 1)) acc
    = acc ++ gap_events l.
Proof.
  induction l as [|a l IH]; intros k acc Hnth.
  - simpl. rewrite app_nil_r. reflexivity.
  - destruct l as [|b l].
    + simpl. rewrite app_nil_r. reflexivity.
    + replace (List.length (a :: b :: l) - 1) with (S (List.length (b :: l) - 1))
        by (simpl; lia).
      rewrite <- cons_seq. cbn [fold_left].
      rewrite IH.
      * pose proof (Hnth 0 ltac:(simpl; lia)) as H0.
        pose proof (Hnth 1 ltac:(simpl; lia)) as H1.
        rewrite Nat.add_0_r in H0. rewrite H0. rewrite H1.
        cbn [nth]. cbn [gap_events].
        destruct (days_between a b >? 1)%Z.
        -- rewrite <- !app_assoc. reflexivity.
        -- reflexivity.
      * intros j Hj. replace (S k + j) with (k + S j) by lia.
        rewrite Hnth by (simpl in *; lia). reflexivity.
Qed.

Lemma closing_events_ne (last_date reference_end : date) :
  closing_events last_date reference_end =
  if negb (date_eqb last_date reference_end)
  then [mkevent sold (strftime_ymd last_date)] else [].
Proof.
  unfold closing_events, date_ltb, date_eqb.
  destruct (date_compare last_date reference_end); reflexivity.
Qed.

End Reconstruction.

(** On a series whose keys are dates, the events are those of the
    reconstruction on the sorted dates without their adjacent
    repetitions. *)
Lemma find_buy_sell_dates_parsed (V : Type) (time_series : dict string V)
    (raw : list date) :
  mapM BuysSells.parse_timestamp (dict_keys time_series) = Some raw ->
  BuysSells.find_buy_sell_dates time_series
  = Some (BuysSells.reconstruct (squash (sorted date_leb raw))
            BuysSells.REFERENCE_END_DATE).
Proof.
  intros Hraw. unfold BuysSells.find_buy_sell_dates.
  destruct time_series as [|p ts].
  - injection Hraw as <-. reflexivity.
  - rewrite Hraw. cbn [bind].
    destruct (sorted date_leb raw) as [|first_date rest] eqn:E; [reflexivity|].
    rewrite (gap_loop (first_date :: rest) (first_date :: rest) 0)
      by (intros j _; reflexivity).
    destruct (squash_head first_date rest) as [t Ht].
    unfold BuysSells.reconstruct. rewrite Ht. rewrite <- Ht.
    rewrite gap_events_squash, squash_last, closing_events_ne.
    unfold ret.
    destruct (negb (date_eqb (last (first_date :: rest) first_date)
                             BuysSells.REFERENCE_END_DATE)).
    + rewrite <- app_assoc. reflexivity.
    + rewrite app_nil_r. reflexivity.
Qed.

(** C1.  [find_buy_sell_dates] follows the reconstruction algorithm of the
    specification.  When a key of the series is not a date it raises;
    otherwise its result is [reconstruct] on the distinct calendar dates of
    the keys in ascending order: nothing for an empty series, else [bought]
    at the first date, [sold] then [bought] around every gap of more than
    one day, and after the scan a closing [sold] at the last date when it is
    strictly before the reference end date and none when it equals it. *)
Theorem find_buy_sell_dates_reconstructs :
  forall (V : Type) (time_series : dict string V),
    BuysSells.find_buy_sell_dates time_series =
    option_map
      (fun raw => BuysSells.reconstruct (BuysSells.distinct_sorted raw)
                    BuysSells.REFERENCE_END_DATE)
      (mapM BuysSells.parse_timestamp (dict_keys time_series)).
Proof.
  intros V time_series.
  destruct (mapM BuysSells.parse_timestamp (dict_keys time_series))
    as [raw|] eqn:Hraw.
  - rewrite (find_buy_sell_dates_parsed time_series Hraw).
    cbn [option_map]. rewrite distinct_sorted_squash. reflexivity.
  - unfold BuysSells.find_buy_sell_dates.
    destruct time_series as [|p ts]; [discriminate|].
    rewrite Hraw. reflexivity.
Qed.

(** The two reconstructions the specification works out. *)
Example reconstruct_gap_then_closed :
  BuysSells.find_buy_sell_dates
    [("2025-01-01T00:00:00", 1%Z); ("2025-01-02T00:00:00", 1%Z);
     ("2025-01-10T00:00:00", 1%Z)]
  = Some [mkevent bought "2025-01-01"; mkevent sold "2025-01-02";
          mkevent bought "2025-01-10"; mkevent sold "2025-01-10"].
Proof. reflexivity. Qed.

Example reconstruct_open_at_reference :
  BuysSells.find_buy_sell_dates
    [("2025-01-01T00:00:00", 1%Z); ("2025-11-29T00:00:00", 1%Z)]
  = Some [mkevent bought "2025-01-01"; mkevent sold "2025-01-01";
          mkevent bought "2025-11-29"].
Proof. reflexivity. Qed.

(** ** The order of texts and the order of dates *)

Lemma ascii_compare_refl (a : ascii) : Ascii.compare a a = Eq.
Proof. unfold Ascii.compare. apply N.compare_refl. Qed.

Lemma string_compare_refl (s : string) : String.compare s s = Eq.
Proof.
  induction s as [|a s IH]; simpl; [reflexivity|].
  rewrite ascii_compare_refl. exact IH.
Qed.

Lemma string_compare_lt_trans (a b c : string) :
  String.compare a b = Lt -> String.compare b c = Lt -> String.compare a c = Lt.
Proof.
  revert b c. induction a as [|x a IH]; intros [|y b] [|z c]; simpl;
    try discriminate; auto.
  unfold Ascii.compare.
  destruct (N.compare_spec (N_of_ascii x) (N_of_ascii y)) as [E1|L1|G1];
    try discriminate;
  destruct (N.compare_spec (N_of_ascii y) (N_of_ascii z)) as [E2|L2|G2];
    try discriminate;
  destruct (N.compare_spec (N_of_ascii x) (N_of_ascii z)) as [E3|L3|G3];
    try lia; auto.
  apply IH.
Qed.

Lemma string_leb_trans (a b c : string) :
  String.leb a b = true -> String.leb b c = true -> String.leb a c = true.
Proof.
  unfold String.leb. intros Hab Hbc.
  destruct (String.compare a b) eqn:E1; try discriminate;
  destruct (String.compare b c) eqn:E2; try discriminate.
  - apply String.compare_eq_iff in E1, E2. subst.
    rewrite string_compare_refl. reflexivity.
  - apply String.compare_eq_iff in E1. subst. rewrite E2. reflexivity.
  - apply String.compare_eq_iff in E2. subst. rewrite E1. reflexivity.
  - rewrite (string_compare_lt_trans _ _ _ E1 E2). reflexivity.
Qed.

Lemma prefix_append (p s : string) :
  String.prefix p s = true -> exists r, s = (p ++ r)%string.
Proof.
  revert s. induction p as [|a p IH]; intros s H.
  - exists s. reflexivity.
  - destruct s as [|b s]; simpl in H; [discriminate|].
    destruct (ascii_dec a b) as [->|]; [|discriminate].
    destruct (IH _ H) as [r ->]. exists r. reflexivity.
Qed.

Lemma digit_cases (n : Z) :
  (0 <= n <= 9)%Z ->
  n = 0%Z \/ n = 1%Z \/ n = 2%Z \/ n = 3%Z \/ n = 4%Z \/ n = 5%Z \/ n = 6%Z
  \/ n = 7%Z \/ n = 8%Z \/ n = 9%Z.
Proof. lia. Qed.

Ltac each_digit H :=
  apply digit_cases in H;
  repeat (destruct H as [H|H]); subst.

Lemma ascii_compare_digit (a b : Z) :
  (0 <= a <= 9)%Z -> (0 <= b <= 9)%Z ->
  Ascii.compare (digit_char a) (digit_char b) = (a ?= b)%Z.
Proof. intros Ha Hb. each_digit Ha; each_digit Hb; reflexivity. Qed.

Lemma digit_of_digit_char (a : Z) :
  (0 <= a <= 9)%Z -> digit_of (digit_char a) = Some a.
Proof. intros Ha. each_digit Ha; reflexivity. Qed.

Ltac zdm := Z.div_mod_to_equations; lia.

Lemma digits2 (m : Z) :
  (0 <= m < 100)%Z ->
  exists a1 a0, (0 <= a1 <= 9 /\ 0 <= a0 <= 9 /\ m = 10 * a1 + a0
                 /\ m / 10 mod 10 = a1 /\ m mod 10 = a0)%Z.
Proof. intros H. exists (m / 10 mod 10)%Z, (m mod 10)%Z. zdm. Qed.

Lemma digits4 (y : Z) :
  (0 <= y < 10000)%Z ->
  exists a3 a2 a1 a0,
    (0 <= a3 <= 9 /\ 0 <= a2 <= 9 /\ 0 <= a1 <= 9 /\ 0 <= a0 <= 9
     /\ y = 1000 * a3 + 100 * a2 + 10 * a1 + a0
     /\ y / 1000 mod 10 = a3 /\ y / 100 mod 10 = a2
     /\ y / 10 mod 10 = a1 /\ y mod 10 = a0)%Z.
Proof.
  intros H.
  exists (y / 1000 mod 10)%Z, (y / 100 mod 10)%Z, (y / 10 mod 10)%Z, (y mod 10)%Z.
  zdm.
Qed.

Lemma pad2_compare (m m' : Z) (s s' : string) :
  (0 <= m < 100)%Z -> (0 <= m' < 100)%Z ->
  String.compare (pad2 m ++ s) (pad2 m' ++ s') =
  match (m ?= m')%Z with
  | Eq => String.compare s s'
  | c => c
  end.
Proof.
  intros Hm Hm'. unfold pad2. cbn [String.append String.compare].
  destruct (digits2 Hm) as (a1 & a0 & B1 & B0 & E & -> & ->).
  destruct (digits2 Hm') as (b1 & b0 & B1' & B0' & E' & -> & ->).
  rewrite !ascii_compare_digit by assumption.
  destruct (Z.compare_spec a1 b1), (Z.compare_spec a0 b0),
    (Z.compare_spec m m'); try reflexivity; lia.
Qed.

Lemma pad4_compare (y y' : Z) (s s' : string) :
  (0 <= y < 10000)%Z -> (0 <= y' < 10000)%Z ->
  String.compare (pad4 y ++ s) (pad4 y' ++ s') =
  match (y ?= y')%Z with
  | Eq => String.compare s s'
  | c => c
  end.
Proof.
  intros Hy Hy'. unfold pad4, pad2. cbn [String.append String.compare].
  destruct (digits4 Hy) as (a3 & a2 & a1 & a0 & B3 & B2 & B1 & B0 & E
                            & -> & -> & -> & ->).
  destruct (digits4 Hy') as (b3 & b2 & b1 & b0 & B3' & B2' & B1' & B0' & E'
                             & -> & -> & -> & ->).
  rewrite !ascii_compare_digit by assumption.
  destruct (Z.compare_spec a3 b3); [|destruct (Z.compare_spec y y');
    try reflexivity; lia ..].
  destruct (Z.compare_spec a2 b2); [|destruct (Z.compare_spec y y');
    try reflexivity; lia ..].
  destruct (Z.compare_spec a1 b1); [|destruct (Z.compare_spec y y');
    try reflexivity; lia ..].
  destruct (Z.compare_spec a0 b0); destruct (Z.compare_spec y y');
    try reflexivity; lia.
Qed.

Lemma string_append_assoc (a b c : string) :
  ((a ++ b) ++ c)%string = (a ++ (b ++ c))%string.
Proof.
  induction a as [|x a IH]; simpl; [reflexivity|]. rewrite IH. reflexivity.
Qed.

Lemma valid_date_bounds (d : date) :
  valid_date d = true ->
  (1 <= year d <= 9999 /\ 1 <= month d <= 12 /\ 1 <= day d <= 31)%Z.
Proof.
  unfold valid_date, days_in_month. intros H.
  repeat (apply andb_prop in H; destruct H as [H ?]).
  repeat match goal with
         | H : (_ <=? _)%Z = true |- _ => apply Z.leb_le in H
         end.
  destruct (month d =? 2)%Z; [destruct (is_leap (year d))|];
    [| |destruct (_ || _)]; lia.
Qed.

(** From the year 1000 on, a date is written with four digits of year. *)
Lemma strftime_four_digits (d : date) :
  (1000 <= year d)%Z ->
  strftime_ymd d
  = (pad4 (year d) ++ "-" ++ pad2 (month d) ++ "-" ++ pad2 (day d))%string.
Proof.
  intros H. unfold strftime_ymd, year_text.
  replace (year d <? 10)%Z with false by (symmetry; apply Z.ltb_ge; lia).
  replace (year d <? 100)%Z with false by (symmetry; apply Z.ltb_ge; lia).
  replace (year d <? 1000)%Z with false by (symmetry; apply Z.ltb_ge; lia).
  reflexivity.
Qed.

(** Texts that start with the date compare as their dates do, from the
    year 1000 on. *)
Lemma strftime_compare (d1 d2 : date) (r1 r2 : string) :
  valid_date d1 = true -> valid_date d2 = true ->
  (1000 <= year d1)%Z -> (1000 <= year d2)%Z ->
  String.compare (strftime_ymd d1 ++ r1) (strftime_ymd d2 ++ r2) =
  match date_compare d1 d2 with
  | Eq => String.compare r1 r2
  | c => c
  end.
Proof.
  intros V1 V2 Y1 Y2.
  apply valid_date_bounds in V1, V2.
  rewrite !strftime_four_digits by assumption. unfold date_compare.
  rewrite !string_append_assoc.
  rewrite pad4_compare by lia.
  destruct (year d1 ?= year d2)%Z; try reflexivity.
  cbn [String.append String.compare]. rewrite ascii_compare_refl.
  rewrite pad2_compare by lia.
  destruct (month d1 ?= month d2)%Z; try reflexivity.
  cbn [String.append String.compare]. rewrite ascii_compare_refl.
  rewrite pad2_compare by lia.
  reflexivity.
Qed.

Lemma strptime_ymd_valid (s : string) (d : date) :
  strptime_ymd s = Some d -> valid_date d = true.
Proof.
  unfold strptime_ymd. intros H.
  repeat match type of H with
         | match ?x with _ => _ end = _ => destruct x eqn:?; try discriminate
         | (if ?x then _ else _) = _ => destruct x eqn:?; try discriminate
         | (let (_, _) := ?x in _) = _ => destruct x eqn:?
         end.
  injection H as <-. assumption.
Qed.

Lemma parse_timestamp_valid (k : string) (d : date) :
  Analysis.parse_timestamp k = Some d -> valid_date d = true.
Proof. apply strptime_ymd_valid. Qed.

Lemma iso_dated_spec (k : string) :
  iso_dated k = true ->
  exists r, Analysis.parse_timestamp k = Some (date_of_key k)
            /\ valid_date (date_of_key k) = true
            /\ k = (strftime_ymd (date_of_key k) ++ r)%string.
Proof.
  unfold iso_dated, date_of_key.
  destruct (Analysis.parse_timestamp k) as [d|] eqn:E; [|discriminate].
  intros H. apply prefix_append in H. destruct H as [r Hr].
  exists r. repeat split; auto. eapply parse_timestamp_valid; eassumption.
Qed.

Lemma digit_char_not_T (a : Z) :
  (0 <= a <= 9)%Z -> Ascii.eqb (digit_char a) "T" = false.
Proof. intros Ha. each_digit Ha; reflexivity. Qed.

(** A date before the year 1000, as [strftime] writes it, is not read by
    [strptime], whatever follows it: the year has fewer than four digits. *)
Lemma short_year_refused (d : date) (r : string) :
  valid_date d = true -> (year d < 1000)%Z ->
  strptime_ymd (split_T_head (strftime_ymd d ++ r)) = None.
Proof.
  intros V Hy. pose proof (valid_date_bounds d V) as (Hy1 & Hm & Hd).
  assert (Hm' : (0 <= month d < 100)%Z) by lia.
  assert (Hd' : (0 <= day d < 100)%Z) by lia.
  destruct (digits2 Hm') as (m1 & m0 & M1 & M0 & _ & F1 & F0).
  destruct (digits2 Hd') as (d1 & d0 & D1 & D0 & _ & G1 & G0).
  unfold strftime_ymd, year_text.
  destruct (Z.ltb_spec (year d) 10) as [H10|H10].
  - assert (Ha : (0 <= year d mod 10 <= 9)%Z) by zdm.
    unfold pad2. rewrite F1, F0, G1, G0.
    cbn [String.append split_T_head].
    rewrite !digit_char_not_T by assumption.
    cbn [Ascii.eqb Bool.eqb]. unfold strptime_ymd.
    rewrite digit_of_digit_char by assumption. reflexivity.
  - destruct (Z.ltb_spec (year d) 100) as [H100|H100].
    + assert (Hy' : (0 <= year d < 100)%Z) by lia.
      destruct (digits2 Hy') as (a1 & a0 & A1 & A0 & _ & E1 & E0).
      unfold pad2. rewrite E1, E0, F1, F0, G1, G0.
      cbn [String.append split_T_head].
      rewrite !digit_char_not_T by assumption.
      cbn [Ascii.eqb Bool.eqb]. unfold strptime_ymd.
      rewrite !digit_of_digit_char by assumption. reflexivity.
    + replace (year d <? 1000)%Z with true by (symmetry; apply Z.ltb_lt; lia).
      assert (Hy' : (0 <= year d < 10000)%Z) by lia.
      destruct (digits4 Hy') as (a3 & a2 & a1 & a0 & A3 & A2 & A1 & A0 & _
                                 & _ & E2 & E1 & E0).
      unfold pad2. rewrite E2, E1, E0, F1, F0, G1, G0.
      cbn [String.append split_T_head].
      rewrite !digit_char_not_T by assumption.
      cbn [Ascii.eqb Bool.eqb]. unfold strptime_ymd.
      rewrite !digit_of_digit_char by assumption. reflexivity.
Qed.

(** A key in ISO-8601 form is dated in the year 1000 or later. *)
Lemma iso_dated_year (k : string) :
  iso_dated k = true -> (1000 <= year (date_of_key k))%Z.
Proof.
  intros I. destruct (iso_dated_spec _ I) as (r & Hp & V & E).
  destruct (Z.le_gt_cases 1000 (year (date_of_key k))) as [H|H]; [exact H|].
  exfalso. unfold Analysis.parse_timestamp in Hp. rewrite E in Hp at 1.
  rewrite short_year_refused in Hp by (assumption || lia). discriminate.
Qed.

(** Keys in ISO-8601 form that are in text order are in date order. *)
Lemma iso_leb_date_leb (k1 k2 : string) :
  iso_dated k1 = true -> iso_dated k2 = true ->
  String.leb k1 k2 = true ->
  date_leb (date_of_key k1) (date_of_key k2) = true.
Proof.
  intros I1 I2.
  destruct (iso_dated_spec _ I1) as (r1 & _ & V1 & E1).
  destruct (iso_dated_spec _ I2) as (r2 & _ & V2 & E2).
  unfold String.leb, date_leb.
  rewrite E1 at 1. rewrite E2 at 1.
  rewrite strftime_compare by (assumption || apply iso_dated_year; assumption).
  destruct (date_compare (date_of_key k1) (date_of_key k2)); auto.
Qed.

(** ** Nearest-past-date lookup *)

Lemma last_opt_cons {A} (x : A) (l : list A) :
  last_opt (x :: l) = match last_opt l with Some y => Some y | None => Some x end.
Proof.
  unfold last_opt. simpl. destruct (rev l) as [|y t] eqn:E; reflexivity.
Qed.

Lemma last_opt_In {A} (l : list A) (x : A) : last_opt l = Some x -> In x l.
Proof.
  unfold last_opt. destruct (rev l) as [|y t] eqn:E; [discriminate|].
  intros [= <-]. apply in_rev. rewrite E. left; reflexivity.
Qed.

Lemma last_opt_None {A} (l : list A) : last_opt l = None -> l = [].
Proof.
  unfold last_opt. destruct (rev l) as [|y t] eqn:E; [|discriminate].
  intros _. rewrite <- (rev_involutive l), E. reflexivity.
Qed.

Lemma find_all_false {A} (f : A -> bool) (l : list A) :
  (forall x, In x l -> f x = false) -> find f l = None.
Proof.
  induction l as [|a l IH]; intros H; simpl; [reflexivity|].
  rewrite (H a (or_introl eq_refl)). apply IH. intros x Hx. apply H. right; exact Hx.
Qed.

Lemma filter_all_false {A} (f : A -> bool) (l : list A) :
  (forall x, In x l -> f x = false) -> filter f l = [].
Proof.
  induction l as [|a l IH]; intros H; simpl; [reflexivity|].
  rewrite (H a (or_introl eq_refl)). apply IH. intros x Hx. apply H. right; exact Hx.
Qed.

Section Lookup.
Import Analysis.

Let text_le (k1 k2 : string) : Prop := String.leb k1 k2 = true.

Lemma scan_keys_selected (target : date) (sorted_keys : list string) :
  Forall (fun k => iso_dated k = true) sorted_keys ->
  StronglySorted text_le sorted_keys ->
  forall best,
    scan_keys target sorted_keys best
    = Some (selected_key target sorted_keys best).
Proof.
  intros Hiso Hs. induction Hs as [|k rest Hs IH Hk]; intros best.
  - reflexivity.
  - inversion Hiso as [|? ? Ik Irest]; subst.
    destruct (iso_dated_spec _ Ik) as (r & Hp & Hv & Hr).
    cbn [scan_keys]. rewrite Hp. cbn [bind].
    unfold selected_key. cbn [find filter]. unfold key_on at 1.
    unfold key_before at 1.
    unfold date_eqb, date_ltb. rewrite (date_compare_antisym (date_of_key k)).
    destruct (date_compare (date_of_key k) target) eqn:Ec; cbn [CompOpp].
    + reflexivity.
    + rewrite IH by assumption. unfold selected_key.
      destruct (find (key_on target) rest); [reflexivity|].
      rewrite last_opt_cons.
      destruct (last_opt (filter (key_before target) rest)); reflexivity.
    + assert (Hall : forall k', In k' rest ->
                date_compare (date_of_key k') target = Gt).
      { intros k' Hin. rewrite Forall_forall in Hk, Irest.
        pose proof (iso_leb_date_leb k k' Ik (Irest _ Hin) (Hk _ Hin)) as Hle.
        destruct (date_compare (date_of_key k') target) eqn:E'; auto.
        - apply date_compare_eq in E'. rewrite E' in Hle.
          unfold date_leb in Hle. rewrite Ec in Hle. discriminate.
        - exfalso. assert (Hlt : date_ltb (date_of_key k') target = true)
            by (unfold date_ltb; rewrite E'; reflexivity).
          apply date_ltb_leb in Hlt.
          pose proof (date_leb_trans _ _ _ Hle Hlt) as Hc.
          unfold date_leb in Hc. rewrite Ec in Hc. discriminate. }
      assert (Hf : find (key_on target) rest = None).
      { apply find_all_false. intros k' Hin. unfold key_on, date_eqb.
        rewrite (Hall _ Hin). reflexivity. }
      assert (Hb : filter (key_before target) rest = []).
      { apply filter_all_false. intros k' Hin. unfold key_before, date_ltb.
        rewrite (Hall _ Hin). reflexivity. }
      rewrite Hf, Hb. reflexivity.
Qed.

End Lookup.

Lemma dict_get_In {V} (d : dict string V) (k : string) :
  In k (dict_keys d) -> exists v, dict_get String.eqb d k = Some v.
Proof.
  induction d as [|[k' v'] d IH]; simpl; [tauto|].
  intros [->|H].
  - rewrite String.eqb_refl. eauto.
  - destruct (String.eqb k' k); eauto.
Qed.

Lemma sorted_last_max {A} (R : A -> A -> Prop) (l : list A) (x : A) :
  (forall a, R a a) -> StronglySorted R l -> last_opt l = Some x ->
  forall y, In y l -> R y x.
Proof.
  intros Hrefl Hs. revert x.
  induction Hs as [|a l Hs IH Ha]; intros x Hl y Hy; [destruct Hy|].
  rewrite last_opt_cons in Hl. rewrite Forall_forall in Ha.
  destruct (last_opt l) as [z|] eqn:E.
  - injection Hl as <-. destruct Hy as [<-|Hy].
    + apply Ha. apply last_opt_In, E.
    + apply IH; auto.
  - injection Hl as <-. apply last_opt_None in E. subst l.
    destruct Hy as [<-|[]]. apply Hrefl.
Qed.

Lemma StronglySorted_filter {A} (R : A -> A -> Prop) (f : A -> bool)
    (l : list A) :
  StronglySorted R l -> StronglySorted R (filter f l).
Proof.
  induction 1 as [|a l Hs IH Ha]; simpl; [constructor|].
  destruct (f a); [|exact IH].
  constructor; [exact IH|].
  rewrite Forall_forall in *. intros x Hx. apply filter_In in Hx. apply Ha, Hx.
Qed.

Lemma string_leb_refl (s : string) : String.leb s s = true.
Proof. unfold String.leb. rewrite string_compare_refl. reflexivity. Qed.

Lemma iso_dated_truthy (k : string) : iso_dated k = true -> truthy (Some k) = true.
Proof.
  destruct k; [|reflexivity]. intros H. vm_compute in H. discriminate.
Qed.

Section LookupSpec.
Import Analysis.
Variable V : Type.
Variable time_series : dict string V.
Hypothesis keys_iso : forallb iso_dated (dict_keys time_series) = true.

Let sorted_keys := sorted String.leb (dict_keys time_series).

Lemma sorted_keys_iso : Forall (fun k => iso_dated k = true) sorted_keys.
Proof.
  rewrite Forall_forall. intros k Hk. apply sorted_In in Hk.
  rewrite forallb_forall in keys_iso. auto.
Qed.

Lemma sorted_keys_sorted :
  StronglySorted (fun k1 k2 => String.leb k1 k2 = true) sorted_keys.
Proof. apply sorted_sorted; [apply String.leb_total | apply string_leb_trans]. Qed.

Lemma find_timestamp_key_selected (date_str : string) (target : date) :
  strptime_ymd date_str = Some target ->
  find_timestamp_key date_str time_series
  = Some (selected_key target sorted_keys None).
Proof.
  intros Ht. unfold find_timestamp_key. rewrite Ht. cbn [bind].
  apply scan_keys_selected; [apply sorted_keys_iso | apply sorted_keys_sorted].
Qed.

Lemma selected_exact (target : date) :
  (exists k, In k (dict_keys time_series) /\ date_of_key k = target) ->
  exists k, selected_key target sorted_keys None = Some k
            /\ In k (dict_keys time_series) /\ date_of_key k = target.
Proof.
  intros (k & Hin & Hd). unfold selected_key.
  destruct (find (key_on target) sorted_keys) as [k0|] eqn:E.
  - apply find_some in E. destruct E as [Hin0 Hon].
    exists k0. split; [reflexivity|]. split.
    + apply sorted_In in Hin0. exact Hin0.
    + apply date_eqb_eq. exact Hon.
  - exfalso. apply (proj2 (sorted_In String.leb _ _)) in Hin.
    pose proof (find_none _ _ E _ Hin) as Hf.
    unfold key_on in Hf. rewrite Hd, date_eqb_refl in Hf. discriminate.
Qed.

Lemma selected_past (target : date) :
  (forall k, In k (dict_keys time_series) -> date_of_key k <> target) ->
  (exists k, In k (dict_keys time_series)
             /\ date_ltb (date_of_key k) target = true) ->
  exists k, selected_key target sorted_keys None = Some k
            /\ In k (dict_keys time_series)
            /\ date_ltb (date_of_key k) target = true
            /\ forall k', In k' (dict_keys time_series) ->
                          date_ltb (date_of_key k') target = true ->
                          String.leb k' k = true
                          /\ date_leb (date_of_key k') (date_of_key k) = true.
Proof.
  intros Hne (k & Hin & Hlt). unfold selected_key.
  rewrite find_all_false.
  2:{ intros x Hx. apply sorted_In in Hx. unfold key_on.
      destruct (date_eqb (date_of_key x) target) eqn:E; auto.
      apply date_eqb_eq in E. exfalso. eapply Hne; eauto. }
  destruct (last_opt (filter (key_before target) sorted_keys)) as [k0|] eqn:E.
  - exists k0. split; [reflexivity|].
    pose proof (last_opt_In _ E) as Hk0. apply filter_In in Hk0.
    destruct Hk0 as [Hk0 Hb0]. split; [apply sorted_In in Hk0; exact Hk0|].
    split; [exact Hb0|].
    intros k' Hin' Hlt'.
    assert (Hle : String.leb k' k0 = true).
    { apply (sorted_last_max (R := fun a b => String.leb a b = true)
               string_leb_refl
               (StronglySorted_filter (key_before target) sorted_keys_sorted) E).
      apply filter_In. split; [|exact Hlt'].
      apply (proj2 (sorted_In String.leb _ _)), Hin'. }
    split; [exact Hle|].
    rewrite forallb_forall in keys_iso.
    apply iso_leb_date_leb; auto. apply keys_iso. apply sorted_In in Hk0. exact Hk0.
  - exfalso. apply last_opt_None in E.
    assert (Hf : In k (filter (key_before target) sorted_keys)).
    { apply filter_In. split; [|exact Hlt].
      apply (proj2 (sorted_In String.leb _ _)), Hin. }
    rewrite E in Hf. destruct Hf.
Qed.

Lemma selected_none (target : date) :
  (forall k, In k (dict_keys time_series) ->
             date_ltb target (date_of_key k) = true) ->
  selected_key target sorted_keys None = None.
Proof.
  intros Hall. unfold selected_key.
  rewrite find_all_false, filter_all_false; [reflexivity| |];
    intros x Hx; apply sorted_In in Hx; specialize (Hall _ Hx).
  - unfold key_before. destruct (date_ltb (date_of_key x) target) eqn:E; auto.
    exfalso. eapply date_ltb_asym; eauto.
  - unfold key_on. destruct (date_eqb (date_of_key x) target) eqn:E; auto.
    apply date_eqb_eq in E. rewrite E, date_ltb_irrefl in Hall. discriminate.
Qed.

End LookupSpec.

(** ** The valuation engine *)

Lemma skipn_nth_cons {A} (l : list A) (i : nat) (d : A) :
  i < List.length l -> skipn i l = nth i l d :: skipn (S i) l.
Proof.
  revert i. induction l as [|a l IH]; intros i H; simpl in H; [lia|].
  destruct i as [|i]; [reflexivity|].
  simpl. apply IH. lia.
Qed.

Section Engine.
Import Analysis.
Variable num : Type.
Variable zero : num.
Variable add sub : num -> num -> num.
Variable gt_zero : num -> bool.
Variable nav_time_series : dict string num.
Variable purchase_price_arg : option num.

Local Abbreviation holding_period_of T :=
  (holding_period zero add sub gt_zero T nav_time_series purchase_price_arg).
Local Abbreviation while_loop_of T :=
  (while_loop zero add sub gt_zero T nav_time_series purchase_price_arg).
Local Abbreviation pair_events_of :=
  (pair_events zero add sub gt_zero nav_time_series purchase_price_arg).
Local Abbreviation period_detail_of :=
  (period_detail zero add sub gt_zero nav_time_series purchase_price_arg).

(** The body of the loop at position [i] only reads the events from
    position [i] on. *)
Lemma holding_period_skipn (T : list event) (i : nat) :
  holding_period_of T i = holding_period_of (skipn i T) 0.
Proof.
  unfold holding_period.
  rewrite !nth_skipn, length_skipn, !Nat.add_0_r.
  replace (0 + 1 <? List.length T - i)%nat with (i + 1 <? List.length T)%nat.
  - reflexivity.
  - destruct (Nat.ltb_spec (i + 1) (List.length T)),
      (Nat.ltb_spec (0 + 1) (List.length T - i)); auto; lia.
Qed.

(** Whether the loop found a sell says what follows the [bought]. *)
Lemma holding_period_found (e : event) (rest : list event) (found : bool)
    (d : detail num) :
  holding_period_of (e :: rest) 0 = Some (found, d) ->
  found = match rest with
          | s :: _ => action_eqb (ev_action s) sold
          | [] => false
          end.
Proof.
  unfold holding_period. cbn [nth Nat.add List.length].
  destruct (find_timestamp_key (ev_date e) nav_time_series) as [buy_ts|];
    [|discriminate].
  cbn [bind].
  destruct rest as [|s rest]; cbn [nth List.length Nat.ltb Nat.leb andb].
  - destruct (last_opt _) as [last_ts|]; [|discriminate]. cbn [bind].
    destruct (parse_timestamp last_ts); [|discriminate]. cbn [bind].
    destruct (dict_get _ _ last_ts); [|discriminate].
    cbn [bind ret]. intros [= <- _]. reflexivity.
  - destruct (action_eqb (ev_action s) sold).
    + destruct (find_timestamp_key (ev_date s) nav_time_series);
        [|discriminate].
      cbn [bind ret]. intros [= <- _]. reflexivity.
    + destruct (last_opt _) as [last_ts|]; [|discriminate]. cbn [bind].
      destruct (parse_timestamp last_ts); [|discriminate]. cbn [bind].
      destruct (dict_get _ _ last_ts); [|discriminate].
      cbn [bind ret]. intros [= <- _]. reflexivity.
Qed.

(** The loop from position [i] is the walk over the events from
    position [i] on. *)
Lemma while_loop_pair_events (T : list event) :
  forall i total details,
    while_loop_of T i total details =
    (ds <- pair_events_of (skipn i T) ;;
     ret (fold_left add (map (@profit num) ds) total, details ++ ds)).
Proof.
  intros i total details.
  apply (while_loop_elim zero add sub gt_zero T nav_time_series
           purchase_price_arg
           (fun i total details res =>
              res = (ds <- pair_events_of (skipn i T) ;;
                     ret (fold_left add (map (@profit num) ds) total,
                          details ++ ds)))).
  - (* the loop ends *)
    intros j Hn tot dets _.
    rewrite skipn_all2 by lia. cbn. rewrite app_nil_r. reflexivity.
  - (* a [sold] is skipped *)
    intros j Hl tot dets IH Ha _.
    rewrite IH. rewrite (skipn_nth_cons T no_event Hl).
    cbn [pair_events]. rewrite Ha. rewrite Nat.add_1_r. reflexivity.
  - (* a [bought] with its [sold] *)
    intros j d Hl tot dets IH Hh Ha _.
    rewrite IH. rewrite (skipn_nth_cons T no_event Hl).
    cbn [pair_events]. rewrite Ha.
    unfold period_detail.
    rewrite holding_period_skipn in Hh.
    rewrite (skipn_nth_cons T no_event Hl) in Hh. rewrite Hh.
    apply holding_period_found in Hh.
    cbn [option_map snd bind].
    destruct (skipn (S j) T) as [|s rest'] eqn:Es; [discriminate|].
    rewrite <- Hh.
    replace (j + 2) with (S (S j)) by lia.
    assert (Er : skipn (S (S j)) T = rest').
    { rewrite <- (skipn_skipn 1 (S j)). rewrite Es. reflexivity. }
    rewrite Er.
    destruct (pair_events_of rest') as [ds|]; [|reflexivity].
    cbn [bind ret map fold_left]. rewrite <- app_assoc. reflexivity.
  - (* a [bought] left open *)
    intros j d Hl tot dets IH Hh Ha _.
    rewrite IH. rewrite (skipn_nth_cons T no_event Hl).
    cbn [pair_events]. rewrite Ha.
    unfold period_detail.
    rewrite holding_period_skipn in Hh.
    rewrite (skipn_nth_cons T no_event Hl) in Hh. rewrite Hh.
    apply holding_period_found in Hh.
    cbn [option_map snd bind].
    rewrite Nat.add_1_r.
    destruct (skipn (S j) T) as [|s rest'] eqn:Es.
    + cbn [pair_events bind ret map fold_left]. rewrite app_nil_r. reflexivity.
    + rewrite <- Hh.
      destruct (pair_events_of (s :: rest')) as [ds|]; [|reflexivity].
      cbn [bind ret map fold_left]. rewrite <- app_assoc. reflexivity.
  - (* the body raises *)
    intros j Hl tot dets Hh Ha _.
    rewrite (skipn_nth_cons T no_event Hl).
    cbn [pair_events]. rewrite Ha.
    unfold period_detail.
    rewrite holding_period_skipn in Hh.
    rewrite (skipn_nth_cons T no_event Hl) in Hh. rewrite Hh.
    reflexivity.
Qed.

End Engine.

(** An induction principle that follows the walk over the events. *)
Lemma pairing_ind (P : list event -> Prop) :
  P [] ->
  (forall e rest, ev_action e = sold -> P rest -> P (e :: rest)) ->
  (forall e, ev_action e = bought -> P [e]) ->
  (forall e s rest,
      ev_action e = bought -> ev_action s = sold -> P rest ->
      P (e :: s :: rest)) ->
  (forall e s rest,
      ev_action e = bought -> ev_action s = bought -> P (s :: rest) ->
      P (e :: s :: rest)) ->
  forall events, P events.
Proof.
  intros Hnil Hsold Hone Hpair Hopen events.
  assert (H : forall n l, List.length l <= n -> P l).
  { induction n as [|n IH]; intros l Hl.
    - destruct l; [exact Hnil | simpl in Hl; lia].
    - destruct l as [|e rest]; [exact Hnil|].
      destruct (ev_action e) eqn:Ee.
      + destruct rest as [|s rest]; [apply Hone, Ee|].
        destruct (ev_action s) eqn:Es.
        * apply Hopen; auto. apply IH. simpl in *; lia.
        * apply Hpair; auto. apply IH. simpl in *; lia.
      + apply Hsold; auto. apply IH. simpl in *; lia. }
  apply (H (List.length events)). lia.
Qed.

(** What follows position [b]: the position of the [sold] that
    immediately follows it, if there is one. *)
Lemma pair_indices_In (events : list event) :
  forall i b os,
    In (b, os) (pair_indices i events) <->
    i <= b /\
    exists e, nth_error events (b - i) = Some e /\ ev_action e = bought /\
              os = match nth_error events (S (b - i)) with
                   | Some s => if action_eqb (ev_action s) sold
                               then Some (S b) else None
                   | None => None
                   end.
Proof.
  induction events as [|e rest Ee IH|e Ee|e s rest Ee Es IH|e s rest Ee Es IH]
    using pairing_ind; intros i b os.
  - simpl. split; [tauto|]. intros (_ & e & H & _).
    destruct (b - i); discriminate.
  - cbn [pair_indices]. rewrite Ee. rewrite IH. split.
    + intros (Hle & e' & Hn & Ha & Hos).
      split; [lia|]. exists e'.
      replace (b - i) with (S (b - S i)) by lia. cbn [nth_error].
      repeat split; auto.
    + intros (Hle & e' & Hn & Ha & Hos).
      destruct (b - i) as [|k] eqn:Ek.
      * cbn [nth_error] in Hn. injection Hn as <-. congruence.
      * split; [lia|]. exists e'.
        replace (b - S i) with k by lia. cbn [nth_error] in *.
        repeat split; auto.
  - cbn [pair_indices]. rewrite Ee. cbn [In]. split.
    + intros [[= <- <-]|[]]. split; [lia|]. exists e.
      rewrite Nat.sub_diag. repeat split; auto.
    + intros (Hle & e' & Hn & Ha & Hos).
      destruct (b - i) as [|k] eqn:Ek.
      * left. cbn in Hos. subst os. assert (b = i) by lia. subst b. reflexivity.
      * destruct k; discriminate.
  - cbn [pair_indices]. rewrite Ee, Es. cbn [action_eqb In]. rewrite IH. split.
    + intros [[= <- <-]|(Hle & e' & Hn & Ha & Hos)].
      * split; [lia|]. exists e. rewrite Nat.sub_diag. cbn [nth_error].
        rewrite Es. repeat split; auto.
      * split; [lia|]. exists e'.
        replace (b - i) with (S (S (b - S (S i)))) by lia. cbn [nth_error] in *.
        repeat split; auto.
    + intros (Hle & e' & Hn & Ha & Hos).
      destruct (b - i) as [|[|k]] eqn:Ek.
      * left. cbn [nth_error] in Hos. rewrite Es in Hos. cbn in Hos.
        subst os. assert (b = i) by lia. subst b. reflexivity.
      * cbn [nth_error] in Hn. injection Hn as <-. congruence.
      * right. split; [lia|]. exists e'.
        replace (b - S (S i)) with k by lia. cbn [nth_error] in *.
        repeat split; auto.
  - replace (pair_indices i (e :: s :: rest))
      with ((i, @None nat) :: pair_indices (S i) (s :: rest))
      by (cbn [pair_indices]; rewrite Ee, Es; reflexivity).
    cbn [In]. rewrite IH. split.
    + intros [[= <- <-]|(Hle & e' & Hn & Ha & Hos)].
      * split; [lia|]. exists e. rewrite Nat.sub_diag. cbn [nth_error].
        rewrite Es. repeat split; auto.
      * split; [lia|]. exists e'.
        replace (b - i) with (S (b - S i)) by lia. cbn [nth_error] in *.
        repeat split; auto.
    + intros (Hle & e' & Hn & Ha & Hos).
      destruct (b - i) as [|k] eqn:Ek.
      * left. cbn [nth_error] in Hos. rewrite Es in Hos. cbn in Hos.
        subst os. assert (b = i) by lia. subst b. reflexivity.
      * right. split; [lia|]. exists e'.
        replace (b - S i) with k by lia. cbn [nth_error] in *.
        repeat split; auto.
Qed.

(** The positions used by the pairs go strictly upwards: the events are
    walked in order and none is used twice. *)
Lemma used_indices_ascending (events : list event) :
  forall i,
    StronglySorted lt (used_indices (pair_indices i events))
    /\ Forall (fun j => i <= j) (used_indices (pair_indices i events)).
Proof.
  induction events as [|e rest Ee IH|e Ee|e s rest Ee Es IH|e s rest Ee Es IH]
    using pairing_ind; intros i.
  - split; constructor.
  - cbn [pair_indices]. rewrite Ee. destruct (IH (S i)) as [Hs Hf].
    split; [exact Hs|]. eapply Forall_impl; [|exact Hf]. simpl; lia.
  - cbn [pair_indices]. rewrite Ee. cbn. split; repeat constructor.
  - cbn [pair_indices]. rewrite Ee, Es. cbn [action_eqb].
    destruct (IH (S (S i))) as [Hs Hf].
    cbn [used_indices flat_map fst snd app] in *. split.
    + constructor; [constructor; [exact Hs|]|].
      * eapply Forall_impl; [|exact Hf]. simpl; lia.
      * constructor; [lia|]. eapply Forall_impl; [|exact Hf]. simpl; lia.
    + constructor; [lia|]. constructor; [lia|].
      eapply Forall_impl; [|exact Hf]. simpl; lia.
  - replace (pair_indices i (e :: s :: rest))
      with ((i, @None nat) :: pair_indices (S i) (s :: rest))
      by (cbn [pair_indices]; rewrite Ee, Es; reflexivity).
    destruct (IH (S i)) as [Hs Hf].
    unfold used_indices in *. cbn [flat_map fst snd app]. split.
    + constructor; [exact Hs|].
      eapply Forall_impl; [|exact Hf]. simpl; lia.
    + constructor; [lia|]. eapply Forall_impl; [|exact Hf]. simpl; lia.
Qed.

Lemma last_last_opt {A} (l : list A) (d : A) :
  l <> [] -> last_opt l = Some (last l d).
Proof.
  induction l as [|a l IH]; intros H; [congruence|].
  rewrite last_opt_cons. destruct l as [|b l]; [reflexivity|].
  rewrite IH by discriminate. reflexivity.
Qed.

Section EngineOnWellFormed.
Import Analysis.
Variable num : Type.
Variable zero : num.
Variable add sub : num -> num -> num.
Variable gt_zero : num -> bool.
Variable nav_time_series : dict string num.
Variable purchase_price_arg : option num.
Hypothesis keys_iso : forallb iso_dated (dict_keys nav_time_series) = true.

Local Abbreviation holding_period_of T :=
  (holding_period zero add sub gt_zero T nav_time_series purchase_price_arg).
Local Abbreviation pair_events_of :=
  (pair_events zero add sub gt_zero nav_time_series purchase_price_arg).
Local Abbreviation reference_value_of :=
  (reference_value zero nav_time_series).

Lemma reference_value_total (date_str : string) :
  is_date_text date_str = true ->
  exists v, reference_value_of date_str = Some v.
Proof.
  unfold is_date_text, reference_value.
  destruct (strptime_ymd date_str) as [target|] eqn:E; [|discriminate].
  intros _. rewrite (find_timestamp_key_selected _ keys_iso _ E).
  cbn [bind ret]. eauto.
Qed.

Lemma last_nav_key_exists :
  nav_time_series <> [] ->
  exists last_ts,
    last_opt (sorted String.leb (dict_keys nav_time_series)) = Some last_ts
    /\ last_nav_key nav_time_series last_ts.
Proof.
  intros Hne.
  set (sk := sorted String.leb (dict_keys nav_time_series)).
  assert (Hsk : sk <> []).
  { intros E. apply sorted_nil_inv in E.
    destruct nav_time_series; [congruence|discriminate]. }
  pose proof (last_last_opt EmptyString Hsk) as Hl.
  exists (last sk EmptyString). split; [exact Hl|].
  pose proof (last_opt_In _ Hl) as Hin. apply sorted_In in Hin.
  split; [exact Hin|]. intros k' Hk'.
  assert (Hle : String.leb k' (last sk EmptyString) = true).
  { apply (sorted_last_max (R := fun a b => String.leb a b = true)
             string_leb_refl (sorted_keys_sorted nav_time_series) Hl).
    apply (proj2 (sorted_In String.leb _ _)), Hk'. }
  split; [exact Hle|].
  rewrite forallb_forall in keys_iso.
  apply iso_leb_date_leb; auto.
Qed.

(** On well-formed inputs the body of the loop returns the detail record
    of the pair it forms. *)
Lemma holding_period_ok (e : event) (rest : list event) :
  nav_time_series <> [] ->
  is_date_text (ev_date e) = true ->
  (forall s rest', rest = s :: rest' -> is_date_text (ev_date s) = true) ->
  exists found d,
    holding_period_of (e :: rest) 0 = Some (found, d)
    /\ priced add sub gt_zero purchase_price_arg d
    /\ bought_at zero nav_time_series e d
    /\ match rest with
       | s :: _ =>
           if action_eqb (ev_action s) sold
           then sold_at zero nav_time_series s d
           else sold_at_last_nav nav_time_series d
       | [] => sold_at_last_nav nav_time_series d
       end.
Proof.
  intros Hne He Hs.
  destruct (reference_value_total _ He) as [bn Hb].
  destruct (last_nav_key_exists Hne) as (last_ts & Hlast & Hkey).
  assert (Hopen :
    exists v,
      parse_timestamp last_ts = Some (date_of_key last_ts)
      /\ dict_get String.eqb nav_time_series last_ts = Some v).
  { destruct Hkey as [Hin _].
    rewrite forallb_forall in keys_iso.
    destruct (iso_dated_spec _ (keys_iso _ Hin)) as (r & Hp & _).
    destruct (dict_get_In _ _ Hin) as [v Hv]. eauto. }
  destruct Hopen as (v & Hp & Hv).
  unfold holding_period. cbn [nth Nat.add List.length].
  unfold reference_value in Hb.
  destruct (find_timestamp_key (ev_date e) nav_time_series) as [buy_ts|] eqn:Eb;
    [|discriminate].
  cbn [bind ret] in Hb |- *. injection Hb as Hb.
  destruct rest as [|s rest]; cbn [nth List.length Nat.ltb Nat.leb andb].
  - rewrite Hlast. cbn [bind]. rewrite Hp. cbn [bind]. rewrite Hv.
    cbn [bind ret]. do 2 eexists. split; [reflexivity|].
    unfold priced, bought_at, sold_at_last_nav, reference_value.
    cbn [profit purchase_price selling_price buy_nav sell_nav buy_date sell_date].
    rewrite Eb. cbn [bind ret].
    repeat split; auto.
    exists last_ts. split; [exact Hkey|]. split; auto.
  - destruct (action_eqb (ev_action s) sold) eqn:Ea.
    + destruct (reference_value_total _ (Hs _ _ eq_refl)) as [sn Hsn].
      unfold reference_value in Hsn.
      destruct (find_timestamp_key (ev_date s) nav_time_series) as [sell_ts|] eqn:Es;
        [|discriminate].
      cbn [bind ret] in Hsn |- *. injection Hsn as Hsn.
      do 2 eexists. split; [reflexivity|].
      unfold priced, bought_at, sold_at, reference_value.
      cbn [profit purchase_price selling_price buy_nav sell_nav buy_date sell_date].
      rewrite Eb, Es. cbn [bind ret].
      repeat split; auto.
    + rewrite Hlast. cbn [bind]. rewrite Hp. cbn [bind]. rewrite Hv.
      cbn [bind ret]. do 2 eexists. split; [reflexivity|].
      unfold priced, bought_at, sold_at_last_nav, reference_value.
      cbn [profit purchase_price selling_price buy_nav sell_nav buy_date sell_date].
      rewrite Eb. cbn [bind ret].
      repeat split; auto.
      exists last_ts. split; [exact Hkey|]. split; auto.
Qed.

End EngineOnWellFormed.

Section WalkOnWellFormed.
Import Analysis.
Variable num : Type.
Variable zero : num.
Variable add sub : num -> num -> num.
Variable gt_zero : num -> bool.
Variable nav_time_series : dict string num.
Variable purchase_price_arg : option num.
Hypothesis keys_iso : forallb iso_dated (dict_keys nav_time_series) = true.
Hypothesis nav_nonempty : nav_time_series <> [].

Local Abbreviation pair_events_of :=
  (pair_events zero add sub gt_zero nav_time_series purchase_price_arg).
Local Abbreviation detail_of_pair_in T :=
  (detail_of_pair zero add sub gt_zero nav_time_series purchase_price_arg T).

(** On well-formed inputs the walk returns one detail record for each
    pair of positions, in order. *)
Lemma pair_events_ok (events : list event) :
  forallb (fun e => is_date_text (ev_date e)) events = true ->
  forall (T : list event) (i : nat),
    (forall j, nth_error T (i + j) = nth_error events j) ->
    exists ds,
      pair_events_of events = Some ds
      /\ Forall2 (detail_of_pair_in T) (pair_indices i events) ds.
Proof.
  induction events as [|e rest Ee IH|e Ee|e s rest Ee Es IH|e s rest Ee Es IH]
    using pairing_ind; intros Hd T i HT.
  - exists []. split; [reflexivity|constructor].
  - cbn [pair_events pair_indices]. rewrite Ee.
    cbn [forallb] in Hd. apply andb_prop in Hd. destruct Hd as [_ Hd].
    apply (IH Hd T (S i)). intros j.
    replace (S i + j) with (i + S j) by lia. apply HT.
  - cbn [forallb] in Hd. apply andb_prop in Hd. destruct Hd as [He _].
    destruct (@holding_period_ok num zero add sub gt_zero nav_time_series
                purchase_price_arg keys_iso e [] nav_nonempty He)
      as (found & d & Hh & Hp & Hb & Hs); [discriminate|].
    cbn [pair_events pair_indices]. rewrite Ee. unfold period_detail.
    rewrite Hh. cbn [option_map snd bind ret].
    exists [d]. split; [reflexivity|].
    constructor; [|constructor].
    split; [exact Hp|]. split; [|exact Hs].
    exists e. split; [|exact Hb].
    cbn [fst]. rewrite <- (Nat.add_0_r i). rewrite HT. reflexivity.
  - cbn [forallb] in Hd. apply andb_prop in Hd. destruct Hd as [He Hd].
    apply andb_prop in Hd. destruct Hd as [Hsd Hd].
    destruct (@holding_period_ok num zero add sub gt_zero nav_time_series
                purchase_price_arg keys_iso e (s :: rest) nav_nonempty He)
      as (found & d & Hh & Hp & Hb & Hs);
      [intros ? ? [= <- <-]; exact Hsd|].
    rewrite Es in Hs. cbn [action_eqb] in Hs.
    destruct (IH Hd T (S (S i))) as (ds & Hds & Hf).
    { intros j. replace (S (S i) + j) with (i + S (S j)) by lia. apply HT. }
    cbn [pair_events pair_indices]. rewrite Ee, Es. cbn [action_eqb].
    unfold period_detail. rewrite Hh. cbn [option_map snd bind ret].
    rewrite Hds. cbn [bind ret].
    exists (d :: ds). split; [reflexivity|].
    constructor; [|exact Hf].
    split; [exact Hp|]. split.
    + exists e. split; [|exact Hb].
      cbn [fst]. rewrite <- (Nat.add_0_r i). rewrite HT. reflexivity.
    + cbn [snd]. exists s. split; [|exact Hs].
      rewrite <- (Nat.add_1_r i). rewrite HT. reflexivity.
  - pose proof Hd as Hd0.
    cbn [forallb] in Hd. apply andb_prop in Hd. destruct Hd as [He Hd].
    destruct (@holding_period_ok num zero add sub gt_zero nav_time_series
                purchase_price_arg keys_iso e (s :: rest) nav_nonempty He)
      as (found & d & Hh & Hp & Hb & Hs).
    { intros ? ? [= <- <-]. apply andb_prop in Hd. apply Hd. }
    rewrite Es in Hs. cbn [action_eqb] in Hs.
    destruct (IH Hd T (S i)) as (ds & Hds & Hf).
    { intros j. replace (S i + j) with (i + S j) by lia. apply HT. }
    replace (pair_indices i (e :: s :: rest))
      with ((i, @None nat) :: pair_indices (S i) (s :: rest))
      by (cbn [pair_indices]; rewrite Ee, Es; reflexivity).
    replace (pair_events_of (e :: s :: rest))
      with (d0 <- period_detail zero add sub gt_zero nav_time_series
                    purchase_price_arg (e :: s :: rest) ;;
            ds0 <- pair_events_of (s :: rest) ;; ret (d0 :: ds0))
      by (cbn [pair_events]; rewrite Ee, Es; reflexivity).
    unfold period_detail. rewrite Hh. cbn [option_map snd bind ret].
    rewrite Hds. cbn [bind ret].
    exists (d :: ds). split; [reflexivity|].
    constructor; [|exact Hf].
    split; [exact Hp|]. split; [|exact Hs].
    exists e. split; [|exact Hb].
    cbn [fst]. rewrite <- (Nat.add_0_r i). rewrite HT. reflexivity.
Qed.

End WalkOnWellFormed.

Lemma ascending_NoDup (l : list nat) : StronglySorted lt l -> NoDup l.
Proof.
  induction 1 as [|a l Hs IH Ha]; constructor; auto.
  rewrite Forall_forall in Ha. intros Hin. apply Ha in Hin. lia.
Qed.

Section EngineResult.
Import Analysis.
Variable num : Type.
Variable zero : num.
Variable add sub : num -> num -> num.
Variable gt_zero : num -> bool.

(** The result of the engine in terms of the walk over the events. *)
Lemma calculate_profit_and_prices_walk (asset_name : string)
    (transactions : list event) (nav_time_series : dict string num)
    (purchase_price_arg : option num) :
  calculate_profit_and_prices zero add sub gt_zero asset_name transactions
    nav_time_series purchase_price_arg =
  match nav_time_series with
  | [] =>
      Some (mkprofit_data asset_name zero []
              (Some "No NAV time series found"))
  | _ :: _ =>
      ds <- pair_events zero add sub gt_zero nav_time_series
              purchase_price_arg transactions ;;
      ret (mkprofit_data asset_name
             (fold_left add (map (@profit num) ds) zero) ds None)
  end.
Proof.
  unfold calculate_profit_and_prices.
  destruct nav_time_series as [|p nav]; [reflexivity|].
  rewrite while_loop_pair_events. cbn [skipn].
  destruct (pair_events _ _ _ _ _ _ _); reflexivity.
Qed.

End EngineResult.

Section EngineInvariance.
Import Analysis.
Variable num : Type.
Variable zero : num.
Variable add sub : num -> num -> num.
Variable gt_zero : num -> bool.
Variable nav_time_series : dict string num.

Local Abbreviation holding_period_with pp T :=
  (holding_period zero add sub gt_zero T nav_time_series pp).
Local Abbreviation pair_events_with pp :=
  (pair_events zero add sub gt_zero nav_time_series pp).

(** The body of the loop reads the event at its position and the next
    one, nothing further. *)
Lemma holding_period_two (pp : option num) (e s : event)
    (rest rest' : list event) :
  holding_period_with pp (e :: s :: rest) 0
  = holding_period_with pp (e :: s :: rest') 0.
Proof. reflexivity. Qed.

Lemma pair_events_open (pp : option num) (e s : event) (rest : list event) :
  ev_action e = bought -> ev_action s = bought ->
  pair_events_with pp (e :: s :: rest) =
  (d <- period_detail zero add sub gt_zero nav_time_series pp (e :: s :: rest) ;;
   ds <- pair_events_with pp (s :: rest) ;; ret (d :: ds)).
Proof. intros Ee Es. cbn [pair_events]. rewrite Ee, Es. reflexivity. Qed.

(** A [sold] that the walk meets is skipped: removing it changes
    nothing. *)
Lemma pair_events_skip_sold (pp : option num) (s : event)
    (rest : list event) :
  ev_action s = sold ->
  forall pre,
    (forall e, last_opt pre = Some e -> ev_action e = sold) ->
    pair_events_with pp (pre ++ s :: rest) = pair_events_with pp (pre ++ rest).
Proof.
  intros Hs pre.
  induction pre as [|e pre Ee IH|e Ee|e s' pre Ee Es IH|e s' pre Ee Es IH]
    using pairing_ind; intros Hlast.
  - cbn [app pair_events]. rewrite Hs. reflexivity.
  - cbn [app pair_events]. rewrite Ee. apply IH.
    intros e' He'. apply Hlast. rewrite last_opt_cons, He'. reflexivity.
  - exfalso. specialize (Hlast e eq_refl). congruence.
  - assert (Hl : forall e', last_opt pre = Some e' -> ev_action e' = sold).
    { intros e' He'. apply Hlast. rewrite !last_opt_cons, He'. reflexivity. }
    specialize (IH Hl).
    cbn [app pair_events]. rewrite Ee, Es. cbn [action_eqb].
    unfold period_detail.
    rewrite (holding_period_two pp e s' (pre ++ s :: rest) (pre ++ rest)).
    rewrite IH. reflexivity.
  - assert (Hl : forall e', last_opt (s' :: pre) = Some e' -> ev_action e' = sold).
    { intros e' He'. apply Hlast. rewrite last_opt_cons, He'. reflexivity. }
    specialize (IH Hl).
    cbn [app] in IH |- *.
    rewrite !pair_events_open by assumption.
    unfold period_detail.
    rewrite (holding_period_two pp e s' (pre ++ s :: rest) (pre ++ rest)).
    rewrite IH. reflexivity.
Qed.

Lemma pair_events_only_sold (pp : option num) (events : list event) :
  Forall (fun e => ev_action e = sold) events ->
  pair_events_with pp events = Some [].
Proof.
  induction 1 as [|e rest He _ IH]; [reflexivity|].
  cbn [pair_events]. rewrite He. exact IH.
Qed.

(** The override of the purchase price changes prices only. *)
Lemma holding_period_override (pp pp' : option num) (T : list event) (i : nat) :
  match holding_period_with pp T i, holding_period_with pp' T i with
  | Some (found, d), Some (found', d') => found = found' /\ same_valuation d d'
  | None, None => True
  | _, _ => False
  end.
Proof.
  unfold holding_period.
  destruct (find_timestamp_key _ nav_time_series) as [buy_ts|]; [|exact I].
  cbn [bind].
  destruct ((i + 1 <? List.length T)%nat
            && action_eqb (ev_action (nth (i + 1) T no_event)) sold).
  - destruct (find_timestamp_key _ nav_time_series) as [sell_ts|]; [|exact I].
    cbn [bind ret]. repeat split.
  - destruct (last_opt _) as [last_ts|]; [|exact I]. cbn [bind].
    destruct (parse_timestamp last_ts); [|exact I]. cbn [bind].
    destruct (dict_get _ _ last_ts); [|exact I].
    cbn [bind ret]. repeat split.
Qed.

Lemma pair_events_override (pp pp' : option num) (events : list event) :
  match pair_events_with pp events, pair_events_with pp' events with
  | Some ds, Some ds' => Forall2 same_valuation ds ds'
  | None, None => True
  | _, _ => False
  end.
Proof.
  induction events as [|e rest Ee IH|e Ee|e s rest Ee Es IH|e s rest Ee Es IH]
    using pairing_ind.
  - constructor.
  - cbn [pair_events]. rewrite Ee. exact IH.
  - cbn [pair_events]. rewrite Ee. unfold period_detail.
    pose proof (holding_period_override pp pp' [e] 0) as H.
    destruct (holding_period_with pp [e] 0) as [[f d]|],
      (holding_period_with pp' [e] 0) as [[f' d']|]; try contradiction;
      cbn [option_map snd bind ret]; auto.
    constructor; [apply H|constructor].
  - cbn [pair_events]. rewrite Ee, Es. cbn [action_eqb]. unfold period_detail.
    pose proof (holding_period_override pp pp' (e :: s :: rest) 0) as H.
    destruct (holding_period_with pp (e :: s :: rest) 0) as [[f d]|],
      (holding_period_with pp' (e :: s :: rest) 0) as [[f' d']|];
      try contradiction; cbn [option_map snd bind ret]; auto.
    destruct (pair_events_with pp rest), (pair_events_with pp' rest);
      try contradiction; cbn [bind ret]; auto.
    constructor; [apply H|exact IH].
  - replace (pair_events_with pp (e :: s :: rest))
      with (d0 <- period_detail zero add sub gt_zero nav_time_series
                    pp (e :: s :: rest) ;;
            ds0 <- pair_events_with pp (s :: rest) ;; ret (d0 :: ds0))
      by (cbn [pair_events]; rewrite Ee, Es; reflexivity).
    replace (pair_events_with pp' (e :: s :: rest))
      with (d0 <- period_detail zero add sub gt_zero nav_time_series
                    pp' (e :: s :: rest) ;;
            ds0 <- pair_events_with pp' (s :: rest) ;; ret (d0 :: ds0))
      by (cbn [pair_events]; rewrite Ee, Es; reflexivity).
    unfold period_detail.
    pose proof (holding_period_override pp pp' (e :: s :: rest) 0) as H.
    destruct (holding_period_with pp (e :: s :: rest) 0) as [[f d]|],
      (holding_period_with pp' (e :: s :: rest) 0) as [[f' d']|];
      try contradiction; cbn [option_map snd bind ret]; auto.
    destruct (pair_events_with pp (s :: rest)),
      (pair_events_with pp' (s :: rest));
      try contradiction; cbn [bind ret]; auto.
    constructor; [apply H|exact IH].
Qed.

Lemma same_valuation_profits (ds ds' : list (detail num)) :
  Forall2 same_valuation ds ds' ->
  map (@profit num) ds = map (@profit num) ds'.
Proof.
  induction 1 as [|d d' ds ds' H _ IH]; [reflexivity|].
  cbn [map]. rewrite IH. f_equal. apply H.
Qed.

(** Whatever the walk returns is priced from its reference values. *)
Lemma holding_period_priced (pp : option num) (T : list event) (i : nat)
    (found : bool) (d : detail num) :
  holding_period_with pp T i = Some (found, d) ->
  priced add sub gt_zero pp d
  /\ reference_value zero nav_time_series (buy_date d) = Some (buy_nav d).
Proof.
  unfold holding_period, reference_value.
  destruct (find_timestamp_key _ nav_time_series) as [buy_ts|] eqn:Eb;
    [|discriminate].
  cbn [bind].
  destruct ((i + 1 <? List.length T)%nat
            && action_eqb (ev_action (nth (i + 1) T no_event)) sold).
  - destruct (find_timestamp_key (ev_date (nth (i + 1) T no_event)) _)
      as [sell_ts|]; [|discriminate].
    cbn [bind ret]. intros [= _ <-].
    unfold priced. cbn [profit purchase_price selling_price buy_nav sell_nav
                         buy_date].
    rewrite Eb. repeat split.
  - destruct (last_opt _) as [last_ts|]; [|discriminate]. cbn [bind].
    destruct (parse_timestamp last_ts); [|discriminate]. cbn [bind].
    destruct (dict_get _ _ last_ts); [|discriminate].
    cbn [bind ret]. intros [= _ <-].
    unfold priced. cbn [profit purchase_price selling_price buy_nav sell_nav
                         buy_date].
    rewrite Eb. repeat split.
Qed.

Lemma pair_events_priced (pp : option num) (events : list event) :
  forall ds,
    pair_events_with pp events = Some ds ->
    Forall (fun d =>
              priced add sub gt_zero pp d
              /\ reference_value zero nav_time_series (buy_date d)
                 = Some (buy_nav d)) ds.
Proof.
  induction events as [|e rest Ee IH|e Ee|e s rest Ee Es IH|e s rest Ee Es IH]
    using pairing_ind; intros ds.
  - intros [= <-]. constructor.
  - cbn [pair_events]. rewrite Ee. apply IH.
  - cbn [pair_events]. rewrite Ee. unfold period_detail.
    destruct (holding_period_with pp [e] 0) as [[f d]|] eqn:Eh; [|discriminate].
    cbn [option_map snd bind ret]. intros [= <-].
    constructor; [|constructor]. eapply holding_period_priced, Eh.
  - cbn [pair_events]. rewrite Ee, Es. cbn [action_eqb]. unfold period_detail.
    destruct (holding_period_with pp (e :: s :: rest) 0) as [[f d]|] eqn:Eh;
      [|discriminate].
    cbn [option_map snd bind ret].
    destruct (pair_events_with pp rest) as [ds'|]; [|discriminate].
    cbn [bind ret]. intros [= <-].
    constructor; [|apply IH; reflexivity]. eapply holding_period_priced, Eh.
  - replace (pair_events_with pp (e :: s :: rest))
      with (d0 <- period_detail zero add sub gt_zero nav_time_series
                    pp (e :: s :: rest) ;;
            ds0 <- pair_events_with pp (s :: rest) ;; ret (d0 :: ds0))
      by (cbn [pair_events]; rewrite Ee, Es; reflexivity).
    unfold period_detail.
    destruct (holding_period_with pp (e :: s :: rest) 0) as [[f d]|] eqn:Eh;
      [|discriminate].
    cbn [option_map snd bind ret].
    destruct (pair_events_with pp (s :: rest)) as [ds'|]; [|discriminate].
    cbn [bind ret]. intros [= <-].
    constructor; [|apply IH; reflexivity]. eapply holding_period_priced, Eh.
Qed.

End EngineInvariance.

(** The details carry the dates of the [bought] events, in order. *)

Section BuyDates.
Import Analysis.
Variable num : Type.
Variable zero : num.
Variable add sub : num -> num -> num.
Variable gt_zero : num -> bool.
Variable nav_time_series : dict string num.
Variable purchase_price_arg : option num.

Lemma holding_period_buy_date (T : list event) (i : nat) (found : bool)
    (d : detail num) :
  holding_period zero add sub gt_zero T nav_time_series purchase_price_arg i
  = Some (found, d) ->
  buy_date d = ev_date (nth i T no_event).
Proof.
  unfold holding_period.
  destruct (find_timestamp_key _ nav_time_series) as [buy_ts|];
    [|discriminate].
  cbn [bind].
  destruct ((i + 1 <? List.length T)%nat
            && action_eqb (ev_action (nth (i + 1) T no_event)) sold).
  - destruct (find_timestamp_key (ev_date (nth (i + 1) T no_event)) _)
      as [sell_ts|]; [|discriminate].
    cbn [bind ret]. intros [= _ <-]. reflexivity.
  - destruct (last_opt _) as [last_ts|]; [|discriminate]. cbn [bind].
    destruct (parse_timestamp last_ts); [|discriminate]. cbn [bind].
    destruct (dict_get _ _ last_ts); [|discriminate].
    cbn [bind ret]. intros [= _ <-]. reflexivity.
Qed.

Lemma period_detail_buy_date (e : event) (rest : list event)
    (d : detail num) :
  period_detail zero add sub gt_zero nav_time_series purchase_price_arg
    (e :: rest) = Some d ->
  buy_date d = ev_date e.
Proof.
  unfold period_detail.
  destruct (holding_period _ _ _ _ _ _ _ _) as [[found d']|] eqn:E;
    [|discriminate].
  cbn [option_map snd]. intros [= <-].
  exact (holding_period_buy_date _ _ E).
Qed.

Lemma pair_events_buy_dates (events : list event) :
  forall ds,
    pair_events zero add sub gt_zero nav_time_series purchase_price_arg events
    = Some ds ->
    map (@buy_date num) ds = map ev_date (filter is_bought events).
Proof.
  induction events as [|e rest Ee IH|e Ee|e s rest Ee Es IH|e s rest Ee Es IH]
    using pairing_ind; intros ds H.
  - injection H as <-. reflexivity.
  - cbn [pair_events] in H. rewrite Ee in H.
    cbn [filter]. unfold is_bought at 1. rewrite Ee. cbn [action_eqb].
    apply IH, H.
  - cbn [pair_events] in H. rewrite Ee in H.
    destruct (period_detail _ _ _ _ _ _ [e]) as [d|] eqn:Ed; [|discriminate].
    cbn [bind ret] in H. injection H as <-.
    cbn [filter map]. unfold is_bought. rewrite Ee. cbn [action_eqb map].
    rewrite (@period_detail_buy_date _ _ _ Ed). reflexivity.
  - cbn [pair_events] in H. rewrite Ee, Es in H. cbn [action_eqb] in H.
    destruct (period_detail _ _ _ _ _ _ (e :: s :: rest)) as [d|] eqn:Ed;
      [|discriminate].
    cbn [bind] in H.
    destruct (pair_events _ _ _ _ _ _ rest) as [ds'|]; [|discriminate].
    cbn [bind ret] in H. injection H as <-.
    cbn [filter]. unfold is_bought at 1 2. rewrite Ee, Es.
    cbn [action_eqb map].
    rewrite (@period_detail_buy_date _ _ _ Ed), (IH ds' eq_refl). reflexivity.
  - rewrite pair_events_open in H by assumption.
    destruct (period_detail _ _ _ _ _ _ (e :: s :: rest)) as [d|] eqn:Ed;
      [|discriminate].
    cbn [bind] in H.
    destruct (pair_events _ _ _ _ _ _ (s :: rest)) as [ds'|]; [|discriminate].
    cbn [bind ret] in H. injection H as <-.
    change (filter is_bought (e :: s :: rest))
      with (if is_bought e then e :: filter is_bought (s :: rest)
            else filter is_bought (s :: rest)).
    unfold is_bought at 1. rewrite Ee. cbn [action_eqb map].
    rewrite (@period_detail_buy_date _ _ _ Ed), (IH ds' eq_refl). reflexivity.
Qed.

End BuyDates.


(** ** The valuation engine: the pairing rule, the lookup, the prices *)

(** C2.  On a non-empty NAV series (with ISO-8601 keys, and events whose
    dates are dates) the engine returns one detail record per pair, in
    order, where the pairs are: every [bought] event, with the [sold] event
    that immediately follows it when there is one, and otherwise with a
    synthetic sell at the last available NAV date, valued at the NAV of
    that date.  The positions used by the pairs go strictly upwards, so no
    event is used in two pairs. *)
Theorem bought_pairs_with_next_sold_or_last_nav :
  forall (num : Type) (zero : num) (add sub : num -> num -> num)
         (gt_zero : num -> bool) (asset_name : string)
         (transactions : list event) (nav_time_series : dict string num)
         (purchase_price : option num),
    well_formed_inputs transactions nav_time_series = true ->
    nav_time_series <> [] ->
    exists r,
      Analysis.calculate_profit_and_prices zero add sub gt_zero asset_name
        transactions nav_time_series purchase_price = Some r
      /\ Forall2
           (detail_of_pair zero add sub gt_zero nav_time_series purchase_price
              transactions)
           (pair_indices 0 transactions) (Analysis.transactions_detail r)
      /\ (forall b os,
            In (b, os) (pair_indices 0 transactions) <->
            exists e,
              nth_error transactions b = Some e /\ ev_action e = bought
              /\ os = match nth_error transactions (S b) with
                      | Some s =>
                          if action_eqb (ev_action s) sold
                          then Some (S b) else None
                      | None => None
                      end)
      /\ StronglySorted lt (used_indices (pair_indices 0 transactions))
      /\ NoDup (used_indices (pair_indices 0 transactions)).
Proof.
  intros num zero add sub gt_zero asset_name transactions nav pp Hwf Hne.
  unfold well_formed_inputs in Hwf. apply andb_prop in Hwf.
  destruct Hwf as [Hiso Hdates].
  destruct (@pair_events_ok num zero add sub gt_zero nav pp Hiso Hne
              transactions Hdates transactions 0 (fun j => eq_refl))
    as (ds & Hds & Hf).
  rewrite calculate_profit_and_prices_walk.
  destruct nav as [|p nav]; [congruence|].
  rewrite Hds. cbn [bind ret].
  eexists. split; [reflexivity|]. cbn [Analysis.transactions_detail].
  split; [exact Hf|]. split.
  - intros b os. rewrite pair_indices_In. rewrite Nat.sub_0_r. split.
    + intros [_ H]. exact H.
    + intros H. split; [lia|exact H].
  - destruct (used_indices_ascending transactions 0) as [Hs _].
    split; [exact Hs|apply ascending_NoDup, Hs].
Qed.

Lemma bought_pairs_with_next_sold_or_last_nav_witness :
  exists r,
    Analysis.calculate_profit_and_prices 0%Z Z.add Z.sub positive "Fund A"
      sample_events sample_nav (Some 100%Z) = Some r
    /\ Forall2
         (detail_of_pair 0%Z Z.add Z.sub positive sample_nav (Some 100%Z)
            sample_events)
         (pair_indices 0 sample_events) (Analysis.transactions_detail r)
    /\ (forall b os,
          In (b, os) (pair_indices 0 sample_events) <->
          exists e,
            nth_error sample_events b = Some e /\ ev_action e = bought
            /\ os = match nth_error sample_events (S b) with
                    | Some s =>
                        if action_eqb (ev_action s) sold
                        then Some (S b) else None
                    | None => None
                    end)
    /\ StronglySorted lt (used_indices (pair_indices 0 sample_events))
    /\ NoDup (used_indices (pair_indices 0 sample_events)).
Proof.
  apply (@bought_pairs_with_next_sold_or_last_nav Z 0%Z Z.add Z.sub positive
           "Fund A" sample_events sample_nav (Some 100%Z)).
  - vm_compute. reflexivity.
  - discriminate.
Defined.

(** The pairs of the sample events: positions 0 and 1 form a closed
    position, the [sold] at position 2 is in no pair, positions 3 and 4 are
    left open. *)
Example sample_pairs :
  pair_indices 0 sample_events = [(0, Some 1); (3, None); (4, None)].
Proof. reflexivity. Qed.

(** C4.  On a non-empty NAV series the engine returns one detail record
    for each pair (every [bought] event, with the [sold] event that follows
    it or with the last NAV date), in order, and every detail record is
    priced in the same way: its purchase price is the override when there is
    one and it is strictly positive, and the buy-date NAV reference value
    otherwise; its profit is the sell reference value minus the buy
    reference value; its selling price is the purchase price plus the
    profit; the total profit is the sum of the profits, in order.  The
    reference values and the profits do not depend on the override.  On an
    empty NAV series no pair is valued. *)
Theorem prices_and_profit_of_details :
  forall (num : Type) (zero : num) (add sub : num -> num -> num)
         (gt_zero : num -> bool) (asset_name : string)
         (transactions : list event) (nav_time_series : dict string num)
         (purchase_price : option num),
    well_formed_inputs transactions nav_time_series = true ->
    exists r,
      Analysis.calculate_profit_and_prices zero add sub gt_zero asset_name
        transactions nav_time_series purchase_price = Some r
      /\ (nav_time_series <> [] ->
          Forall2
            (detail_of_pair zero add sub gt_zero nav_time_series purchase_price
               transactions)
            (pair_indices 0 transactions) (Analysis.transactions_detail r)
          /\ map (@Analysis.buy_date num) (Analysis.transactions_detail r)
             = map ev_date (filter is_bought transactions))
      /\ (nav_time_series = [] -> Analysis.transactions_detail r = [])
      /\ Forall
           (fun d =>
              Analysis.purchase_price d =
                match purchase_price with
                | Some p => if gt_zero p then p else Analysis.buy_nav d
                | None => Analysis.buy_nav d
                end
              /\ reference_value zero nav_time_series (Analysis.buy_date d)
                 = Some (Analysis.buy_nav d)
              /\ Analysis.profit d
                 = sub (Analysis.sell_nav d) (Analysis.buy_nav d)
              /\ Analysis.selling_price d
                 = add (Analysis.purchase_price d) (Analysis.profit d))
           (Analysis.transactions_detail r)
      /\ Analysis.total_profit r
         = fold_left add
             (map (@Analysis.profit num) (Analysis.transactions_detail r)) zero
      /\ forall other_price,
           exists r',
             Analysis.calculate_profit_and_prices zero add sub gt_zero
               asset_name transactions nav_time_series other_price = Some r'
             /\ Forall2 same_valuation (Analysis.transactions_detail r)
                  (Analysis.transactions_detail r')
             /\ Analysis.total_profit r' = Analysis.total_profit r.
Proof.
  intros num zero add sub gt_zero asset_name transactions nav pp Hwf.
  unfold well_formed_inputs in Hwf. apply andb_prop in Hwf.
  destruct Hwf as [Hiso Hdates].
  destruct nav as [|p nav].
  - eexists. split; [reflexivity|]. cbn.
    split; [congruence|]. split; [reflexivity|].
    split; [constructor|]. split; [reflexivity|].
    intros other. eexists. split; [reflexivity|]. split; [constructor|reflexivity].
  - assert (Hne : p :: nav <> []) by discriminate.
    destruct (@pair_events_ok num zero add sub gt_zero (p :: nav) pp Hiso Hne
                transactions Hdates transactions 0 (fun j => eq_refl))
      as (ds & Hds & Hpairs).
    rewrite calculate_profit_and_prices_walk, Hds. cbn [bind ret].
    eexists. split; [reflexivity|].
    cbn [Analysis.transactions_detail Analysis.total_profit].
    split.
    { intros _. split; [exact Hpairs|].
      exact (pair_events_buy_dates _ _ _ _ _ _ _ Hds). }
    split; [discriminate|].
    split.
    + pose proof (pair_events_priced zero add sub gt_zero (p :: nav) pp
                    transactions Hds) as Hp.
      eapply Forall_impl; [|exact Hp].
      intros d [(H1 & H2 & H3) H4]. auto.
    + split; [reflexivity|].
      intros other. rewrite calculate_profit_and_prices_walk.
      pose proof (pair_events_override zero add sub gt_zero (p :: nav) pp other
                    transactions) as Ho.
      rewrite Hds in Ho.
      destruct (pair_events zero add sub gt_zero (p :: nav) other transactions)
        as [ds'|]; [|contradiction].
      cbn [bind ret]. eexists. split; [reflexivity|].
      cbn [Analysis.transactions_detail Analysis.total_profit].
      split; [exact Ho|].
      rewrite (same_valuation_profits Ho). reflexivity.
Qed.

Lemma prices_and_profit_of_details_witness :
  exists r,
    Analysis.calculate_profit_and_prices 0%Z Z.add Z.sub positive "Fund A"
      sample_events sample_nav (Some 100%Z) = Some r
    /\ (sample_nav <> [] ->
        Forall2
          (detail_of_pair 0%Z Z.add Z.sub positive sample_nav (Some 100%Z)
             sample_events)
          (pair_indices 0 sample_events) (Analysis.transactions_detail r)
        /\ map (@Analysis.buy_date Z) (Analysis.transactions_detail r)
           = map ev_date (filter is_bought sample_events))
    /\ (sample_nav = [] -> Analysis.transactions_detail r = [])
    /\ Forall
         (fun d =>
            Analysis.purchase_price d =
              match Some 100%Z with
              | Some p => if positive p then p else Analysis.buy_nav d
              | None => Analysis.buy_nav d
              end
            /\ reference_value 0%Z sample_nav (Analysis.buy_date d)
               = Some (Analysis.buy_nav d)
            /\ Analysis.profit d
               = Z.sub (Analysis.sell_nav d) (Analysis.buy_nav d)
            /\ Analysis.selling_price d
               = Z.add (Analysis.purchase_price d) (Analysis.profit d))
         (Analysis.transactions_detail r)
    /\ Analysis.total_profit r
       = fold_left Z.add
           (map (@Analysis.profit Z) (Analysis.transactions_detail r)) 0%Z
    /\ forall other_price,
         exists r',
           Analysis.calculate_profit_and_prices 0%Z Z.add Z.sub positive
             "Fund A" sample_events sample_nav other_price = Some r'
           /\ Forall2 same_valuation (Analysis.transactions_detail r)
                (Analysis.transactions_detail r')
           /\ Analysis.total_profit r' = Analysis.total_profit r.
Proof.
  apply (@prices_and_profit_of_details Z 0%Z Z.add Z.sub positive "Fund A"
           sample_events sample_nav (Some 100%Z)).
  vm_compute. reflexivity.
Defined.

(** The engine on the sample inputs, with an override of 100 and with an
    override of 0, which is ignored. *)
Example sample_valuation :
  Analysis.calculate_profit_and_prices 0%Z Z.add Z.sub positive "Fund A"
    sample_events sample_nav (Some 100%Z)
  = Some (Analysis.mkprofit_data "Fund A" 55%Z
            [Analysis.mkdetail "2025-01-01" "2025-01-06" 100%Z 105%Z 10%Z 15%Z 5%Z;
             Analysis.mkdetail "2024-06-01" "2025-01-10" 100%Z 130%Z 0%Z 30%Z 30%Z;
             Analysis.mkdetail "2025-01-02" "2025-01-10" 100%Z 120%Z 10%Z 30%Z 20%Z]
            None).
Proof. reflexivity. Qed.

Example sample_valuation_zero_override :
  Analysis.calculate_profit_and_prices 0%Z Z.add Z.sub positive "Fund A"
    sample_events sample_nav (Some 0%Z)
  = Some (Analysis.mkprofit_data "Fund A" 55%Z
            [Analysis.mkdetail "2025-01-01" "2025-01-06" 10%Z 15%Z 10%Z 15%Z 5%Z;
             Analysis.mkdetail "2024-06-01" "2025-01-10" 0%Z 30%Z 0%Z 30%Z 30%Z;
             Analysis.mkdetail "2025-01-02" "2025-01-10" 10%Z 30%Z 10%Z 30%Z 20%Z]
            None).
Proof. reflexivity. Qed.

(** C10.  A [sold] event that is not immediately preceded by a [bought]
    event (which would be unpaired when the walk reaches it) is skipped:
    the engine returns what it returns without that event, so the event
    produces no detail record and adds nothing to the total profit.  On a
    list of [sold] events only, the engine returns a total profit of zero
    and no detail record, and does not raise. *)
Theorem stray_sold_is_skipped :
  forall (num : Type) (zero : num) (add sub : num -> num -> num)
         (gt_zero : num -> bool) (asset_name : string)
         (nav_time_series : dict string num) (purchase_price : option num),
    (forall (pre : list event) (s : event) (rest : list event),
        ev_action s = sold ->
        (forall e, last_opt pre = Some e -> ev_action e = sold) ->
        Analysis.calculate_profit_and_prices zero add sub gt_zero asset_name
          (pre ++ s :: rest) nav_time_series purchase_price
        = Analysis.calculate_profit_and_prices zero add sub gt_zero asset_name
            (pre ++ rest) nav_time_series purchase_price)
    /\ (forall transactions : list event,
          Forall (fun e => ev_action e = sold) transactions ->
          exists r,
            Analysis.calculate_profit_and_prices zero add sub gt_zero
              asset_name transactions nav_time_series purchase_price = Some r
            /\ Analysis.total_profit r = zero
            /\ Analysis.transactions_detail r = []).
Proof.
  intros num zero add sub gt_zero asset_name nav pp. split.
  - intros pre s rest Hs Hlast.
    rewrite !calculate_profit_and_prices_walk.
    destruct nav as [|p nav]; [reflexivity|].
    rewrite (@pair_events_skip_sold num zero add sub gt_zero (p :: nav) pp s
               rest Hs pre Hlast).
    reflexivity.
  - intros transactions Hall.
    rewrite calculate_profit_and_prices_walk.
    destruct nav as [|p nav].
    + eexists. split; [reflexivity|]. split; reflexivity.
    + rewrite (@pair_events_only_sold num zero add sub gt_zero (p :: nav) pp
                 transactions Hall).
      eexists. split; [reflexivity|]. split; reflexivity.
Qed.

Lemma stray_sold_is_skipped_witness :
  Analysis.calculate_profit_and_prices 0%Z Z.add Z.sub positive "Fund A"
    ([mkevent bought "2025-01-01"; mkevent sold "2025-01-06"]
       ++ mkevent sold "2025-01-07"
       :: [mkevent bought "2024-06-01"; mkevent bought "2025-01-02"])
    sample_nav None
  = Analysis.calculate_profit_and_prices 0%Z Z.add Z.sub positive "Fund A"
      ([mkevent bought "2025-01-01"; mkevent sold "2025-01-06"]
         ++ [mkevent bought "2024-06-01"; mkevent bought "2025-01-02"])
      sample_nav None
  /\ exists r,
       Analysis.calculate_profit_and_prices 0%Z Z.add Z.sub positive "Fund A"
         [mkevent sold "2025-01-06"; mkevent sold "not a date"]
         sample_nav None = Some r
       /\ Analysis.total_profit r = 0%Z
       /\ Analysis.transactions_detail r = [].
Proof.
  destruct (@stray_sold_is_skipped Z 0%Z Z.add Z.sub positive "Fund A"
              sample_nav None) as [Hskip Hsold].
  split.
  - apply Hskip.
    + reflexivity.
    + intros e. vm_compute. intros [= <-]. reflexivity.
  - apply Hsold. repeat constructor.
Defined.

(** C3.  On a series with ISO-8601 keys, the lookup of a date returns the
    value at a key of that date when there is one; otherwise the value at
    the latest key strictly before the date; and when every key is after
    the date it finds no key, which the valuation engine turns into a
    reference value of zero: the detail record of a [bought] event at such
    a date is built, with a buy reference of zero, and nothing is raised. *)
Theorem nearest_past_date_lookup :
  forall (num : Type) (zero : num) (nav_time_series : dict string num)
         (date_str : string) (target : date),
    forallb iso_dated (dict_keys nav_time_series) = true ->
    strptime_ymd date_str = Some target ->
    ((exists k, In k (dict_keys nav_time_series) /\ date_of_key k = target) ->
     exists k v,
       Analysis.find_timestamp_key date_str nav_time_series = Some (Some k)
       /\ In k (dict_keys nav_time_series)
       /\ date_of_key k = target
       /\ dict_get String.eqb nav_time_series k = Some v
       /\ reference_value zero nav_time_series date_str = Some v)
    /\ ((forall k, In k (dict_keys nav_time_series) -> date_of_key k <> target) ->
        (exists k, In k (dict_keys nav_time_series)
                   /\ date_ltb (date_of_key k) target = true) ->
        exists k v,
          Analysis.find_timestamp_key date_str nav_time_series = Some (Some k)
          /\ In k (dict_keys nav_time_series)
          /\ date_ltb (date_of_key k) target = true
          /\ (forall k', In k' (dict_keys nav_time_series) ->
                         date_ltb (date_of_key k') target = true ->
                         String.leb k' k = true
                         /\ date_leb (date_of_key k') (date_of_key k) = true)
          /\ dict_get String.eqb nav_time_series k = Some v
          /\ reference_value zero nav_time_series date_str = Some v)
    /\ ((forall k, In k (dict_keys nav_time_series) ->
                   date_ltb target (date_of_key k) = true) ->
        Analysis.find_timestamp_key date_str nav_time_series = Some None
        /\ reference_value zero nav_time_series date_str = Some zero
        /\ forall (add sub : num -> num -> num) (gt_zero : num -> bool)
                  (purchase_price : option num) (transactions : list event)
                  (i : nat) (e : event),
             nav_time_series <> [] ->
             nth_error transactions i = Some e ->
             ev_date e = date_str ->
             (forall s, nth_error transactions (S i) = Some s ->
                        is_date_text (ev_date s) = true) ->
             exists found d,
               Analysis.holding_period zero add sub gt_zero transactions
                 nav_time_series purchase_price i = Some (found, d)
               /\ Analysis.buy_nav d = zero
               /\ Analysis.profit d = sub (Analysis.sell_nav d) zero).
Proof.
  intros num zero nav date_str target Hiso Ht.
  pose proof (find_timestamp_key_selected nav Hiso date_str Ht) as Hfind.
  assert (Hval : forall k,
             In k (dict_keys nav) ->
             exists v, dict_get String.eqb nav k = Some v
                       /\ Analysis.nav_or_zero zero nav (Some k) = v).
  { intros k Hin. destruct (dict_get_In _ _ Hin) as [v Hv].
    exists v. split; [exact Hv|]. unfold Analysis.nav_or_zero.
    rewrite forallb_forall in Hiso.
    rewrite (iso_dated_truthy _ (Hiso _ Hin)), Hv. reflexivity. }
  split; [|split].
  - intros Hex.
    destruct (selected_exact nav Hex) as (k & Hsel & Hin & Hd).
    destruct (Hval _ Hin) as (v & Hv & Hz).
    exists k, v. unfold reference_value. rewrite Hfind, Hsel.
    cbn [bind ret]. rewrite Hz. auto.
  - intros Hne Hex.
    destruct (selected_past nav Hiso Hne Hex)
      as (k & Hsel & Hin & Hlt & Hmax).
    destruct (Hval _ Hin) as (v & Hv & Hz).
    exists k, v. unfold reference_value. rewrite Hfind, Hsel.
    cbn [bind ret]. rewrite Hz.
    split; [reflexivity|]. split; [exact Hin|]. split; [exact Hlt|].
    split; [exact Hmax|]. split; [exact Hv|reflexivity].
  - intros Hall.
    pose proof (selected_none nav target Hall) as Hsel.
    assert (Href : reference_value zero nav date_str = Some zero).
    { unfold reference_value. rewrite Hfind, Hsel. reflexivity. }
    split; [rewrite Hfind, Hsel; reflexivity|]. split; [exact Href|].
    intros add sub gt_zero pp T i e Hnav He Hd Hnext.
    assert (Hi : i < List.length T) by (apply nth_error_Some; congruence).
    rewrite holding_period_skipn.
    rewrite (skipn_nth_cons T e Hi).
    rewrite (nth_error_nth _ _ e He).
    destruct (@holding_period_ok num zero add sub gt_zero nav pp Hiso e
                (skipn (S i) T) Hnav) as (found & d & Hh & Hp & Hb & _).
    + unfold is_date_text. rewrite Hd, Ht. reflexivity.
    + intros s rest' Hs. apply Hnext.
      rewrite <- hd_error_skipn, Hs. reflexivity.
    + exists found, d. split; [exact Hh|].
      destruct Hb as [_ Hb]. rewrite Hd, Href in Hb. injection Hb as Hb.
      split; [auto|]. destruct Hp as [Hp _]. rewrite Hp, <- Hb. reflexivity.
Qed.

Lemma nearest_past_date_lookup_witness :
  (exists k v,
      Analysis.find_timestamp_key "2025-01-05" sample_nav = Some (Some k)
      /\ In k (dict_keys sample_nav)
      /\ date_of_key k = mkdate 2025 1 5
      /\ dict_get String.eqb sample_nav k = Some v
      /\ reference_value 0%Z sample_nav "2025-01-05" = Some v)
  /\ (exists k v,
         Analysis.find_timestamp_key "2025-01-07" sample_nav = Some (Some k)
         /\ In k (dict_keys sample_nav)
         /\ date_ltb (date_of_key k) (mkdate 2025 1 7) = true
         /\ (forall k', In k' (dict_keys sample_nav) ->
                        date_ltb (date_of_key k') (mkdate 2025 1 7) = true ->
                        String.leb k' k = true
                        /\ date_leb (date_of_key k') (date_of_key k) = true)
         /\ dict_get String.eqb sample_nav k = Some v
         /\ reference_value 0%Z sample_nav "2025-01-07" = Some v)
  /\ (Analysis.find_timestamp_key "2024-06-01" sample_nav = Some None
      /\ reference_value 0%Z sample_nav "2024-06-01" = Some 0%Z
      /\ exists found d,
           Analysis.holding_period 0%Z Z.add Z.sub positive sample_events
             sample_nav None 3 = Some (found, d)
           /\ Analysis.buy_nav d = 0%Z
           /\ Analysis.profit d = Z.sub (Analysis.sell_nav d) 0%Z).
Proof.
  split; [|split].
  - apply (@nearest_past_date_lookup Z 0%Z sample_nav "2025-01-05"
             (mkdate 2025 1 5) eq_refl eq_refl).
    exists "2025-01-05T00:00:00". split; [left; reflexivity|reflexivity].
  - apply (@nearest_past_date_lookup Z 0%Z sample_nav "2025-01-07"
             (mkdate 2025 1 7) eq_refl eq_refl).
    + intros k [<-|[<-|[<-|[]]]]; vm_compute; discriminate.
    + exists "2025-01-01T00:00:00".
      split; [right; left; reflexivity|reflexivity].
  - destruct (@nearest_past_date_lookup Z 0%Z sample_nav "2024-06-01"
                (mkdate 2024 6 1) eq_refl eq_refl) as (_ & _ & Hnone).
    destruct Hnone as (Hf & Hr & Hengine).
    + intros k [<-|[<-|[<-|[]]]]; reflexivity.
    + split; [exact Hf|]. split; [exact Hr|].
      apply (Hengine Z.add Z.sub positive None sample_events 3
               (mkevent bought "2024-06-01")).
      * discriminate.
      * reflexivity.
      * reflexivity.
      * intros s [= <-]. reflexivity.
Defined.

(** The three cases of the lookup on the sample series. *)
Example lookup_exact :
  reference_value 0%Z sample_nav "2025-01-05" = Some 15%Z.
Proof. reflexivity. Qed.

Example lookup_latest_before :
  reference_value 0%Z sample_nav "2025-01-07" = Some 15%Z.
Proof. reflexivity. Qed.

Example lookup_before_all_keys :
  Analysis.find_timestamp_key "2024-06-01" sample_nav = Some None
  /\ reference_value 0%Z sample_nav "2024-06-01" = Some 0%Z.
Proof. split; reflexivity. Qed.

(** ** The walk over the report tree *)

(** Induction on a line, with the property supposed of the lines below. *)
Lemma node_forall_ind (P : node -> Prop) :
  (forall name values subLines,
      Forall P subLines -> P (Node name values subLines)) ->
  forall line, P line.
Proof.
  intros step. fix IH 1. intros [name values subLines]. apply step.
  induction subLines as [|l rest IHrest]; constructor.
  - apply IH.
  - exact IHrest.
Qed.

Section WalkFacts.
Variable S : Type.
Variable visit : node -> S -> S.

Lemma walk_line_unfold (name : option string) (values : list json)
    (subLines : list node) (st : S) :
  walk_line visit (Node name values subLines) st
  = walk_lines visit subLines (visit (Node name values subLines) st).
Proof.
  cbn [walk_line]. unfold walk_lines.
  generalize (visit (Node name values subLines) st).
  induction subLines as [|l rest IH]; intros st'; [reflexivity|].
  cbn [fold_left]. apply IH.
Qed.

Lemma preorder_line_unfold (name : option string) (values : list json)
    (subLines : list node) :
  preorder_line (Node name values subLines)
  = Node name values subLines :: preorder subLines.
Proof.
  reflexivity.
Qed.

Lemma depth_line_unfold (name : option string) (values : list json)
    (subLines : list node) :
  depth_line (Node name values subLines) = Datatypes.S (depth subLines).
Proof.
  reflexivity.
Qed.

(** The walk treats every line of the report once, in pre-order. *)
Lemma walk_line_preorder (line : node) :
  forall st,
    walk_line visit line st
    = fold_left (fun st l => visit l st) (preorder_line line) st.
Proof.
  induction line as [name values subLines IH] using node_forall_ind.
  intros st. rewrite walk_line_unfold, preorder_line_unfold.
  cbn [fold_left]. generalize (visit (Node name values subLines) st).
  unfold walk_lines, preorder.
  induction IH as [|l rest Hl _ IHrest]; intros st'; [reflexivity|].
  cbn [fold_left flat_map]. rewrite fold_left_app, Hl. apply IHrest.
Qed.

Lemma walk_lines_preorder (lines : list node) :
  forall st,
    walk_lines visit lines st
    = fold_left (fun st l => visit l st) (preorder lines) st.
Proof.
  unfold walk_lines, preorder.
  induction lines as [|l rest IH]; intros st; [reflexivity|].
  cbn [fold_left flat_map]. rewrite fold_left_app, walk_line_preorder.
  apply IH.
Qed.

End WalkFacts.


(** ** The walk under the recursion limit *)

Section WalkWithinFacts.
Variable T : Type.
Variable visit : nat -> node -> exn T -> exn T.

Lemma walk_line_within_unfold (frames : nat) (name : option string)
    (values : list json) (subLines : list node) (st : exn T) :
  walk_line_within visit frames (Node name values subLines) st
  = match subLines with
    | [] => visit frames (Node name values subLines) st
    | _ :: _ =>
        walk_lines_within visit frames subLines
          (visit frames (Node name values subLines) st)
    end.
Proof.
  destruct subLines as [|s rest]; [reflexivity|].
  unfold walk_lines_within. destruct frames as [|frames']; [reflexivity|].
  cbn [walk_line_within fold_left].
  generalize (walk_line_within visit frames' s
                (visit (S frames') (Node name values (s :: rest)) st)).
  induction rest as [|l rest' IH]; intros st'; [reflexivity|].
  cbn [fold_left]. apply IH.
Qed.


Hypothesis visit_raised : forall f line, visit f line None = None.

(** Once an exception is raised nothing more is done. *)
Lemma walk_line_within_raised (line : node) :
  forall frames, walk_line_within visit frames line None = None.
Proof.
  induction line as [name values subLines IH] using node_forall_ind.
  intros frames. rewrite walk_line_within_unfold, visit_raised.
  destruct subLines as [|s rest]; [reflexivity|].
  unfold walk_lines_within. destruct frames as [|frames']; [reflexivity|].
  induction IH as [|l rest' Hl _ IHrest]; [reflexivity|].
  cbn [fold_left]. rewrite Hl. exact IHrest.
Qed.

Lemma fold_within_raised (frames : nat) (lines : list node) :
  fold_left (fun st line => walk_line_within visit frames line st) lines None
  = None.
Proof.
  induction lines as [|l rest IH]; [reflexivity|].
  cbn [fold_left]. rewrite walk_line_within_raised. exact IH.
Qed.

Lemma walk_lines_within_raised (frames : nat) (lines : list node) :
  walk_lines_within visit frames lines None = None.
Proof.
  destruct frames as [|frames']; [reflexivity|]. apply fold_within_raised.
Qed.





(** When the walk under the recursion limit returns, it returns what the
    walk without the limit returns. *)
Variable visit_all : node -> exn T -> exn T.
Hypothesis visit_returned :
  forall f line st x, visit f line st = Some x -> visit_all line st = Some x.

Lemma fold_within_returned (frames : nat) (lines : list node) :
  Forall (fun l => forall f st r,
              walk_line_within visit f l st = Some r ->
              walk_line visit_all l st = Some r) lines ->
  forall st r,
    fold_left (fun st line => walk_line_within visit frames line st) lines st
    = Some r ->
    walk_lines visit_all lines st = Some r.
Proof.
  unfold walk_lines.
  induction 1 as [|l rest Hl _ IH]; intros st r H; [exact H|].
  cbn [fold_left] in *.
  destruct (walk_line_within visit frames l st) as [y|] eqn:E.
  - rewrite (Hl _ _ _ E). apply IH. exact H.
  - rewrite fold_within_raised in H. discriminate.
Qed.

Lemma walk_line_within_returned (line : node) :
  forall frames st r,
    walk_line_within visit frames line st = Some r ->
    walk_line visit_all line st = Some r.
Proof.
  induction line as [name values subLines IH] using node_forall_ind.
  intros frames st r H.
  rewrite walk_line_within_unfold in H. rewrite walk_line_unfold.
  destruct (visit frames (Node name values subLines) st) as [x|] eqn:E.
  - rewrite (visit_returned E).
    destruct subLines as [|s rest]; [exact H|].
    unfold walk_lines_within in H.
    destruct frames as [|frames']; [discriminate|].
    eapply fold_within_returned; [exact IH|exact H].
  - destruct subLines as [|s rest]; [discriminate|].
    rewrite walk_lines_within_raised in H. discriminate.
Qed.

Lemma walk_lines_within_returned (frames : nat) (lines : list node)
    (st : exn T) (r : T) :
  walk_lines_within visit frames lines st = Some r ->
  walk_lines visit_all lines st = Some r.
Proof.
  unfold walk_lines_within. destruct frames as [|frames']; [discriminate|].
  apply fold_within_returned. apply Forall_forall. intros l _.
  apply walk_line_within_returned.
Qed.

(** With enough frames the walk under the recursion limit is the walk
    without it. *)
Variable bound : nat.
Hypothesis visit_enough :
  forall f line st, bound <= f -> visit f line st = visit_all line st.

Lemma depth_line_le (lines : list node) (l : node) :
  In l lines -> depth_line l <= depth lines.
Proof.
  unfold depth. induction lines as [|a rest IH]; intros H; [destruct H|].
  cbn [fold_right]. destruct H as [<-|H].
  - apply Nat.le_max_l.
  - etransitivity; [apply IH, H|apply Nat.le_max_r].
Qed.

Lemma fold_within_enough (f : nat) (lines : list node) :
  (forall l st, In l lines ->
                walk_line_within visit f l st = walk_line visit_all l st) ->
  forall st,
    fold_left (fun st line => walk_line_within visit f line st) lines st
    = walk_lines visit_all lines st.
Proof.
  unfold walk_lines. induction lines as [|l rest IH]; intros H st;
    [reflexivity|].
  cbn [fold_left]. rewrite H by (left; reflexivity).
  apply IH. intros l' st' Hl. apply H. right; exact Hl.
Qed.

Lemma walk_line_within_enough (line : node) :
  forall f st,
    depth_line line + bound <= S f ->
    walk_line_within visit f line st = walk_line visit_all line st.
Proof.
  induction line as [name values subLines IH] using node_forall_ind.
  intros f st H. rewrite depth_line_unfold in H.
  rewrite walk_line_within_unfold, walk_line_unfold.
  rewrite visit_enough by lia.
  destruct subLines as [|s rest]; [reflexivity|].
  assert (Hs : 1 <= depth (s :: rest)).
  { etransitivity; [|apply (depth_line_le (s :: rest) s); left; reflexivity].
    destruct s. rewrite depth_line_unfold. lia. }
  destruct f as [|f']; [lia|].
  unfold walk_lines_within. apply fold_within_enough.
  intros l st' Hl. rewrite Forall_forall in IH. apply (IH l Hl).
  pose proof (depth_line_le (s :: rest) l Hl). lia.
Qed.

Lemma walk_lines_within_enough (frames : nat) (lines : list node)
    (st : exn T) :
  depth lines + bound < frames ->
  walk_lines_within visit frames lines st = walk_lines visit_all lines st.
Proof.
  intros H. destruct frames as [|f]; [lia|].
  unfold walk_lines_within. apply fold_within_enough.
  intros l st' Hl. apply walk_line_within_enough.
  pose proof (depth_line_le lines l Hl). lia.
Qed.

End WalkWithinFacts.

(** ** Dictionaries *)

Lemma dict_set_keys {V} (d : dict string V) (k : string) (v : V) :
  dict_keys (dict_set String.eqb d k v)
  = if dict_mem String.eqb d k then dict_keys d else dict_keys d ++ [k].
Proof.
  unfold dict_mem, dict_keys. induction d as [|[k' v'] d IH]; [reflexivity|].
  cbn [dict_set dict_get]. destruct (String.eqb k' k) eqn:E; [reflexivity|].
  cbn [map fst]. rewrite IH.
  destruct (dict_get String.eqb d k); reflexivity.
Qed.

Lemma dict_mem_In {V} (d : dict string V) (k : string) :
  dict_mem String.eqb d k = true <-> In k (dict_keys d).
Proof.
  unfold dict_mem. induction d as [|[k' v'] d IH]; cbn [dict_get dict_keys map fst In].
  - split; [discriminate|tauto].
  - destruct (String.eqb_spec k' k) as [->|N].
    + split; auto.
    + rewrite IH. unfold dict_keys. split; [auto|]. intros [E|H]; [contradiction|auto].
Qed.

Lemma dict_set_In {V} (d : dict string V) (k k' : string) (v : V) :
  In k' (dict_keys (dict_set String.eqb d k v))
  <-> In k' (dict_keys d) \/ k' = k.
Proof.
  rewrite dict_set_keys. destruct (dict_mem String.eqb d k) eqn:E.
  - apply dict_mem_In in E. split; [auto|]. intros [H|H]; [auto|subst; auto].
  - rewrite in_app_iff. cbn [In]. split; intros [H|H]; auto.
    destruct H as [H|[]]. auto.
Qed.

Lemma dict_set_NoDup {V} (d : dict string V) (k : string) (v : V) :
  NoDup (dict_keys d) -> NoDup (dict_keys (dict_set String.eqb d k v)).
Proof.
  intros H. rewrite dict_set_keys. destruct (dict_mem String.eqb d k) eqn:E; [exact H|].
  apply NoDup_rev in H. rewrite <- (rev_involutive (dict_keys d ++ [k])).
  apply NoDup_rev. rewrite rev_app_distr. cbn [rev app].
  constructor; [|exact H].
  rewrite <- in_rev. intros Hin. apply dict_mem_In in Hin. congruence.
Qed.

(** ** Which lines get a record *)

Lemma flat_map_filter {A B} (p : A -> bool) (f : A -> list B) (l : list A) :
  flat_map f (filter p l) = flat_map (fun x => if p x then f x else []) l.
Proof.
  induction l as [|a l IH]; [reflexivity|].
  cbn [filter flat_map]. destruct (p a); cbn [flat_map]; rewrite IH; reflexivity.
Qed.

Lemma fold_left_appending {A B} (f : A -> list B) (l : list A) (acc : list B) :
  fold_left (fun acc x => acc ++ f x) l acc = acc ++ flat_map f l.
Proof.
  revert acc. induction l as [|a l IH]; intros acc; cbn [fold_left flat_map].
  - rewrite app_nil_r. reflexivity.
  - rewrite IH, app_assoc. reflexivity.
Qed.

Lemma truthy_name_text (line : node) :
  truthy (node_name line) = true -> node_name line = Some (name_text line).
Proof.
  unfold name_text. destruct (node_name line) as [n|]; [reflexivity|discriminate].
Qed.

(** One line of [analyze_volatility.walk_lines]: a row is appended exactly
    for a named line that has a volatility. *)
Lemma volatility_visit_row (volatility_idx : option nat) (line : node)
    (results : list Volatility.volatility_row) :
  Volatility.visit volatility_idx line results =
  results ++
  (if truthy (node_name line) then
     match volatility_of volatility_idx line with
     | Some v => [Volatility.mkrow (name_text line) v]
     | None => []
     end
   else []).
Proof.
  unfold Volatility.visit, volatility_of, name_text.
  destruct (node_name line) as [n|] eqn:En; cbn [truthy].
  2:{ rewrite app_nil_r. reflexivity. }
  destruct volatility_idx as [idx|].
  2:{ destruct n; rewrite app_nil_r; reflexivity. }
  destruct n as [|c n]; cbn [truthy andb]; [rewrite app_nil_r; reflexivity|].
  destruct (Nat.ltb_spec idx (List.length (node_values line))) as [Hlt|Hge].
  - destruct (nth_error (node_values line) idx) as [cell|] eqn:Ec.
    + rewrite (nth_error_nth _ _ JNull Ec). unfold Analysis.get_cell_value.
      destruct cell as [| | | | | |d]; try reflexivity;
        try (rewrite app_nil_r; reflexivity).
      destruct (dict_get String.eqb d "rawValue") as [[]|];
        try reflexivity;
        destruct (dict_get String.eqb d "value") as [[]|];
        try reflexivity; rewrite app_nil_r; reflexivity.
    + apply nth_error_None in Ec. lia.
  - apply nth_error_None in Hge. rewrite Hge, app_nil_r. reflexivity.
Qed.

Lemma extract_metrics_nonempty (line : node) (headers : list header) :
  Metrics.extract_metrics_from_asset line headers <> [].
Proof.
  unfold Metrics.extract_metrics_from_asset.
  match goal with |- dict_set _ ?d _ _ <> [] => destruct d as [|[k v] d'] end;
    cbn [dict_set]; [discriminate|].
  destruct (String.eqb k "time_series"); discriminate.
Qed.

(** One line of [extract_all_assets_with_metrics]: the names that have a
    record afterwards. *)
Lemma metrics_visit_keys (headers : list header) (line : node)
    (assets_dict : Metrics.assets) :
  dict_keys (Metrics.visit headers line assets_dict)
  = if truthy (node_name line)
    then dict_keys (dict_set String.eqb assets_dict (name_text line) [])
    else dict_keys assets_dict.
Proof.
  unfold Metrics.visit, name_text.
  destruct (node_name line) as [n|]; [|reflexivity].
  destruct (truthy (Some n)); [|reflexivity].
  pose proof (extract_metrics_nonempty line headers) as Hne.
  destruct (Metrics.extract_metrics_from_asset line headers) as [|m ms];
    [congruence|].
  destruct (dict_get String.eqb assets_dict n);
    rewrite !dict_set_keys; reflexivity.
Qed.

Lemma metrics_walk_keys (headers : list header) (ls : list node) :
  forall assets_dict : Metrics.assets,
    NoDup (dict_keys assets_dict) ->
    NoDup (dict_keys
             (fold_left (fun a line => Metrics.visit headers line a) ls
                assets_dict))
    /\ forall name,
         In name (dict_keys
                    (fold_left (fun a line => Metrics.visit headers line a) ls
                       assets_dict))
         <-> In name (dict_keys assets_dict)
             \/ exists line,
                  In line (filter (fun l => truthy (node_name l)) ls)
                  /\ node_name line = Some name.
Proof.
  induction ls as [|l ls IH]; intros a Hnd; cbn [fold_left filter].
  - split; [exact Hnd|]. intros name. split; [auto|].
    intros [H|(line & [] & _)]. exact H.
  - assert (Hnd' : NoDup (dict_keys (Metrics.visit headers l a))).
    { rewrite metrics_visit_keys. destruct (truthy (node_name l)); [|exact Hnd].
      apply dict_set_NoDup, Hnd. }
    destruct (IH _ Hnd') as [H1 H2]. split; [exact H1|].
    intros name. rewrite H2, metrics_visit_keys.
    destruct (truthy (node_name l)) eqn:Et.
    + rewrite dict_set_In. cbn [In]. split.
      * intros [[H| ->]|(line & Hin & Hn)]; auto.
        -- right. exists l. split; [left; reflexivity|].
           apply truthy_name_text, Et.
        -- right. exists line. auto.
      * intros [H|(line & [<-|Hin] & Hn)]; auto.
        -- left. right. apply truthy_name_text in Et. congruence.
        -- right. exists line. auto.
    + split; intros [H|(line & Hin & Hn)]; auto; right; exists line; auto.
Qed.

(** C7, as it holds.  For every report tree the walk treats every line
    exactly once, in pre-order: it is the fold of the treatment of one line
    over the pre-order list of the lines.  A line whose name is absent or
    empty produces no record and changes nothing, and the lines below it
    are still walked.  A line with a name gets a row from
    [analyze_volatility.walk_lines] exactly when its volatility cell exists
    and is not null; [extract_all_assets_with_metrics] keeps one record per
    distinct name of a named line, a repeated name being merged into the
    record of its first occurrence. *)
Theorem walk_visits_lines_in_preorder :
  forall (lines : list node) (headers : list header)
         (volatility_idx : option nat)
         (results : list Volatility.volatility_row),
    Metrics.extract_all_assets_with_metrics lines headers
    = fold_left (fun a line => Metrics.visit headers line a) (preorder lines) []
    /\ Volatility.walk_lines lines volatility_idx results
       = fold_left (fun r line => Volatility.visit volatility_idx line r)
           (preorder lines) results
    /\ (forall line a r,
          truthy (node_name line) = false ->
          Metrics.visit headers line a = a
          /\ Volatility.visit volatility_idx line r = r)
    /\ Volatility.walk_lines lines volatility_idx results
       = results ++ volatility_rows volatility_idx lines
    /\ (forall name,
          In name
            (dict_keys (Metrics.extract_all_assets_with_metrics lines headers))
          <-> exists line,
                In line (named_lines lines) /\ node_name line = Some name)
    /\ NoDup (dict_keys (Metrics.extract_all_assets_with_metrics lines headers)).
Proof.
  intros lines headers volatility_idx results.
  assert (Hm : Metrics.extract_all_assets_with_metrics lines headers
               = fold_left (fun a line => Metrics.visit headers line a)
                   (preorder lines) []).
  { unfold Metrics.extract_all_assets_with_metrics. apply walk_lines_preorder. }
  assert (Hv : forall r,
             Volatility.walk_lines lines volatility_idx r
             = fold_left (fun r line => Volatility.visit volatility_idx line r)
                 (preorder lines) r).
  { intros r. unfold Volatility.walk_lines. apply walk_lines_preorder. }
  split; [exact Hm|]. split; [apply Hv|]. split; [|split; [|split]].
  - intros line a r Hn. split.
    + unfold Metrics.visit. destruct (node_name line) as [n|]; [|reflexivity].
      rewrite Hn. reflexivity.
    + rewrite volatility_visit_row, Hn, app_nil_r. reflexivity.
  - rewrite Hv. unfold volatility_rows, named_lines.
    rewrite flat_map_filter.
    rewrite <- (fold_left_appending
                  (fun line =>
                     if truthy (node_name line)
                     then match volatility_of volatility_idx line with
                          | Some v => [Volatility.mkrow (name_text line) v]
                          | None => []
                          end
                     else [])).
    clear Hm Hv. generalize results. generalize (preorder lines). intros ls.
    induction ls as [|l ls IH]; intros r; [reflexivity|].
    cbn [fold_left]. rewrite volatility_visit_row. apply IH.
  - intros name. rewrite Hm.
    destruct (@metrics_walk_keys headers (preorder lines) [])
      as [_ H]; [constructor|].
    rewrite H. unfold named_lines. cbn [dict_keys map In]. tauto.
  - rewrite Hm.
    destruct (@metrics_walk_keys headers (preorder lines) [])
      as [H _]; [constructor|exact H].
Qed.

Lemma walk_visits_lines_in_preorder_witness :
  Metrics.visit [HStr "Volatility"] (Node None [JInt 3] [fund_line])
    [("Fund B", [])]
  = [("Fund B", [])]
  /\ Volatility.visit (Some 0) (Node (Some EmptyString) [JInt 3] [fund_line])
       [Volatility.mkrow "Fund B" (JInt 5)]
     = [Volatility.mkrow "Fund B" (JInt 5)].
Proof.
  destruct (walk_visits_lines_in_preorder three_lines [HStr "Volatility"]
              (Some 0) []) as (_ & _ & Hunnamed & _).
  split.
  - apply (Hunnamed (Node None [JInt 3] [fund_line])
             [("Fund B", [])] []). reflexivity.
  - apply (Hunnamed (Node (Some EmptyString) [JInt 3] [fund_line]) []
             [Volatility.mkrow "Fund B" (JInt 5)]). reflexivity.
Defined.

(** C7, as stated, fails: three lines have a name, yet
    [analyze_volatility.walk_lines] emits two rows (the first line has no
    volatility) and [extract_all_assets_with_metrics] keeps two records
    (the last two lines share a name). *)
Lemma named_lines_without_record :
  map name_text (named_lines three_lines) = ["Fund A"; "Fund B"; "Fund B"]
  /\ map Volatility.asset (Volatility.walk_lines three_lines (Some 0) [])
     = ["Fund B"; "Fund B"]
  /\ dict_keys
       (Metrics.extract_all_assets_with_metrics three_lines [HStr "Volatility"])
     = ["Fund A"; "Fund B"]
  /\ map Volatility.asset (Volatility.walk_lines three_lines (Some 0) [])
     <> map name_text (named_lines three_lines)
  /\ dict_keys
       (Metrics.extract_all_assets_with_metrics three_lines [HStr "Volatility"])
     <> map name_text (named_lines three_lines).
Proof.
  repeat split; try reflexivity; vm_compute; discriminate.
Qed.

(** The walk on a small report: the unnamed line is crossed, the lines
    below it are reached. *)
Example walk_through_unnamed_group :
  Volatility.walk_lines
    [Node None [] [Node (Some "Fund A") [JInt 4] []];
     Node (Some "Fund B") [JDict [("rawValue", JNull); ("value", JStr "7 %")]] []]
    (Some 0) []
  = [Volatility.mkrow "Fund A" (JInt 4); Volatility.mkrow "Fund B" (JStr "7 %")].
Proof. reflexivity. Qed.

(** ** Time-series cells *)

Lemma contains_nonempty (needle k : string) :
  needle <> EmptyString -> contains needle k = true -> truthy (Some k) = true.
Proof.
  intros Hn. destruct k; [|reflexivity].
  destruct needle; [congruence|]. cbn. discriminate.
Qed.

Lemma looks_like_time_series_iff (raw_value : dict string json) :
  looks_like_time_series raw_value = true <->
  exists k v rest,
    raw_value = (k, v) :: rest /\ contains "T" k = true /\ is_number v = true.
Proof.
  unfold looks_like_time_series. destruct raw_value as [|[k v] rest].
  - split; [discriminate|]. intros (k & v & rest & H & _). discriminate.
  - cbn [dict_get]. rewrite String.eqb_refl. split.
    + intros H. apply andb_prop in H. destruct H as [H Hv].
      apply andb_prop in H. destruct H as [_ Hk]. exists k, v, rest. auto.
    + intros (k' & v' & rest' & [= <- <- <-] & Hk & Hv).
      rewrite Hk, Hv, (contains_nonempty (needle := "T")); auto. discriminate.
Qed.

Lemma sampled_or_not (cell : json) :
  (exists raw_value,
      sampled_time_series cell raw_value
      /\ exists d, cell = JDict d
                   /\ dict_get String.eqb d "rawValue" = Some (JDict raw_value)
                   /\ looks_like_time_series raw_value = true)
  \/ ((forall raw_value, ~ sampled_time_series cell raw_value)
      /\ forall d raw_value,
           cell = JDict d ->
           dict_get String.eqb d "rawValue" = Some (JDict raw_value) ->
           looks_like_time_series raw_value = false).
Proof.
  destruct cell as [| | | | | |d];
    try (right; split;
         [intros r (d & k & v & rest & H & _); discriminate
         |intros d r H; discriminate]).
  destruct (dict_get String.eqb d "rawValue") as [raw|] eqn:Er.
  2:{ right. split.
      - intros r (d' & k & v & rest & [= <-] & H & _). congruence.
      - intros d' r [= <-] H. congruence. }
  destruct raw as [| | | | | |raw];
    try (right; split;
         [intros r (d' & k & v & rest & [= <-] & H & _); congruence
         |intros d' r [= <-] H; congruence]).
  destruct (looks_like_time_series raw) eqn:El.
  - left. exists raw. split.
    + apply looks_like_time_series_iff in El.
      destruct El as (k & v & rest & H1 & H2 & H3).
      exists d, k, v, rest. auto.
    + exists d. auto.
  - right. split.
    + intros r (d' & k & v & rest & [= <-] & H & Hr & Hk & Hv).
      rewrite Er in H. injection H as H. subst r.
      assert (looks_like_time_series raw = true)
        by (apply looks_like_time_series_iff; exists k, v, rest; auto).
      congruence.
    + intros d' r [= <-] H. rewrite Er in H. injection H as <-. exact El.
Qed.

(** C8, as it holds.  The extraction returns the ["rawValue"] of the first
    cell of the line, in positional order, that is an object whose
    ["rawValue"] is a non-empty mapping whose first key contains a ['T']
    and holds a number; only that first entry is looked at.  When no cell
    is of that shape the result is null. *)
Theorem extract_asset_time_series_samples_first_entry :
  forall asset_data : node,
    match extract_asset_time_series asset_data with
    | Some raw_value =>
        exists before cell after,
          node_values asset_data = before ++ cell :: after
          /\ sampled_time_series cell raw_value
          /\ Forall (fun c => forall r, ~ sampled_time_series c r) before
    | None =>
        Forall (fun c => forall r, ~ sampled_time_series c r)
          (node_values asset_data)
    end.
Proof.
  intros asset_data. unfold extract_asset_time_series.
  induction (node_values asset_data) as [|cell values IH].
  - constructor.
  - destruct (sampled_or_not cell)
      as [(raw & Hs & d & -> & Hr & Hl)|[Hno Hl]].
    + cbn [extract_asset_time_series_values]. rewrite Hr, Hl.
      exists [], (JDict d), values. split; [reflexivity|]. split; [exact Hs|].
      constructor.
    + assert (Hstep : extract_asset_time_series_values (cell :: values)
                      = extract_asset_time_series_values values).
      { cbn [extract_asset_time_series_values].
        destruct cell as [| | | | | |d]; try reflexivity.
        destruct (dict_get String.eqb d "rawValue") as [[| | | | | |raw]|] eqn:Er;
          try reflexivity.
        rewrite (Hl d raw eq_refl Er). reflexivity. }
      rewrite Hstep.
      destruct (extract_asset_time_series_values values) as [raw|].
      * destruct IH as (before & c & after & Hv & Hs & Hb).
        exists (cell :: before), c, after. rewrite Hv.
        split; [reflexivity|]. split; [exact Hs|]. constructor; assumption.
      * constructor; assumption.
Qed.

(** C8, as stated, fails: the mapping below is returned although its second
    key is not a date-time and its second value is not a number. *)
Lemma sampled_series_is_not_checked :
  extract_asset_time_series (Node (Some "Fund A") [JInt 3; mixed_cell] [])
  = Some mixed_series
  /\ is_time_series mixed_series = false.
Proof. split; reflexivity. Qed.

(** ** The depth of the walk *)

Lemma process_assets_visit_unnamed (values : list json) (subLines : list node)
    (st : exn ProcessAssets.state) :
  ProcessAssets.visit (Node None values subLines) st = st.
Proof. destruct st as [[results seen]|]; reflexivity. Qed.

Lemma metrics_visit_unnamed (headers : list header) (values : list json)
    (subLines : list node) (a : Metrics.assets) :
  Metrics.visit headers (Node None values subLines) a = a.
Proof. reflexivity. Qed.

Section ProcessAssetsWithin.
Variable calls : ProcessAssets.state -> node -> nat.


Lemma process_assets_within_raised (frames : nat) (line : node) :
  ProcessAssets.visit_within calls frames line None = None.
Proof. reflexivity. Qed.

Lemma process_assets_within_returned (frames : nat) (line : node)
    (st : exn ProcessAssets.state) (x : ProcessAssets.state) :
  ProcessAssets.visit_within calls frames line st = Some x ->
  ProcessAssets.visit line st = Some x.
Proof.
  unfold ProcessAssets.visit_within. destruct st as [st'|]; [|discriminate].
  cbn [bind].
  destruct (truthy (node_name line) && (frames <? calls st' line)%nat);
    [discriminate|].
  intros H. exact H.
Qed.



(** When [process_assets] returns, it returns what the walk without the
    limit collects. *)
Lemma process_assets_returned (frames : nat) (lines : list node)
    (results : list ProcessAssets.asset_result) :
  ProcessAssets.process_assets calls frames lines = Some results ->
  (st <- walk_lines ProcessAssets.visit lines (ret ([], [])) ;;
   ret (fst st)) = Some results.
Proof.
  unfold ProcessAssets.process_assets. intros H.
  destruct (walk_lines_within (ProcessAssets.visit_within calls) frames lines
              (ret ([], []))) as [st|] eqn:E; [|discriminate].
  apply (@walk_lines_within_returned _ (ProcessAssets.visit_within calls)
           process_assets_within_raised ProcessAssets.visit
           process_assets_within_returned) in E.
  rewrite E. exact H.
Qed.


(** With enough frames [process_assets] returns what the walk without the
    limit collects. *)
Lemma process_assets_enough_frames (bound frames : nat)
    (lines : list node) :
  (forall st line, calls st line <= bound) ->
  depth lines + bound < frames ->
  ProcessAssets.process_assets calls frames lines
  = (st <- walk_lines ProcessAssets.visit lines (ret ([], [])) ;;
     ret (fst st)).
Proof.
  intros Hb H. unfold ProcessAssets.process_assets.
  rewrite (@walk_lines_within_enough _ (ProcessAssets.visit_within calls)
             ProcessAssets.visit bound); [reflexivity| |exact H].
  intros f line st Hf. unfold ProcessAssets.visit_within.
  destruct st as [st'|]; [|reflexivity]. cbn [bind].
  replace (f <? calls st' line)%nat with false; [rewrite andb_false_r; reflexivity|].
  symmetry. apply Nat.ltb_ge. etransitivity; [apply Hb|exact Hf].
Qed.

End ProcessAssetsWithin.

Section MetricsWithin.
Variable calls : Metrics.assets -> node -> nat.
Variable headers : list header.









End MetricsWithin.



Lemma extract_asset_time_series_samples_first_entry_witness :
  exists before cell after,
    node_values (Node (Some "Fund A") [JInt 3; mixed_cell] [])
    = before ++ cell :: after
    /\ sampled_time_series cell mixed_series
    /\ Forall (fun c => forall r, ~ sampled_time_series c r) before.
Proof.
  exact (extract_asset_time_series_samples_first_entry
           (Node (Some "Fund A") [JInt 3; mixed_cell] [])).
Defined.


(** ** Header resolution *)

Lemma dict_get_set {V} (d : dict string V) (k k' : string) (v : V) :
  dict_get String.eqb (dict_set String.eqb d k v) k'
  = if String.eqb k k' then Some v else dict_get String.eqb d k'.
Proof.
  induction d as [|[k0 v0] d IH]; cbn [dict_set dict_get].
  - destruct (String.eqb k k'); reflexivity.
  - destruct (String.eqb_spec k0 k) as [->|N]; cbn [dict_get].
    + destruct (String.eqb k k'); reflexivity.
    + rewrite IH. destruct (String.eqb_spec k0 k') as [->|N'];
        [|reflexivity].
      destruct (String.eqb_spec k k') as [->|]; [congruence|reflexivity].
Qed.

(** One header of the loop of [extract_metrics_from_asset]: a header that
    mentions the volatility binds the metric to its own position, whatever
    was bound before. *)
Lemma bind_header_volatility (metric_indices : dict string nat) (i : nat)
    (h : header) :
  dict_get String.eqb (Metrics.bind_header metric_indices (i, h)) "volatility"
  = if mentions_volatility h then Some i
    else dict_get String.eqb metric_indices "volatility".
Proof.
  unfold Metrics.bind_header, mentions_volatility.
  destruct (Metrics.header_cmd_name h) as [cmd name].
  repeat match goal with
         | |- context [if ?c then dict_set _ _ _ _ else _] => destruct c
         end;
    rewrite ?dict_get_set; cbn [String.eqb Ascii.eqb Bool.eqb];
    rewrite ?dict_get_set; cbn [String.eqb Ascii.eqb Bool.eqb];
    rewrite ?dict_get_set; cbn [String.eqb Ascii.eqb Bool.eqb];
    rewrite ?dict_get_set; cbn [String.eqb Ascii.eqb Bool.eqb];
    reflexivity.
Qed.

Lemma metric_indices_from (hs : list header) :
  forall (k : nat) (metric_indices : dict string nat),
    dict_get String.eqb
      (fold_left Metrics.bind_header (combine (seq k (List.length hs)) hs)
         metric_indices) "volatility"
    = match last_opt (filter (fun ih => mentions_volatility (snd ih))
                        (combine (seq k (List.length hs)) hs)) with
      | Some ih => Some (fst ih)
      | None => dict_get String.eqb metric_indices "volatility"
      end.
Proof.
  induction hs as [|h hs IH]; intros k mi; [reflexivity|].
  cbn [List.length seq combine fold_left filter snd].
  rewrite IH, bind_header_volatility.
  destruct (mentions_volatility h).
  - rewrite last_opt_cons.
    destruct (last_opt _); reflexivity.
  - reflexivity.
Qed.

(** In [extract_metrics_from_asset] the last header that mentions the
    volatility wins. *)
Lemma metric_indices_last_match (headers : list header) :
  dict_get String.eqb (Metrics.metric_indices headers) "volatility"
  = last_index mentions_volatility headers.
Proof.
  unfold Metrics.metric_indices, last_index, Metrics.enumerate.
  rewrite metric_indices_from.
  destruct (last_opt _); reflexivity.
Qed.

Lemma extract_volatility_index_from_first (hs : list header) :
  forall k,
    Volatility.extract_volatility_index_from k hs
    = option_map fst
        (find (fun ih => mentions_volatility (snd ih))
           (combine (seq k (List.length hs)) hs)).
Proof.
  induction hs as [|h hs IH]; intros k; [reflexivity|].
  cbn [Volatility.extract_volatility_index_from List.length seq combine find snd].
  rewrite IH. unfold mentions_volatility.
  destruct h as [name command|s];
    cbn [Volatility.header_name_cmd Metrics.header_cmd_name];
    repeat match goal with
           | |- context [contains ?a ?b] => destruct (contains a b)
           end;
    reflexivity.
Qed.

(** In [extract_volatility_index] the first header that mentions the
    volatility wins. *)
Lemma extract_volatility_index_first_match (headers : list header) :
  Volatility.extract_volatility_index headers
  = first_index mentions_volatility headers.
Proof. apply extract_volatility_index_from_first. Qed.

(** C5, the defect.  With two headers that both mention the volatility,
    [extract_metrics_from_asset] binds the metric to the second one (a
    later matching header rebinds it), whereas [extract_volatility_index]
    binds it to the first one, as the specification requires. *)
Theorem later_header_rebinds_metric :
  dict_get String.eqb
    (Metrics.metric_indices [HStr "Volatility"; HStr "Volatility (1Y)"])
    "volatility" = Some 1
  /\ Volatility.extract_volatility_index
       [HStr "Volatility"; HStr "Volatility (1Y)"] = Some 0.
Proof. split; reflexivity. Qed.

(** C6, the defect.  A header whose command is [buy_price] matches the
    purchase-price test (it contains ["buy"]) and is bound to the generic
    [price] metric all the same: the negative condition of the [price] test
    leaves ["buy"] out. *)
Theorem buy_header_also_binds_price :
  Metrics.metric_indices [HDict None (Some "buy_price")]
  = [("purchase_price", 0); ("price", 0)].
Proof. reflexivity. Qed.

(** The resolution the specification works out: the header
    [purchase_price] is kept out of [price] by the negative condition. *)
Example purchase_price_then_price :
  Metrics.metric_indices
    [HDict None (Some "purchase_price"); HDict None (Some "price")]
  = [("purchase_price", 0); ("price", 1)].
Proof. reflexivity. Qed.

(** ** Dates written by [strftime] are read back by [strptime] *)

Lemma parse_month_pad2 (m : Z) (rest : string) :
  (1 <= m <= 12)%Z ->
  parse_month (pad2 m ++ String "-" rest) = Some (m, String "-" rest).
Proof.
  intros H.
  assert (Hc : (m = 1 \/ m = 2 \/ m = 3 \/ m = 4 \/ m = 5 \/ m = 6 \/ m = 7
                \/ m = 8 \/ m = 9 \/ m = 10 \/ m = 11 \/ m = 12)%Z) by lia.
  repeat (destruct Hc as [Hc|Hc]); subst; reflexivity.
Qed.

Lemma parse_day_pad2 (d : Z) :
  (1 <= d <= 31)%Z -> parse_day (pad2 d) = Some (d, EmptyString).
Proof.
  intros H.
  assert (Hc : ((d = 1 \/ d = 2 \/ d = 3 \/ d = 4 \/ d = 5 \/ d = 6 \/ d = 7
                \/ d = 8 \/ d = 9 \/ d = 10)
               \/ (d = 11 \/ d = 12 \/ d = 13 \/ d = 14 \/ d = 15 \/ d = 16
                   \/ d = 17 \/ d = 18 \/ d = 19 \/ d = 20)
               \/ (d = 21 \/ d = 22 \/ d = 23 \/ d = 24 \/ d = 25 \/ d = 26
                   \/ d = 27 \/ d = 28 \/ d = 29 \/ d = 30 \/ d = 31))%Z) by lia.
  destruct Hc as [Hc|[Hc|Hc]];
    repeat (destruct Hc as [Hc|Hc]); subst; reflexivity.
Qed.

Lemma strptime_strftime (d : date) :
  valid_date d = true -> (1000 <= year d)%Z ->
  strptime_ymd (strftime_ymd d) = Some d.
Proof.
  intros V Y. pose proof (valid_date_bounds d V) as (Hy & Hm & Hd).
  rewrite (strftime_four_digits d Y).
  destruct d as [y m dd]. cbn [year month day] in *.
  assert (Hy' : (0 <= y < 10000)%Z) by lia.
  destruct (digits4 Hy') as (a3 & a2 & a1 & a0 & B3 & B2 & B1 & B0 & E
                             & E3 & E2 & E1 & E0).
  assert (Hs : (pad4 y ++ "-" ++ pad2 m ++ "-" ++ pad2 dd)%string
               = String (digit_char a3) (String (digit_char a2)
                   (String (digit_char a1) (String (digit_char a0)
                      (String "-" (pad2 m ++ String "-" (pad2 dd))))))).
  { unfold pad4. unfold pad2 at 1.
    rewrite E3, E2, E1, E0. reflexivity. }
  rewrite Hs. unfold strptime_ymd.
  rewrite !digit_of_digit_char by assumption.
  cbn [Ascii.eqb Bool.eqb].
  rewrite parse_month_pad2 by assumption.
  cbn [Ascii.eqb Bool.eqb].
  rewrite parse_day_pad2 by assumption.
  rewrite <- E, V. reflexivity.
Qed.

Lemma strftime_is_date_text (d : date) :
  valid_date d = true -> (1000 <= year d)%Z ->
  is_date_text (strftime_ymd d) = true.
Proof.
  intros V Y. unfold is_date_text. rewrite (strptime_strftime d V Y).
  reflexivity.
Qed.

Lemma mapM_Forall {A B} (f : A -> exn B) (P : B -> Prop) (l : list A) :
  (forall a b, f a = Some b -> P b) ->
  forall l', mapM f l = Some l' -> Forall P l'.
Proof.
  intros Hf. induction l as [|a l IH]; intros l' H; cbn [mapM] in H.
  - injection H as <-. constructor.
  - destruct (f a) as [b|] eqn:Ea; [|discriminate].
    destruct (mapM f l) as [bs|]; [|discriminate].
    injection H as <-. constructor; eauto.
Qed.

Lemma mapM_In_source {A B} (f : A -> exn B) (l : list A) :
  forall l', mapM f l = Some l' ->
  forall b, In b l' -> exists a, In a l /\ f a = Some b.
Proof.
  induction l as [|a l IH]; intros l' H b Hb; cbn [mapM] in H.
  - injection H as <-. destruct Hb.
  - destruct (f a) as [b0|] eqn:Ea; [|discriminate].
    destruct (mapM f l) as [bs|]; [|discriminate].
    injection H as <-. destruct Hb as [<-|Hb].
    + exists a. split; [left; reflexivity|exact Ea].
    + destruct (IH bs eq_refl b Hb) as (a' & Ha' & Hf).
      exists a'. split; [right; exact Ha'|exact Hf].
Qed.

Lemma last_In_cons {A} (a : A) (l : list A) (d : A) :
  In (last (a :: l) d) (a :: l).
Proof.
  revert a. induction l as [|b l IH]; intros a; [left; reflexivity|].
  right. apply IH.
Qed.

Lemma gap_events_dated (ds : list date) :
  Forall (fun d => valid_date d = true /\ (1000 <= year d)%Z) ds ->
  Forall (fun e => is_date_text (ev_date e) = true) (BuysSells.gap_events ds).
Proof.
  induction 1 as [|a l [Ha Ya] Hl IH]; [constructor|].
  destruct l as [|b l]; [constructor|].
  change (BuysSells.gap_events (a :: b :: l))
    with ((if (days_between a b >? 1)%Z then
             [mkevent sold (strftime_ymd a); mkevent bought (strftime_ymd b)]
           else []) ++ BuysSells.gap_events (b :: l)).
  apply Forall_app. split; [|exact IH].
  inversion Hl as [|b' l' [Hb Yb] Hl']; subst.
  destruct (days_between a b >? 1)%Z; repeat constructor;
    apply strftime_is_date_text; assumption.
Qed.

(** The events the reconstruction produces are events the valuation engine
    accepts when no key is dated before the year 1000: their dates are read
    back by [strptime]. *)
Lemma find_buy_sell_dates_dated {V} (time_series : dict string V)
    (transactions : list event) :
  forallb from_year_1000 (dict_keys time_series) = true ->
  BuysSells.find_buy_sell_dates time_series = Some transactions ->
  forallb (fun e => is_date_text (ev_date e)) transactions = true.
Proof.
  intros Hy.
  destruct (mapM BuysSells.parse_timestamp (dict_keys time_series)) as [raw|] eqn:Er.
  2:{ unfold BuysSells.find_buy_sell_dates.
      destruct time_series as [|p ts]; [discriminate|].
      rewrite Er. discriminate. }
  rewrite (find_buy_sell_dates_parsed time_series Er), <- distinct_sorted_squash.
  intros [= <-].
  assert (Hraw : Forall (fun d => valid_date d = true /\ (1000 <= year d)%Z) raw).
  { apply Forall_forall. intros d Hd.
    destruct (mapM_In_source _ _ Er d Hd) as (k & Hk & Hp).
    split; [exact (strptime_ymd_valid _ Hp)|].
    rewrite forallb_forall in Hy. specialize (Hy k Hk).
    unfold from_year_1000 in Hy. rewrite Hp in Hy.
    apply Z.leb_le. exact Hy. }
  assert (Hds : Forall (fun d => valid_date d = true /\ (1000 <= year d)%Z)
                  (BuysSells.distinct_sorted raw)).
  { rewrite Forall_forall in *. intros d Hd. apply Hraw.
    unfold BuysSells.distinct_sorted in Hd.
    apply sorted_In in Hd. apply nodup_In in Hd. exact Hd. }
  apply forallb_forall. apply Forall_forall.
  unfold BuysSells.reconstruct.
  destruct (BuysSells.distinct_sorted raw) as [|first_date rest] eqn:Ed;
    [constructor|].
  assert (Hlast : valid_date (last (first_date :: rest) first_date) = true
                  /\ (1000 <= year (last (first_date :: rest) first_date))%Z).
  { rewrite Forall_forall in Hds. apply Hds, last_In_cons. }
  apply Forall_app. split.
  - constructor; [|constructor].
    inversion Hds as [|x l [Hv Hy1] Hl]; subst.
    apply strftime_is_date_text; assumption.
  - apply Forall_app. split; [apply gap_events_dated, Hds|].
    unfold BuysSells.closing_events.
    destruct (date_ltb _ _); [|destruct (date_eqb _ _)];
      repeat constructor; apply strftime_is_date_text; apply Hlast.
Qed.

Lemma prefix_append_self (p r : string) : String.prefix p (p ++ r) = true.
Proof.
  induction p as [|a p IH]; cbn [String.append String.prefix].
  - destruct r; reflexivity.
  - destruct (ascii_dec a a); [exact IH|congruence].
Qed.

(** Every timestamp written [YYYY-MM-DDT...] with an existing date of the
    year 1000 or later is a key in ISO-8601 form. *)
Lemma iso_timestamp_dated (d : date) (time_of_day : string) :
  valid_date d = true -> (1000 <= year d)%Z ->
  iso_dated (strftime_ymd d ++ String "T" time_of_day) = true
  /\ date_of_key (strftime_ymd d ++ String "T" time_of_day) = d.
Proof.
  intros V Y. pose proof (valid_date_bounds d V) as (Hy & Hm & Hd).
  assert (Hy' : (0 <= year d < 10000)%Z) by lia.
  assert (Hm' : (0 <= month d < 100)%Z) by lia.
  assert (Hd' : (0 <= day d < 100)%Z) by lia.
  destruct (digits4 Hy') as (a3 & a2 & a1 & a0 & B3 & B2 & B1 & B0 & _
                             & E3 & E2 & E1 & E0).
  destruct (digits2 Hm') as (m1 & m0 & M1 & M0 & _ & F1 & F0).
  destruct (digits2 Hd') as (d1 & d0 & D1 & D0 & _ & G1 & G0).
  assert (Hsplit : split_T_head (strftime_ymd d ++ String "T" time_of_day)
                   = strftime_ymd d).
  { rewrite (strftime_four_digits d Y). unfold pad4, pad2.
    rewrite E3, E2, E1, E0, F1, F0, G1, G0.
    cbn [String.append split_T_head].
    rewrite !digit_char_not_T by assumption. reflexivity. }
  assert (Hp : Analysis.parse_timestamp
                 (strftime_ymd d ++ String "T" time_of_day) = Some d).
  { unfold Analysis.parse_timestamp. rewrite Hsplit.
    apply strptime_strftime; assumption. }
  unfold iso_dated, date_of_key. rewrite Hp.
  split; [apply prefix_append_self|reflexivity].
Qed.

(** The events reconstructed from one series without a key before the year
    1000 can be valued against any NAV series with ISO-8601 keys: the engine
    does not raise on them. *)
Lemma reconstructed_events_are_well_formed {V W}
    (time_series : dict string V) (nav_time_series : dict string W)
    (transactions : list event) :
  forallb from_year_1000 (dict_keys time_series) = true ->
  BuysSells.find_buy_sell_dates time_series = Some transactions ->
  forallb iso_dated (dict_keys nav_time_series) = true ->
  well_formed_inputs transactions nav_time_series = true.
Proof.
  intros Hy Hev Hiso. unfold well_formed_inputs.
  rewrite Hiso, (find_buy_sell_dates_dated time_series Hy Hev). reflexivity.
Qed.

(** * Further properties of the scripts *)

(** ** The reconstructed events *)

Lemma distinct_sorted_strict (raw : list date) :
  StronglySorted (fun a b => date_ltb a b = true) (BuysSells.distinct_sorted raw).
Proof.
  rewrite distinct_sorted_squash.
  apply squash_sorted, sorted_sorted; [apply date_leb_total | apply date_leb_trans].
Qed.

Lemma distinct_sorted_In (raw : list date) (d : date) :
  In d (BuysSells.distinct_sorted raw) <-> In d raw.
Proof.
  unfold BuysSells.distinct_sorted. rewrite sorted_In, nodup_In. tauto.
Qed.

Lemma distinct_sorted_same_dates (raw raw' : list date) :
  (forall d, In d raw <-> In d raw') ->
  BuysSells.distinct_sorted raw = BuysSells.distinct_sorted raw'.
Proof.
  intros H. apply strictly_sorted_unique; try apply distinct_sorted_strict.
  intros d. rewrite !distinct_sorted_In. apply H.
Qed.

Lemma find_buy_sell_dates_of_dates (V : Type) (time_series : dict string V)
    (raw : list date) :
  mapM BuysSells.parse_timestamp (dict_keys time_series) = Some raw ->
  BuysSells.find_buy_sell_dates time_series
  = Some (BuysSells.reconstruct (BuysSells.distinct_sorted raw)
            BuysSells.REFERENCE_END_DATE).
Proof.
  intros H. rewrite (find_buy_sell_dates_parsed time_series H).
  rewrite distinct_sorted_squash. reflexivity.
Qed.

(** X1.  The events depend on the set of calendar dates of the keys only: not on
    the order of the keys in the dictionary, not on the values, not on the
    time of day, not on how many keys fall on the same day. *)
Theorem events_depend_on_dates_only :
  forall (V W : Type) (time_series : dict string V)
         (time_series' : dict string W) (raw raw' : list date),
    mapM BuysSells.parse_timestamp (dict_keys time_series) = Some raw ->
    mapM BuysSells.parse_timestamp (dict_keys time_series') = Some raw' ->
    (forall d, In d raw <-> In d raw') ->
    BuysSells.find_buy_sell_dates time_series
    = BuysSells.find_buy_sell_dates time_series'.
Proof.
  intros V W ts ts' raw raw' H H' Hset.
  rewrite (find_buy_sell_dates_of_dates ts H),
    (find_buy_sell_dates_of_dates ts' H').
  rewrite (distinct_sorted_same_dates raw raw' Hset). reflexivity.
Qed.

Lemma events_depend_on_dates_only_witness :
  BuysSells.find_buy_sell_dates
    [("2025-01-10T00:00:00", 1%Z); ("2025-01-01T09:30:00Z", 2%Z);
     ("2025-01-01T00:00:00", 3%Z); ("2025-01-02T00:00:00", 4%Z)]
  = BuysSells.find_buy_sell_dates
      [("2025-01-01", true); ("2025-01-02T23:59:59+01:00", false);
       ("2025-01-10T12:00:00", true)].
Proof.
  apply (@events_depend_on_dates_only Z bool _ _
           [mkdate 2025 1 10; mkdate 2025 1 1; mkdate 2025 1 1; mkdate 2025 1 2]
           [mkdate 2025 1 1; mkdate 2025 1 2; mkdate 2025 1 10]).
  - reflexivity.
  - reflexivity.
  - intros d. cbn [In]. tauto.
Defined.

Lemma alternates_gap_events (ds : list date) (tail : list event) :
  alternates sold (BuysSells.gap_events ds ++ tail) = alternates sold tail.
Proof.
  induction ds as [|a ds IH]; [reflexivity|].
  destruct ds as [|b ds]; [reflexivity|].
  change (BuysSells.gap_events (a :: b :: ds))
    with ((if (days_between a b >? 1)%Z then
             [mkevent sold (strftime_ymd a); mkevent bought (strftime_ymd b)]
           else []) ++ BuysSells.gap_events (b :: ds)).
  destruct (days_between a b >? 1)%Z; cbn [app alternates ev_action action_eqb
                                            andb other_action]; exact IH.
Qed.

Lemma last_opt_app_one {A} (l : list A) (x : A) : last_opt (l ++ [x]) = Some x.
Proof. unfold last_opt. rewrite rev_app_distr. reflexivity. Qed.

Lemma last_opt_gap_events (ds : list date) (e0 : event) :
  ev_action e0 = bought ->
  exists e, last_opt (e0 :: BuysSells.gap_events ds) = Some e
            /\ ev_action e = bought.
Proof.
  intros H0. revert e0 H0. induction ds as [|a ds IH]; intros e0 H0.
  - exists e0. auto.
  - destruct ds as [|b ds]; [exists e0; auto|].
    change (BuysSells.gap_events (a :: b :: ds))
      with ((if (days_between a b >? 1)%Z then
               [mkevent sold (strftime_ymd a); mkevent bought (strftime_ymd b)]
             else []) ++ BuysSells.gap_events (b :: ds)).
    destruct (days_between a b >? 1)%Z.
    + cbn [app].
      destruct (IH (mkevent bought (strftime_ymd b)) eq_refl) as (e & He & Ha).
      exists e. split; [|exact Ha].
      rewrite (last_opt_cons e0), (last_opt_cons (mkevent sold (strftime_ymd a))).
      rewrite He. reflexivity.
    + cbn [app]. apply IH, H0.
Qed.

Lemma date_leb_refl (a : date) : date_leb a a = true.
Proof. destruct (date_leb_total a a); assumption. Qed.

Lemma max_date_fold (l : list date) (m : date) :
  let r := fold_left (fun m x => if date_ltb m x then x else m) l m in
  (r = m \/ In r l) /\ date_leb m r = true
  /\ forall d, In d l -> date_leb d r = true.
Proof.
  revert m. induction l as [|a l IH]; intros m; cbn [fold_left].
  - split; [auto|]. split; [apply date_leb_refl|]. intros d [].
  - destruct (IH (if date_ltb m a then a else m)) as (H1 & H2 & H3).
    destruct (date_ltb m a) eqn:E.
    + split; [|split].
      * right. destruct H1 as [->|H1]; [left; reflexivity|right; exact H1].
      * eapply date_leb_trans; [apply date_ltb_leb, E|exact H2].
      * intros d [<-|Hd]; auto.
    + split; [|split]; auto.
      * destruct H1 as [H1|H1]; [auto|right; right; exact H1].
      * intros d [Hd|Hd]; auto. subst d.
        eapply date_leb_trans; [|exact H2].
        destruct (date_leb_total a m) as [H|H]; [exact H|].
        destruct (date_eq_dec m a) as [->|N]; [apply date_leb_refl|].
        rewrite (date_leb_neq_ltb H N) in E. discriminate.
Qed.

Lemma min_date_fold (l : list date) (m : date) :
  let r := fold_left (fun m x => if date_ltb x m then x else m) l m in
  (r = m \/ In r l) /\ date_leb r m = true
  /\ forall d, In d l -> date_leb r d = true.
Proof.
  revert m. induction l as [|a l IH]; intros m; cbn [fold_left].
  - split; [auto|]. split; [apply date_leb_refl|]. intros d [].
  - destruct (IH (if date_ltb a m then a else m)) as (H1 & H2 & H3).
    destruct (date_ltb a m) eqn:E.
    + split; [|split].
      * right. destruct H1 as [->|H1]; [left; reflexivity|right; exact H1].
      * eapply date_leb_trans; [exact H2|apply date_ltb_leb, E].
      * intros d [<-|Hd]; auto.
    + split; [|split]; auto.
      * destruct H1 as [H1|H1]; [auto|right; right; exact H1].
      * intros d [Hd|Hd]; auto. subst d.
        eapply date_leb_trans; [exact H2|].
        destruct (date_leb_total m a) as [H|H]; [exact H|].
        destruct (date_eq_dec a m) as [->|N]; [apply date_leb_refl|].
        rewrite (date_leb_neq_ltb H N) in E. discriminate.
Qed.

(** [max(l)] is the last of [sorted(l)], [min(l)] its first. *)
Lemma max_date_last_sorted (a : date) (l : list date) :
  last_opt (sorted date_leb (a :: l)) = Some (ProcessAssets.max_date (a :: l)).
Proof.
  assert (Hne : sorted date_leb (a :: l) <> []).
  { intros E. apply sorted_nil_inv in E. discriminate. }
  rewrite (last_last_opt BuysSells.no_date Hne). f_equal.
  pose proof (last_last_opt BuysSells.no_date Hne) as Hl.
  pose proof (last_opt_In _ Hl) as Hin. apply sorted_In in Hin.
  pose proof (sorted_last_max (R := fun x y => date_leb x y = true)
                date_leb_refl
                (sorted_sorted date_leb date_leb_total date_leb_trans (a :: l))
                Hl) as Hmax.
  unfold ProcessAssets.max_date.
  destruct (max_date_fold l a) as (H1 & H2 & H3).
  apply date_leb_antisym.
  - destruct Hin as [<-|Hin]; [exact H2|apply H3, Hin].
  - apply Hmax. apply sorted_In.
    destruct H1 as [->|H1]; [left; reflexivity|right; exact H1].
Qed.

Lemma min_date_head_sorted (a : date) (l : list date) :
  exists t,
    sorted date_leb (a :: l) = ProcessAssets.min_date (a :: l) :: t.
Proof.
  destruct (sorted date_leb (a :: l)) as [|h t] eqn:E.
  { apply sorted_nil_inv in E. discriminate. }
  exists t. f_equal.
  pose proof (sorted_sorted date_leb date_leb_total date_leb_trans (a :: l)) as Hs.
  rewrite E in Hs. inversion Hs as [|? ? _ Hall]; subst.
  rewrite Forall_forall in Hall.
  assert (Hin : In h (a :: l)) by (apply (sorted_In date_leb); rewrite E; left; reflexivity).
  unfold ProcessAssets.min_date.
  destruct (min_date_fold l a) as (H1 & H2 & H3).
  apply date_leb_antisym.
  - assert (Hm : In (fold_left (fun m x => if date_ltb x m then x else m) l a)
                   (h :: t)).
    { rewrite <- E. apply sorted_In.
      destruct H1 as [->|H1]; [left; reflexivity|right; exact H1]. }
    destruct Hm as [<-|Hm]; [apply date_leb_refl|apply Hall, Hm].
  - destruct Hin as [<-|Hin]; [exact H2|apply H3, Hin].
Qed.

(** X2.  The events of a series start with [bought] and alternate; the last one
    is [bought], an open position, exactly when the latest date of the
    series is the reference end date, and [sold] otherwise. *)
Theorem events_alternate :
  forall (V : Type) (time_series : dict string V) (events : list event),
    BuysSells.find_buy_sell_dates time_series = Some events ->
    alternates bought events = true
    /\ (time_series <> [] ->
        exists raw e,
          mapM BuysSells.parse_timestamp (dict_keys time_series) = Some raw
          /\ last_opt events = Some e
          /\ ev_action e
             = if date_eqb (ProcessAssets.max_date raw)
                    BuysSells.REFERENCE_END_DATE
               then bought else sold).
Proof.
  intros V ts events Hf.
  destruct ts as [|p ts].
  { injection Hf as <-. split; [reflexivity|]. intros H. congruence. }
  destruct (mapM BuysSells.parse_timestamp (dict_keys (p :: ts))) as [raw|] eqn:Hraw.
  2:{ unfold BuysSells.find_buy_sell_dates in Hf. rewrite Hraw in Hf.
      discriminate. }
  rewrite (find_buy_sell_dates_parsed (p :: ts) Hraw) in Hf. injection Hf as <-.
  destruct raw as [|a raw].
  { cbn [dict_keys map mapM] in Hraw.
    destruct (BuysSells.parse_timestamp (fst p)); [|discriminate].
    destruct (mapM _ _); discriminate. }
  pose proof (max_date_last_sorted a raw) as Hmax.
  destruct (sorted date_leb (a :: raw)) as [|first_date rest] eqn:Es.
  { discriminate. }
  destruct (squash_head first_date rest) as [t Ht].
  assert (Hlast : last (first_date :: rest) first_date
                  = ProcessAssets.max_date (a :: raw)).
  { rewrite (last_last_opt first_date) in Hmax by discriminate.
    injection Hmax as Hmax. exact Hmax. }
  unfold BuysSells.reconstruct. rewrite Ht. rewrite <- Ht.
  rewrite gap_events_squash, squash_last, closing_events_ne, Hlast.
  cbn [app alternates ev_action action_eqb andb other_action].
  rewrite alternates_gap_events.
  split.
  - destruct (date_eqb _ _); reflexivity.
  - intros _. exists (a :: raw).
    destruct (date_eqb (ProcessAssets.max_date (a :: raw))
                BuysSells.REFERENCE_END_DATE); cbn [negb].
    + rewrite app_nil_r.
      destruct (last_opt_gap_events (first_date :: rest)
                  (mkevent bought (strftime_ymd first_date)) eq_refl)
        as (e & He & Ha).
      exists e. auto.
    + exists (mkevent sold
                (strftime_ymd (ProcessAssets.max_date (a :: raw)))).
      split; [reflexivity|]. split; [|reflexivity].
      exact (last_opt_app_one
               (mkevent bought (strftime_ymd first_date)
                :: BuysSells.gap_events (first_date :: rest)) _).
Qed.

Lemma events_alternate_witness :
  alternates bought
    [mkevent bought "2025-01-01"; mkevent sold "2025-01-02";
     mkevent bought "2025-11-29"] = true
  /\ exists raw e,
       mapM BuysSells.parse_timestamp
         (dict_keys [("2025-01-01T00:00:00", 1%Z); ("2025-01-02T00:00:00", 1%Z);
                     ("2025-11-29T00:00:00", 1%Z)]) = Some raw
       /\ last_opt [mkevent bought "2025-01-01"; mkevent sold "2025-01-02";
                    mkevent bought "2025-11-29"] = Some e
       /\ ev_action e
          = if date_eqb (ProcessAssets.max_date raw)
                 BuysSells.REFERENCE_END_DATE
            then bought else sold.
Proof.
  destruct (@events_alternate Z
              [("2025-01-01T00:00:00", 1%Z); ("2025-01-02T00:00:00", 1%Z);
               ("2025-11-29T00:00:00", 1%Z)]
              [mkevent bought "2025-01-01"; mkevent sold "2025-01-02";
               mkevent bought "2025-11-29"] eq_refl) as [Ha Hl].
  split; [exact Ha|]. apply Hl. discriminate.
Defined.

Lemma string_append_nil (s : string) : (s ++ EmptyString)%string = s.
Proof. induction s as [|c s IH]; cbn; [reflexivity|]. rewrite IH. reflexivity. Qed.

(** From the year 1000 on, dates are written in the order of the dates. *)
Lemma strftime_monotone (a b : date) :
  valid_date a = true -> valid_date b = true ->
  (1000 <= year a)%Z -> (1000 <= year b)%Z ->
  date_leb a b = true -> String.leb (strftime_ymd a) (strftime_ymd b) = true.
Proof.
  intros Va Vb Ya Yb Hle. unfold String.leb.
  rewrite <- (string_append_nil (strftime_ymd a)),
    <- (string_append_nil (strftime_ymd b)).
  rewrite strftime_compare by assumption.
  unfold date_leb in Hle. destruct (date_compare a b); auto; discriminate.
Qed.

Lemma strftime_sorted (ds : list date) :
  Forall (fun d => valid_date d = true /\ (1000 <= year d)%Z) ds ->
  StronglySorted (fun a b => date_leb a b = true) ds ->
  StronglySorted (fun a b => String.leb a b = true) (map strftime_ymd ds).
Proof.
  intros Hv. induction 1 as [|a l Hs IH Ha]; [constructor|].
  inversion Hv as [|? ? [Va Ya] Hv']; subst.
  cbn [map]. constructor; [apply IH, Hv'|].
  rewrite Forall_forall in *. intros t Ht.
  apply in_map_iff in Ht. destruct Ht as (b & <- & Hb).
  destruct (Hv' b Hb) as [Vb Yb].
  apply strftime_monotone; auto.
Qed.

Lemma StronglySorted_of_map {A B} (f : A -> B) (R : B -> B -> Prop)
    (l : list A) :
  StronglySorted R (map f l) ->
  StronglySorted (fun a b => R (f a) (f b)) l.
Proof.
  induction l as [|a l IH]; [constructor|].
  cbn [map]. intros H. inversion H as [|? ? Hs Ha]; subst.
  constructor; [apply IH, Hs|].
  rewrite Forall_forall in *. intros b Hb. apply Ha, in_map, Hb.
Qed.

Lemma StronglySorted_app {A} (R : A -> A -> Prop) (l1 l2 : list A) :
  StronglySorted R l1 -> StronglySorted R l2 ->
  (forall x y, In x l1 -> In y l2 -> R x y) ->
  StronglySorted R (l1 ++ l2).
Proof.
  induction 1 as [|a l1 Hs IH Ha]; intros H2 Hx; [exact H2|].
  cbn [app]. constructor.
  - apply IH; auto. intros x y Hin. apply Hx. right; exact Hin.
  - apply Forall_app. split; [exact Ha|].
    rewrite Forall_forall. intros y Hy. apply Hx; [left; reflexivity|exact Hy].
Qed.

(** The dates of the events between the first purchase and the last sale
    are dates of the series and go upwards. *)
Lemma gap_events_dates (ds : list date) :
  StronglySorted (fun a b => date_leb a b = true) ds ->
  exists dl,
    map ev_date (BuysSells.gap_events ds) = map strftime_ymd dl
    /\ StronglySorted (fun a b => date_leb a b = true) dl
    /\ (forall d, In d dl -> In d ds).
Proof.
  induction 1 as [|a ds Hs IH Ha].
  { exists []. split; [reflexivity|]. split; [constructor|]. intros d []. }
  destruct ds as [|b ds].
  { exists []. split; [reflexivity|]. split; [constructor|]. intros d []. }
  change (BuysSells.gap_events (a :: b :: ds))
    with ((if (days_between a b >? 1)%Z then
             [mkevent sold (strftime_ymd a); mkevent bought (strftime_ymd b)]
           else []) ++ BuysSells.gap_events (b :: ds)).
  destruct IH as (dl & Hmap & Hsort & Hin).
  inversion Hs as [|? ? _ Hb]; subst.
  rewrite Forall_forall in Ha, Hb.
  assert (Hb' : forall d, In d dl -> date_leb b d = true).
  { intros d Hd. destruct (Hin d Hd) as [<-|Hd'];
      [apply date_leb_refl|apply Hb, Hd']. }
  assert (Ha' : forall d, In d dl -> date_leb a d = true).
  { intros d Hd. apply Ha, Hin, Hd. }
  destruct (days_between a b >? 1)%Z.
  - exists (a :: b :: dl). cbn [app map ev_date]. rewrite Hmap.
    split; [reflexivity|]. split.
    + constructor; [constructor; [exact Hsort|]|].
      * apply Forall_forall. exact Hb'.
      * constructor; [apply Ha; left; reflexivity|].
        apply Forall_forall. exact Ha'.
    + intros d [<-|[<-|Hd]]; [left; reflexivity|right; left; reflexivity|].
      right. apply Hin, Hd.
  - exists dl. cbn [app]. split; [exact Hmap|]. split; [exact Hsort|].
    intros d Hd. right. apply Hin, Hd.
Qed.

Lemma strictly_sorted_leb (l : list date) :
  StronglySorted (fun a b => date_ltb a b = true) l ->
  StronglySorted (fun a b => date_leb a b = true) l.
Proof.
  induction 1 as [|a l Hs IH Ha]; constructor; [exact IH|].
  eapply Forall_impl; [|exact Ha]. intros b. apply date_ltb_leb.
Qed.

Lemma last_In {A} (l : list A) (d : A) : l <> [] -> In (last l d) l.
Proof.
  induction l as [|a l IH]; [congruence|]. intros _.
  destruct l as [|b l]; [left; reflexivity|].
  right. apply IH. discriminate.
Qed.

Lemma leb_sorted_last (l : list date) (dflt d : date) :
  StronglySorted (fun a b => date_leb a b = true) l ->
  In d l -> date_leb d (last l dflt) = true.
Proof.
  induction 1 as [|a l Hs' IH Ha]; intros Hin; [destruct Hin|].
  destruct l as [|b l].
  - destruct Hin as [<-|[]]. apply date_leb_refl.
  - change (last (a :: b :: l) dflt) with (last (b :: l) dflt).
    destruct Hin as [<-|Hin]; [|apply IH, Hin].
    rewrite Forall_forall in Ha. apply Ha. apply last_In. discriminate.
Qed.

(** X3.  The events of a series are in chronological order: their dates are
    dates of keys of the series, written by [strftime], and these dates go
    upwards (a sale and the purchase that opened the period may carry the
    same date).  When no key is dated before the year 1000 the dates of the
    events go upwards as texts, too. *)
Theorem events_in_date_order :
  forall (V : Type) (time_series : dict string V) (events : list event),
    BuysSells.find_buy_sell_dates time_series = Some events ->
    exists dates : list date,
      map ev_date events = map strftime_ymd dates
      /\ StronglySorted (fun a b => date_leb a b = true) dates
      /\ Forall
           (fun d =>
              exists k,
                In k (dict_keys time_series)
                /\ BuysSells.parse_timestamp k = Some d)
           dates
      /\ (forallb from_year_1000 (dict_keys time_series) = true ->
          StronglySorted
            (fun a b => String.leb (ev_date a) (ev_date b) = true) events).
Proof.
  intros V ts events H.
  assert (Hgoal : exists dates : list date,
      map ev_date events = map strftime_ymd dates
      /\ StronglySorted (fun a b => date_leb a b = true) dates
      /\ Forall
           (fun d =>
              exists k,
                In k (dict_keys ts)
                /\ BuysSells.parse_timestamp k = Some d)
           dates).
  { destruct (mapM BuysSells.parse_timestamp (dict_keys ts)) as [raw|] eqn:Er.
    2:{ unfold BuysSells.find_buy_sell_dates in H.
        destruct ts as [|p ts]; [|rewrite Er in H; discriminate].
        injection H as <-. exists []. repeat constructor. }
    rewrite (find_buy_sell_dates_of_dates ts Er) in H. injection H as <-.
    set (ds := BuysSells.distinct_sorted raw).
    assert (Hsrc : forall d, In d ds -> exists k,
                 In k (dict_keys ts) /\ BuysSells.parse_timestamp k = Some d).
    { intros d Hd. apply (proj1 (distinct_sorted_In raw d)) in Hd.
      exact (mapM_In_source _ _ Er d Hd). }
    assert (Hs : StronglySorted (fun a b => date_leb a b = true) ds).
    { apply strictly_sorted_leb, distinct_sorted_strict. }
    destruct (gap_events_dates Hs) as (dl & Hmap & Hsort & Hin).
    clearbody ds. destruct ds as [|first_date rest];
      [exists []; repeat constructor|].
    unfold BuysSells.reconstruct. rewrite closing_events_ne.
    set (last_date := last (first_date :: rest) first_date).
    assert (Hlast : In last_date (first_date :: rest))
      by (apply last_In; discriminate).
    assert (Hfirst : forall d, In d (first_date :: rest) ->
                               date_leb first_date d = true).
    { inversion Hs as [|? ? _ Hf]; subst. rewrite Forall_forall in Hf.
      intros d [<-|Hd]; [apply date_leb_refl|apply Hf, Hd]. }
    assert (Hmax : forall d, In d (first_date :: rest) ->
                             date_leb d last_date = true).
    { intros d Hd. apply leb_sorted_last; assumption. }
    exists (first_date :: dl
            ++ (if negb (date_eqb last_date BuysSells.REFERENCE_END_DATE)
                then [last_date] else [])).
    split; [|split].
    - cbn [app map ev_date]. rewrite !map_app, Hmap.
      destruct (negb _); reflexivity.
    - constructor.
      + apply StronglySorted_app; [exact Hsort| |].
        * destruct (negb _); repeat constructor.
        * intros x y Hx Hy. destruct (negb _); [|destruct Hy].
          destruct Hy as [<-|[]]. apply Hmax, Hin, Hx.
      + apply Forall_app. split; apply Forall_forall.
        * intros x Hx. apply Hfirst, Hin, Hx.
        * intros y Hy. destruct (negb _); [|destruct Hy].
          destruct Hy as [<-|[]]. apply Hfirst, Hlast.
    - constructor; [apply Hsrc; left; reflexivity|].
      apply Forall_app. split; apply Forall_forall.
      + intros x Hx. apply Hsrc, Hin, Hx.
      + intros y Hy. destruct (negb _); [|destruct Hy].
        destruct Hy as [<-|[]]. apply Hsrc, Hlast. }
  destruct Hgoal as (dates & Hmap & Hsort & Hsrc).
  exists dates. split; [exact Hmap|]. split; [exact Hsort|].
  split; [exact Hsrc|]. intros Hy.
  apply (@StronglySorted_of_map _ _ ev_date (fun a b => String.leb a b = true)).
  rewrite Hmap. apply strftime_sorted; [|exact Hsort].
  rewrite Forall_forall in *. intros d Hd.
  destruct (Hsrc d Hd) as (k & Hk & Hp).
  split; [exact (strptime_ymd_valid _ Hp)|].
  rewrite forallb_forall in Hy. specialize (Hy k Hk).
  unfold from_year_1000 in Hy. rewrite Hp in Hy. apply Z.leb_le. exact Hy.
Qed.

Lemma events_in_date_order_witness :
  exists dates : list date,
    map ev_date
      [mkevent bought "2025-01-01"; mkevent sold "2025-01-01";
       mkevent bought "2025-03-05"; mkevent sold "2025-03-06"]
    = map strftime_ymd dates
    /\ StronglySorted (fun a b => date_leb a b = true) dates
    /\ Forall
         (fun d =>
            exists k,
              In k (dict_keys [("2025-03-06T00:00:00", 7%Z);
                               ("2025-01-01T00:00:00", 5%Z);
                               ("2025-03-05T00:00:00", 6%Z)])
              /\ BuysSells.parse_timestamp k = Some d)
         dates
    /\ (forallb from_year_1000
          (dict_keys [("2025-03-06T00:00:00", 7%Z);
                      ("2025-01-01T00:00:00", 5%Z);
                      ("2025-03-05T00:00:00", 6%Z)]) = true ->
        StronglySorted
          (fun a b => String.leb (ev_date a) (ev_date b) = true)
          [mkevent bought "2025-01-01"; mkevent sold "2025-01-01";
           mkevent bought "2025-03-05"; mkevent sold "2025-03-06"]).
Proof.
  apply (@events_in_date_order Z
           [("2025-03-06T00:00:00", 7%Z); ("2025-01-01T00:00:00", 5%Z);
            ("2025-03-05T00:00:00", 6%Z)]).
  reflexivity.
Defined.

(** ** Dates written by the scripts *)

Lemma split_T_head_strftime (d : date) :
  valid_date d = true -> split_T_head (strftime_ymd d) = strftime_ymd d.
Proof.
  intros V. pose proof (valid_date_bounds d V) as (Hy & Hm & Hd).
  assert (Hm' : (0 <= month d < 100)%Z) by lia.
  assert (Hd' : (0 <= day d < 100)%Z) by lia.
  destruct (digits2 Hm') as (m1 & m0 & M1 & M0 & _ & F1 & F0).
  destruct (digits2 Hd') as (d1 & d0 & D1 & D0 & _ & G1 & G0).
  unfold strftime_ymd, year_text.
  destruct (Z.ltb_spec (year d) 10) as [H10|H10].
  - assert (Ha : (0 <= year d mod 10 <= 9)%Z) by zdm.
    unfold pad2. rewrite F1, F0, G1, G0.
    cbn [String.append split_T_head].
    rewrite !digit_char_not_T by assumption. reflexivity.
  - destruct (Z.ltb_spec (year d) 100) as [H100|H100].
    + assert (Hy' : (0 <= year d < 100)%Z) by lia.
      destruct (digits2 Hy') as (a1 & a0 & A1 & A0 & _ & E1 & E0).
      unfold pad2. rewrite E1, E0, F1, F0, G1, G0.
      cbn [String.append split_T_head].
      rewrite !digit_char_not_T by assumption. reflexivity.
    + assert (Hy' : (0 <= year d < 10000)%Z) by lia.
      destruct (digits4 Hy') as (a3 & a2 & a1 & a0 & A3 & A2 & A1 & A0 & _
                                 & E3 & E2 & E1 & E0).
      destruct (Z.ltb_spec (year d) 1000) as [H1000|H1000].
      * unfold pad2. rewrite E2, E1, E0, F1, F0, G1, G0.
        cbn [String.append split_T_head].
        rewrite !digit_char_not_T by assumption. reflexivity.
      * unfold pad4, pad2. rewrite E3, E2, E1, E0, F1, F0, G1, G0.
        cbn [String.append split_T_head].
        rewrite !digit_char_not_T by assumption. reflexivity.
Qed.

(** X4.  A date of the year 1000 or later that one script read from a key
    and wrote with [strftime("%Y-%m-%d")] is read back as the same date: by
    [strptime] in the valuation, and by [parse_timestamp] of both scripts,
    also when a time of day follows the date.  A date before the year 1000
    is written with fewer than four digits of year and is not read back:
    [strptime] raises. *)
Theorem written_dates_read_back :
  forall (k time_of_day : string) (d : date),
    BuysSells.parse_timestamp k = Some d ->
    ((1000 <= year d)%Z ->
     strptime_ymd (strftime_ymd d) = Some d
     /\ BuysSells.parse_timestamp (strftime_ymd d) = Some d
     /\ Analysis.parse_timestamp
          (strftime_ymd d ++ String "T" time_of_day)%string
        = Some d)
    /\ ((year d < 1000)%Z ->
        strptime_ymd (strftime_ymd d) = None
        /\ BuysSells.parse_timestamp (strftime_ymd d) = None
        /\ Analysis.parse_timestamp
             (strftime_ymd d ++ String "T" time_of_day)%string
           = None).
Proof.
  intros k tod d H. pose proof (strptime_ymd_valid _ H) as V. split.
  - intros Y. split; [apply strptime_strftime; assumption|]. split.
    + unfold BuysSells.parse_timestamp. rewrite (split_T_head_strftime d V).
      apply strptime_strftime; assumption.
    + destruct (@iso_timestamp_dated d tod V Y) as [Hi Hd].
      unfold iso_dated in Hi. unfold date_of_key in Hd.
      destruct (Analysis.parse_timestamp _) as [d'|]; [|discriminate].
      rewrite Hd. reflexivity.
  - intros Y.
    assert (E : strptime_ymd (strftime_ymd d) = None).
    { rewrite <- (split_T_head_strftime d V).
      rewrite <- (string_append_nil (strftime_ymd d)) at 1.
      apply short_year_refused; assumption. }
    split; [exact E|]. split.
    + unfold BuysSells.parse_timestamp. rewrite (split_T_head_strftime d V).
      exact E.
    + unfold Analysis.parse_timestamp. apply short_year_refused; assumption.
Qed.

Lemma written_dates_read_back_witness :
  strptime_ymd (strftime_ymd (mkdate 2025 3 7)) = Some (mkdate 2025 3 7)
  /\ BuysSells.parse_timestamp (strftime_ymd (mkdate 2025 3 7))
     = Some (mkdate 2025 3 7)
  /\ Analysis.parse_timestamp
       (strftime_ymd (mkdate 2025 3 7) ++ String "T" "08:15:00Z")%string
     = Some (mkdate 2025 3 7).
Proof.
  apply (@written_dates_read_back "2025-3-7T23:00:00" "08:15:00Z"
           (mkdate 2025 3 7)).
  - reflexivity.
  - cbn [year]. lia.
Defined.

(** ** The records of [process_assets] *)

Lemma action_eqb_eq (a b : action) : action_eqb a b = true <-> a = b.
Proof. destruct a, b; cbn; split; congruence. Qed.

Lemma same_result_eq (a b : ProcessAssets.asset_result) :
  same_result a b = true <-> a = b.
Proof.
  split; [|intros <-].
  - destruct a as [n1 t1 f1 l1], b as [n2 t2 f2 l2].
    unfold same_result, result_key, ProcessAssets.unique_key_eqb.
    cbn [ProcessAssets.asset ProcessAssets.first_date ProcessAssets.last_date
         ProcessAssets.transactions].
    rewrite !andb_true_iff, !String.eqb_eq. intros [[[-> ->] ->] Ht].
    f_equal. revert t2 Ht.
    induction t1 as [|e1 t1 IH]; intros [|e2 t2] Ht; cbn in Ht;
      try discriminate; [reflexivity|].
    apply andb_true_iff in Ht. destruct Ht as [He Ht].
    unfold ProcessAssets.trans_eqb in He. cbn [fst snd] in He.
    apply andb_true_iff in He. destruct He as [Ha Hd].
    apply action_eqb_eq in Ha. apply String.eqb_eq in Hd.
    destruct e1, e2. cbn in Ha, Hd. subst. f_equal. apply IH, Ht.
  - destruct a as [n1 t1 f1 l1].
    unfold same_result, result_key, ProcessAssets.unique_key_eqb.
    cbn [ProcessAssets.asset ProcessAssets.first_date ProcessAssets.last_date
         ProcessAssets.transactions].
    rewrite !String.eqb_refl. cbn [andb].
    induction t1 as [|e1 t1 IH]; [reflexivity|]. cbn.
    rewrite IH. unfold ProcessAssets.trans_eqb. cbn [fst snd].
    rewrite String.eqb_refl. destruct (ev_action e1); reflexivity.
Qed.

Lemma visit_line_record (line : node) (st : ProcessAssets.state) :
  ProcessAssets.visit line (Some st)
  = (c <- line_record line ;; ret (record_line st c)).
Proof.
  destruct st as [results seen]. destruct line as [name values subLines].
  unfold ProcessAssets.visit, line_record. cbn [bind node_name].
  destruct name as [name_text|]; [|reflexivity].
  destruct (truthy (Some name_text)); [|reflexivity].
  destruct (extract_asset_time_series _) as [[|p ts]|]; try reflexivity.
  destruct (BuysSells.find_buy_sell_dates (p :: ts)) as [[|e evs]|];
    try reflexivity.
  cbn [bind ret].
  destruct (mapM BuysSells.parse_timestamp (dict_keys (p :: ts))) as [parsed|];
    [|reflexivity].
  cbn [bind ret]. unfold record_line, result_key.
  cbn [fst snd ProcessAssets.asset ProcessAssets.first_date
       ProcessAssets.last_date ProcessAssets.transactions].
  destruct (existsb _ seen); reflexivity.
Qed.

Lemma visit_raised (line : node) : ProcessAssets.visit line None = None.
Proof. reflexivity. Qed.

Lemma walk_raised (ls : list node) :
  fold_left (fun st l => ProcessAssets.visit l st) ls None = None.
Proof. induction ls as [|l ls IH]; [reflexivity|exact IH]. Qed.

Lemma walk_line_records (ls : list node) (st : ProcessAssets.state) :
  fold_left (fun st l => ProcessAssets.visit l st) ls (Some st)
  = (cs <- mapM line_record ls ;; ret (fold_left record_line cs st)).
Proof.
  revert st. induction ls as [|l ls IH]; intros st; [reflexivity|].
  cbn [fold_left mapM]. rewrite visit_line_record.
  destruct (line_record l) as [c|]; cbn [bind ret]; [|apply walk_raised].
  rewrite IH. destruct (mapM line_record ls); reflexivity.
Qed.

Lemma filter_and {A} (f g : A -> bool) (l : list A) :
  filter f (filter g l) = filter (fun x => g x && f x) l.
Proof.
  induction l as [|a l IH]; [reflexivity|]. cbn [filter].
  destruct (g a); cbn [filter andb]; [destruct (f a)|]; rewrite IH; reflexivity.
Qed.

Lemma filter_all {A} (f : A -> bool) (l : list A) :
  (forall x, In x l -> f x = true) -> filter f l = l.
Proof.
  induction l as [|a l IH]; intros H; [reflexivity|]. cbn [filter].
  rewrite (H a (or_introl eq_refl)), IH; [reflexivity|].
  intros x Hx. apply H. right; exact Hx.
Qed.

Lemma existsb_same_In (r : ProcessAssets.asset_result)
    (rs : list ProcessAssets.asset_result) :
  existsb (same_result r) rs = true <-> In r rs.
Proof.
  rewrite existsb_exists. split.
  - intros (x & Hx & E). apply same_result_eq in E. subst. exact Hx.
  - intros H. exists r. split; [exact H|apply same_result_eq; reflexivity].
Qed.

Lemma seen_keys (r : ProcessAssets.asset_result)
    (rs : list ProcessAssets.asset_result) :
  existsb (ProcessAssets.unique_key_eqb (result_key r)) (map result_key rs)
  = existsb (same_result r) rs.
Proof.
  induction rs as [|x rs IH]; [reflexivity|]. cbn [map existsb].
  rewrite IH. reflexivity.
Qed.

Lemma same_result_false (a b : ProcessAssets.asset_result) :
  same_result a b = false <-> a <> b.
Proof.
  rewrite <- same_result_eq. destruct (same_result a b); split; congruence.
Qed.

Lemma record_lines_fold (cs : list (option ProcessAssets.asset_result)) :
  forall rs,
    fold_left record_line cs (rs, map result_key rs)
    = (let rs' := rs ++ filter (fun y => negb (existsb (same_result y) rs))
                          (first_occurrences same_result (somes cs)) in
       (rs', map result_key rs')).
Proof.
  induction cs as [|c cs IH]; intros rs.
  - cbn. rewrite app_nil_r. reflexivity.
  - destruct c as [r|]; [|apply IH].
    cbn [fold_left record_line snd fst]. rewrite seen_keys.
    change (somes (Some r :: cs)) with (r :: somes cs).
    cbn [first_occurrences filter].
    destruct (existsb (same_result r) rs) eqn:E; cbn [negb].
    + rewrite IH. cbv zeta. rewrite filter_and.
      apply existsb_same_In in E.
      rewrite (filter_ext_in
                 (fun x => negb (same_result r x)
                           && negb (existsb (same_result x) rs))
                 (fun y => negb (existsb (same_result y) rs))); [reflexivity|].
      intros y _. destruct (existsb (same_result y) rs) eqn:Ey;
        [apply andb_false_r|].
      rewrite andb_true_r. apply negb_true_iff, same_result_false.
      intros ->. apply existsb_same_In in E. congruence.
    + replace (map result_key rs ++ [result_key r])
        with (map result_key (rs ++ [r])) by (rewrite map_app; reflexivity).
      rewrite IH. cbv zeta. rewrite filter_and, <- app_assoc. cbn [app].
      rewrite (filter_ext
                 (fun y => negb (existsb (same_result y) (rs ++ [r])))
                 (fun x => negb (same_result r x)
                           && negb (existsb (same_result x) rs))); [reflexivity|].
      intros y. rewrite existsb_app. cbn [existsb]. rewrite orb_false_r.
      rewrite negb_orb, andb_comm. f_equal. f_equal.
      destruct (same_result y r) eqn:E1.
      * apply same_result_eq in E1. subst. symmetry.
        apply same_result_eq. reflexivity.
      * apply same_result_false in E1. symmetry. apply same_result_false.
        congruence.
Qed.

Lemma walk_keeps_first (lines : list node) :
  (st <- walk_lines ProcessAssets.visit lines (ret ([], [])) ;; ret (fst st))
  = (cs <- mapM line_record (preorder lines) ;;
     ret (first_occurrences same_result (somes cs))).
Proof.
  rewrite walk_lines_preorder.
  change (ret (@nil ProcessAssets.asset_result, @nil ProcessAssets.unique_key))
    with (Some (@nil ProcessAssets.asset_result, @nil ProcessAssets.unique_key)).
  rewrite walk_line_records.
  destruct (mapM line_record (preorder lines)) as [cs|]; [|reflexivity].
  cbn [bind ret].
  change (@nil ProcessAssets.unique_key) with (map result_key []).
  rewrite (record_lines_fold cs []). cbv zeta. cbn [fst app].
  rewrite filter_all; [reflexivity|]. reflexivity.
Qed.

(** What [process_assets] returns, when it returns. *)
Lemma process_assets_result (calls : ProcessAssets.state -> node -> nat)
    (frames : nat) (lines : list node)
    (results : list ProcessAssets.asset_result) :
  ProcessAssets.process_assets calls frames lines = Some results ->
  exists cs,
    mapM line_record (preorder lines) = Some cs
    /\ results = first_occurrences same_result (somes cs).
Proof.
  intros H. apply process_assets_returned in H.
  rewrite walk_keeps_first in H.
  destruct (mapM line_record (preorder lines)) as [cs|]; [|discriminate].
  injection H as <-. exists cs. split; reflexivity.
Qed.

(** X5.  When [process_assets] returns, it returns the records of the lines
    of the report in pre-order, each record once, at the place of its first
    occurrence.  It returns them, or raises because the record of some line
    raises, when the frames left suffice for the depth of the report and the
    calls made to treat a line. *)
Theorem process_assets_keeps_first_records :
  forall (calls : ProcessAssets.state -> node -> nat) (frames : nat)
         (lines : list node),
    (forall results,
        ProcessAssets.process_assets calls frames lines = Some results ->
        exists cs,
          mapM line_record (preorder lines) = Some cs
          /\ results = first_occurrences same_result (somes cs))
    /\ (forall bound,
          (forall st line, calls st line <= bound) ->
          depth lines + bound < frames ->
          ProcessAssets.process_assets calls frames lines
          = (cs <- mapM line_record (preorder lines) ;;
             ret (first_occurrences same_result (somes cs)))).
Proof.
  intros calls frames lines. split.
  - intros results. apply process_assets_result.
  - intros bound Hb H.
    rewrite (@process_assets_enough_frames calls bound frames lines Hb H).
    apply walk_keeps_first.
Qed.

Lemma first_occurrences_In {A} (same : A -> A -> bool) (l : list A) (x : A) :
  In x (first_occurrences same l) -> In x l.
Proof.
  revert x. induction l as [|a l IH]; intros x H; [exact H|].
  cbn [first_occurrences] in H. destruct H as [<-|H]; [left; reflexivity|].
  apply filter_In in H. right. apply IH, H.
Qed.

Lemma first_occurrences_NoDup {A} (same : A -> A -> bool) (l : list A) :
  (forall x, same x x = true) -> NoDup (first_occurrences same l).
Proof.
  intros Hrefl. induction l as [|a l IH]; [constructor|].
  cbn [first_occurrences]. constructor.
  - intros H. apply filter_In in H. destruct H as [_ H].
    rewrite Hrefl in H. discriminate.
  - apply NoDup_filter, IH.
Qed.

Lemma somes_In {A} (l : list (option A)) (x : A) :
  In x (somes l) <-> In (Some x) l.
Proof.
  unfold somes. rewrite in_flat_map. split.
  - intros ([y|] & Hy & Hx); [|destruct Hx].
    destruct Hx as [<-|[]]. exact Hy.
  - intros H. exists (Some x). split; [exact H|left; reflexivity].
Qed.

Lemma mapM_In_result {A B} (f : A -> exn B) (l : list A) :
  forall l', mapM f l = Some l' ->
  forall a, In a l -> exists b, f a = Some b /\ In b l'.
Proof.
  induction l as [|a0 l IH]; intros l' H a Ha; [destruct Ha|].
  cbn [mapM] in H.
  destruct (f a0) as [b0|] eqn:Ea; [|discriminate].
  destruct (mapM f l) as [bs|]; [|discriminate].
  injection H as <-. destruct Ha as [<-|Ha].
  - exists b0. split; [exact Ea|left; reflexivity].
  - destruct (IH bs eq_refl a Ha) as (b & Hb & Hin).
    exists b. split; [exact Hb|right; exact Hin].
Qed.

Lemma mapM_None_iff {A B} (f : A -> exn B) (l : list A) :
  mapM f l = None <-> exists a, In a l /\ f a = None.
Proof.
  induction l as [|a0 l IH]; cbn [mapM].
  - split; [discriminate|intros (a & [] & _)].
  - destruct (f a0) as [b0|] eqn:Ea.
    + destruct (mapM f l) as [bs|].
      * split; [discriminate|]. intros (a & [<-|Ha] & Hf); [congruence|].
        assert (X : Some bs = None) by (apply (proj2 IH); exists a; auto).
        discriminate.
      * split; [|reflexivity]. intros _.
        destruct (proj1 IH eq_refl) as (a & Ha & Hf). exists a. split; auto.
        right; exact Ha.
    + split; [|reflexivity]. intros _. exists a0. split; auto. left; reflexivity.
Qed.

(** X6.  No record is returned twice. *)
Theorem process_assets_records_distinct :
  forall (calls : ProcessAssets.state -> node -> nat) (frames : nat)
         (lines : list node) (results : list ProcessAssets.asset_result),
    ProcessAssets.process_assets calls frames lines = Some results ->
    NoDup results.
Proof.
  intros calls frames lines results H.
  destruct (process_assets_result _ _ _ H) as (cs & _ & ->).
  apply first_occurrences_NoDup.
  intros x. apply same_result_eq. reflexivity.
Qed.

Lemma process_assets_records_distinct_witness :
  NoDup [ProcessAssets.mkasset_result "Fund A"
           [mkevent bought "2025-01-01"; mkevent sold "2025-01-02"]
           "2025-01-01" "2025-01-02"].
Proof.
  apply (@process_assets_records_distinct (fun _ _ => 10) 20
           [Node None [] [fund_line]; fund_line]).
  reflexivity.
Defined.

(** The events of a series, by the earliest and the latest date of its
    keys. *)
Lemma find_buy_sell_dates_min_max (V : Type) (time_series : dict string V)
    (a : date) (raw : list date) :
  mapM BuysSells.parse_timestamp (dict_keys time_series) = Some (a :: raw) ->
  BuysSells.find_buy_sell_dates time_series
  = Some (mkevent bought (strftime_ymd (ProcessAssets.min_date (a :: raw)))
          :: BuysSells.gap_events (sorted date_leb (a :: raw))
          ++ (if date_eqb (ProcessAssets.max_date (a :: raw))
                   BuysSells.REFERENCE_END_DATE
              then []
              else [mkevent sold
                      (strftime_ymd (ProcessAssets.max_date (a :: raw)))])).
Proof.
  intros Hraw. rewrite (find_buy_sell_dates_parsed time_series Hraw).
  pose proof (max_date_last_sorted a raw) as Hmax.
  destruct (min_date_head_sorted a raw) as [rest Es].
  rewrite Es in *.
  set (first_date := ProcessAssets.min_date (a :: raw)) in *.
  destruct (squash_head first_date rest) as [t Ht].
  assert (Hlast : last (first_date :: rest) first_date
                  = ProcessAssets.max_date (a :: raw)).
  { rewrite (last_last_opt first_date) in Hmax by discriminate.
    injection Hmax as Hmax. exact Hmax. }
  unfold BuysSells.reconstruct. rewrite Ht. rewrite <- Ht.
  rewrite gap_events_squash, squash_last, closing_events_ne, Hlast.
  destruct (date_eqb _ _); reflexivity.
Qed.

Lemma Some_inj {A} (a b : A) : Some a = Some b -> a = b.
Proof. congruence. Qed.

Lemma line_record_inv (line : node) (r : ProcessAssets.asset_result) :
  line_record line = Some (Some r) ->
  exists time_series a raw,
    node_name line = Some (ProcessAssets.asset r)
    /\ ProcessAssets.asset r <> EmptyString
    /\ extract_asset_time_series line = Some time_series
    /\ BuysSells.find_buy_sell_dates time_series
       = Some (ProcessAssets.transactions r)
    /\ mapM BuysSells.parse_timestamp (dict_keys time_series) = Some (a :: raw)
    /\ ProcessAssets.first_date r
       = strftime_ymd (ProcessAssets.min_date (a :: raw))
    /\ ProcessAssets.last_date r
       = strftime_ymd (ProcessAssets.max_date (a :: raw)).
Proof.
  unfold line_record. intros H.
  destruct (node_name line) as [name_text|] eqn:En; [|discriminate].
  destruct (truthy (Some name_text)) eqn:Et; [|discriminate].
  destruct (extract_asset_time_series line) as [[|p ts]|] eqn:Ex;
    try discriminate.
  destruct (BuysSells.find_buy_sell_dates (p :: ts)) as [[|e evs]|] eqn:Ef;
    try discriminate.
  cbn [bind ret] in H.
  destruct (mapM BuysSells.parse_timestamp (dict_keys (p :: ts)))
    as [[|a raw]|] eqn:Em; try discriminate.
  { cbn [dict_keys map mapM] in Em.
    destruct (BuysSells.parse_timestamp (fst p)); [|discriminate].
    destruct (mapM _ _); discriminate. }
  cbn [bind ret] in H. injection H as <-.
  exists (p :: ts), a, raw.
  cbn [ProcessAssets.asset ProcessAssets.transactions ProcessAssets.first_date
       ProcessAssets.last_date].
  repeat split; try reflexivity; try assumption.
  intros ->. discriminate.
Qed.

(** X7.  Every record of [process_assets] carries the non-empty name of a line of
    the report and the events of that line's time series.  Its first event is
    [bought] at the record's [first_date]; its last event is [sold] at the
    record's [last_date], unless the position is open: then the last event is
    [bought] and [last_date] is the reference end date. *)
Theorem process_assets_record_dates :
  forall (calls : ProcessAssets.state -> node -> nat) (frames : nat)
         (lines : list node) (results : list ProcessAssets.asset_result),
    ProcessAssets.process_assets calls frames lines = Some results ->
    Forall
      (fun r =>
         exists line time_series rest e,
           In line (preorder lines)
           /\ node_name line = Some (ProcessAssets.asset r)
           /\ ProcessAssets.asset r <> EmptyString
           /\ extract_asset_time_series line = Some time_series
           /\ BuysSells.find_buy_sell_dates time_series
              = Some (ProcessAssets.transactions r)
           /\ ProcessAssets.transactions r
              = mkevent bought (ProcessAssets.first_date r) :: rest
           /\ last_opt (ProcessAssets.transactions r) = Some e
           /\ (e = mkevent sold (ProcessAssets.last_date r)
               \/ (ev_action e = bought
                   /\ ProcessAssets.last_date r = "2025-11-29")))
      results.
Proof.
  intros calls frames lines results H.
  destruct (process_assets_result _ _ _ H) as (cs & Ecs & ->).
  rewrite Forall_forall. intros r Hr.
  apply first_occurrences_In, somes_In in Hr.
  destruct (mapM_In_source _ _ Ecs _ Hr) as (line & Hline & Hrec).
  destruct (line_record_inv _ Hrec)
    as (ts & a & raw & Hn & Hne & Hx & Hf & Hm & Hfirst & Hlast).
  pose proof (find_buy_sell_dates_min_max ts Hm) as Hshape.
  rewrite Hf in Hshape. apply Some_inj in Hshape.
  rewrite <- Hfirst in Hshape.
  destruct (date_eqb (ProcessAssets.max_date (a :: raw))
              BuysSells.REFERENCE_END_DATE) eqn:Eref.
  - rewrite app_nil_r in Hshape.
    destruct (last_opt_gap_events (sorted date_leb (a :: raw))
                (mkevent bought (ProcessAssets.first_date r)) eq_refl)
      as (e & He & Ha).
    exists line, ts, (BuysSells.gap_events (sorted date_leb (a :: raw))), e.
    rewrite Hshape. repeat split; try assumption; try reflexivity.
    + rewrite <- Hshape. exact Hf.
    + right. split; [exact Ha|]. rewrite Hlast.
      apply date_eqb_eq in Eref. rewrite Eref. reflexivity.
  - rewrite <- Hlast in Hshape.
    exists line, ts,
      (BuysSells.gap_events (sorted date_leb (a :: raw))
       ++ [mkevent sold (ProcessAssets.last_date r)]),
      (mkevent sold (ProcessAssets.last_date r)).
    rewrite Hshape. repeat split; try assumption; try reflexivity.
    + rewrite <- Hshape. exact Hf.
    + exact (last_opt_app_one
               (mkevent bought (ProcessAssets.first_date r)
                :: BuysSells.gap_events (sorted date_leb (a :: raw))) _).
    + left; reflexivity.
Qed.

Lemma process_assets_record_dates_witness :
  Forall
    (fun r =>
       exists line time_series rest e,
         In line (preorder [Node None [] [fund_line]])
         /\ node_name line = Some (ProcessAssets.asset r)
         /\ ProcessAssets.asset r <> EmptyString
         /\ extract_asset_time_series line = Some time_series
         /\ BuysSells.find_buy_sell_dates time_series
            = Some (ProcessAssets.transactions r)
         /\ ProcessAssets.transactions r
            = mkevent bought (ProcessAssets.first_date r) :: rest
         /\ last_opt (ProcessAssets.transactions r) = Some e
         /\ (e = mkevent sold (ProcessAssets.last_date r)
             \/ (ev_action e = bought
                 /\ ProcessAssets.last_date r = "2025-11-29")))
    [ProcessAssets.mkasset_result "Fund A"
       [mkevent bought "2025-01-01"; mkevent sold "2025-01-02"]
       "2025-01-01" "2025-01-02"].
Proof.
  apply (@process_assets_record_dates (fun _ _ => 10) 20
           [Node None [] [fund_line]]).
  reflexivity.
Defined.

Lemma line_record_raises (line : node) :
  line_record line = None
  <-> truthy (node_name line) = true
      /\ exists time_series k,
           extract_asset_time_series line = Some time_series
           /\ In k (dict_keys time_series)
           /\ BuysSells.parse_timestamp k = None.
Proof.
  unfold line_record.
  destruct (node_name line) as [name_text|] eqn:En.
  2:{ split; [discriminate|]. intros [H _]. discriminate. }
  destruct (truthy (Some name_text)) eqn:Et.
  2:{ split; [discriminate|]. intros [H _]. discriminate. }
  destruct (extract_asset_time_series line) as [[|p ts]|] eqn:Ex.
  - split; [discriminate|]. intros (_ & t & k & Hx & Hk & _).
    injection Hx as <-. destruct Hk.
  - destruct (mapM BuysSells.parse_timestamp (dict_keys (p :: ts)))
      as [raw|] eqn:Em.
    + rewrite (find_buy_sell_dates_parsed (p :: ts) Em). cbn [bind].
      split.
      * destruct (BuysSells.reconstruct _ _); discriminate.
      * intros (_ & t & k & Hx & Hk & Hp). injection Hx as <-.
        assert (X : mapM BuysSells.parse_timestamp (dict_keys (p :: ts)) = None)
          by (apply mapM_None_iff; exists k; auto).
        congruence.
    + assert (Hf : BuysSells.find_buy_sell_dates (p :: ts) = None).
      { unfold BuysSells.find_buy_sell_dates. rewrite Em. reflexivity. }
      rewrite Hf. split; [|reflexivity]. intros _. split; [reflexivity|].
      apply mapM_None_iff in Em. destruct Em as (k & Hk & Hp).
      exists (p :: ts), k. auto.
  - split; [discriminate|]. intros (_ & t & k & Hx & _). discriminate.
Qed.

(** X8.  [process_assets] raises when some line of the report, at any depth,
    has a non-empty name and a time series one of whose keys is not a date:
    one such key aborts the whole run, whatever the other lines hold.  When
    the frames left suffice for the depth of the report and the calls made to
    treat a line, this is the only case in which it raises. *)
Theorem process_assets_raises_on_a_bad_key :
  forall (calls : ProcessAssets.state -> node -> nat) (frames : nat)
         (lines : list node),
    ((exists line time_series k,
         In line (preorder lines)
         /\ truthy (node_name line) = true
         /\ extract_asset_time_series line = Some time_series
         /\ In k (dict_keys time_series)
         /\ BuysSells.parse_timestamp k = None) ->
     ProcessAssets.process_assets calls frames lines = None)
    /\ (forall bound,
          (forall st line, calls st line <= bound) ->
          depth lines + bound < frames ->
          ProcessAssets.process_assets calls frames lines = None ->
          exists line time_series k,
            In line (preorder lines)
            /\ truthy (node_name line) = true
            /\ extract_asset_time_series line = Some time_series
            /\ In k (dict_keys time_series)
            /\ BuysSells.parse_timestamp k = None).
Proof.
  intros calls frames lines. split.
  - intros (line & ts & k & Hin & Ht & Hx & Hk & Hp).
    destruct (ProcessAssets.process_assets calls frames lines)
      as [results|] eqn:E; [|reflexivity].
    destruct (process_assets_result _ _ _ E) as (cs & Ecs & _).
    assert (X : mapM line_record (preorder lines) = None).
    { apply mapM_None_iff. exists line. split; [exact Hin|].
      apply line_record_raises. split; [exact Ht|]. exists ts, k. auto. }
    congruence.
  - intros bound Hb H.
    rewrite (@process_assets_enough_frames calls bound frames lines Hb H).
    rewrite walk_keeps_first. intros E.
    assert (X : mapM line_record (preorder lines) = None).
    { destruct (mapM line_record (preorder lines)); [discriminate|reflexivity]. }
    apply mapM_None_iff in X. destruct X as (line & Hin & Hr).
    apply line_record_raises in Hr.
    destruct Hr as (Ht & ts & k & Hx & Hk & Hp). exists line, ts, k. auto.
Qed.

(** ** The lookup of the nearest past date, on any series *)

Lemma scan_keys_never_later (target : date) (sorted_keys : list string) :
  forall best k,
    Analysis.scan_keys target sorted_keys best = Some (Some k) ->
    (In k sorted_keys
     /\ exists d, Analysis.parse_timestamp k = Some d
                  /\ date_leb d target = true)
    \/ best = Some k.
Proof.
  induction sorted_keys as [|ts_key rest IH]; intros best k H.
  - right. cbn [Analysis.scan_keys] in H. unfold ret in H. congruence.
  - cbn [Analysis.scan_keys] in H.
    destruct (Analysis.parse_timestamp ts_key) as [ts_date|] eqn:Ep;
      [|discriminate].
    cbn [bind] in H.
    destruct (date_eqb ts_date target) eqn:Eeq.
    { unfold ret in H. injection H as <-. left. split; [left; reflexivity|].
      exists ts_date. split; [exact Ep|].
      apply date_eqb_eq in Eeq. subst. apply date_leb_refl. }
    destruct (date_ltb ts_date target) eqn:Elt.
    + assert (Hk : In ts_key (ts_key :: rest)
                   /\ exists d, Analysis.parse_timestamp ts_key = Some d
                                /\ date_leb d target = true).
      { split; [left; reflexivity|]. exists ts_date.
        split; [exact Ep|apply date_ltb_leb, Elt]. }
      destruct (date_ltb target ts_date).
      * unfold ret in H. injection H as <-. left. exact Hk.
      * destruct (IH _ _ H) as [(Hin & Hd)|Hb].
        -- left. split; [right; exact Hin|exact Hd].
        -- injection Hb as <-. left. exact Hk.
    + destruct (date_ltb target ts_date).
      * right. unfold ret in H. congruence.
      * destruct (IH _ _ H) as [(Hin & Hd)|Hb]; [left|right; exact Hb].
        split; [right; exact Hin|exact Hd].
Qed.

(** X9.  Whatever the keys of the series look like, a key returned by
    [find_timestamp_key] is a key of the series whose date is the requested
    date or an earlier one: the lookup never returns a later date. *)
Theorem find_timestamp_key_never_later :
  forall (V : Type) (date_str : string) (time_series : dict string V)
         (k : string),
    Analysis.find_timestamp_key date_str time_series = Some (Some k) ->
    In k (dict_keys time_series)
    /\ exists d target,
         strptime_ymd date_str = Some target
         /\ Analysis.parse_timestamp k = Some d
         /\ date_leb d target = true.
Proof.
  intros V date_str ts k H. unfold Analysis.find_timestamp_key in H.
  destruct (strptime_ymd date_str) as [target|]; [|discriminate].
  cbn [bind] in H.
  destruct (scan_keys_never_later _ _ _ H) as [(Hin & d & Hp & Hle)|Hb];
    [|discriminate].
  split; [apply (sorted_In String.leb), Hin|].
  exists d, target. auto.
Qed.

Lemma find_timestamp_key_never_later_witness :
  In "2025-1-5T00:00:00"
    (dict_keys [("2025-10-01T00:00:00", 3%Z); ("2025-1-5T00:00:00", 4%Z)])
  /\ exists d target,
       strptime_ymd "2025-02-01" = Some target
       /\ Analysis.parse_timestamp "2025-1-5T00:00:00" = Some d
       /\ date_leb d target = true.
Proof.
  apply (@find_timestamp_key_never_later Z "2025-02-01"
           [("2025-10-01T00:00:00", 3%Z); ("2025-1-5T00:00:00", 4%Z)]).
  reflexivity.
Defined.

(** ** One detail record for each purchase *)

(** X10.  Whenever the valuation returns, its result carries the asset's name
    and, on a non-empty NAV series, no error and one detail record for each
    [bought] event, in the order of the events and with the date of its
    event; on an empty NAV series it reports the error and no detail,
    whatever the events are. *)
Theorem details_follow_bought_events :
  forall (num : Type) (zero : num) (add sub : num -> num -> num)
         (gt_zero : num -> bool) (asset_name : string)
         (transactions : list event) (nav_time_series : dict string num)
         (purchase_price : option num) (r : Analysis.profit_data num),
    Analysis.calculate_profit_and_prices zero add sub gt_zero asset_name
      transactions nav_time_series purchase_price = Some r ->
    Analysis.asset r = asset_name
    /\ (nav_time_series = [] ->
        Analysis.error r = Some "No NAV time series found"
        /\ Analysis.transactions_detail r = [])
    /\ (nav_time_series <> [] ->
        Analysis.error r = None
        /\ map (@Analysis.buy_date num) (Analysis.transactions_detail r)
           = map ev_date (filter is_bought transactions)).
Proof.
  intros num zero add sub gt_zero asset_name T nav pp r H.
  rewrite calculate_profit_and_prices_walk in H.
  destruct nav as [|p nav].
  - injection H as <-. cbn. split; [reflexivity|]. split; [auto|congruence].
  - destruct (pair_events zero add sub gt_zero (p :: nav) pp T) as [ds|] eqn:Ed;
      [|discriminate].
    cbn [bind ret] in H. injection H as <-.
    cbn [Analysis.asset Analysis.error Analysis.transactions_detail].
    split; [reflexivity|]. split; [discriminate|]. intros _.
    split; [reflexivity|]. exact (pair_events_buy_dates _ _ _ _ _ _ _ Ed).
Qed.

Lemma details_follow_bought_events_witness :
  exists r,
    Analysis.calculate_profit_and_prices 0%Z Z.add Z.sub positive "Fund A"
      sample_events sample_nav None = Some r
    /\ Analysis.asset r = "Fund A"
    /\ (sample_nav = [] ->
        Analysis.error r = Some "No NAV time series found"
        /\ Analysis.transactions_detail r = [])
    /\ (sample_nav <> [] ->
        Analysis.error r = None
        /\ map (@Analysis.buy_date Z) (Analysis.transactions_detail r)
           = map ev_date (filter is_bought sample_events)).
Proof.
  destruct (Analysis.calculate_profit_and_prices 0%Z Z.add Z.sub positive
              "Fund A" sample_events sample_nav None) as [r|] eqn:E.
  - exists r. split; [reflexivity|].
    exact (@details_follow_bought_events Z 0%Z Z.add Z.sub positive "Fund A"
             sample_events sample_nav None r E).
  - vm_compute in E. discriminate.
Defined.

(** ** From the reconstruction to the valuation *)

Lemma alternating_events_all_used (events : list event) :
  forall i,
    alternates bought events = true ->
    used_indices (pair_indices i events) = seq i (List.length events).
Proof.
  induction events as [|e rest Ee IH|e Ee|e s rest Ee Es IH|e s rest Ee Es IH]
    using pairing_ind; intros i H.
  - reflexivity.
  - cbn [alternates] in H. rewrite Ee in H. discriminate.
  - cbn [pair_indices]. rewrite Ee. reflexivity.
  - cbn [alternates other_action] in H. rewrite Ee, Es in H.
    cbn [action_eqb andb] in H.
    cbn [pair_indices]. rewrite Ee, Es. cbn [action_eqb].
    cbn [used_indices flat_map fst snd app List.length seq].
    f_equal. f_equal. apply IH, H.
  - cbn [alternates other_action] in H. rewrite Ee, Es in H.
    cbn [action_eqb andb] in H. discriminate.
Qed.

(** X11.  The events that [find_buy_sell_dates] reconstructs from a series
    without a key before the year 1000 can be valued against any non-empty
    NAV series with ISO-8601 keys: the valuation does not raise, it returns
    one detail record per pair of events, and every event is used by a pair,
    so that no [sold] is left out and only the last purchase can be closed
    at the last NAV date. *)
Theorem reconstructed_events_are_all_paired :
  forall (num : Type) (zero : num) (add sub : num -> num -> num)
         (gt_zero : num -> bool) (asset_name : string) (V : Type)
         (time_series : dict string V) (nav_time_series : dict string num)
         (purchase_price : option num) (events : list event),
    forallb from_year_1000 (dict_keys time_series) = true ->
    BuysSells.find_buy_sell_dates time_series = Some events ->
    forallb iso_dated (dict_keys nav_time_series) = true ->
    nav_time_series <> [] ->
    exists r,
      Analysis.calculate_profit_and_prices zero add sub gt_zero asset_name
        events nav_time_series purchase_price = Some r
      /\ Forall2
           (detail_of_pair zero add sub gt_zero nav_time_series purchase_price
              events)
           (pair_indices 0 events) (Analysis.transactions_detail r)
      /\ used_indices (pair_indices 0 events) = seq 0 (List.length events).
Proof.
  intros num zero add sub gt_zero asset_name V ts nav pp events
    Hy Hev Hiso Hne.
  pose proof (find_buy_sell_dates_dated ts Hy Hev) as Hdates.
  destruct (@pair_events_ok num zero add sub gt_zero nav pp Hiso Hne
              events Hdates events 0 (fun j => eq_refl))
    as (ds & Hds & Hf).
  rewrite calculate_profit_and_prices_walk.
  destruct nav as [|p nav]; [congruence|].
  rewrite Hds. cbn [bind ret].
  eexists. split; [reflexivity|]. cbn [Analysis.transactions_detail].
  split; [exact Hf|].
  apply alternating_events_all_used.
  destruct ts as [|q ts].
  - injection Hev as <-. reflexivity.
  - destruct (mapM BuysSells.parse_timestamp (dict_keys (q :: ts)))
      as [[|a raw]|] eqn:Hraw.
    + cbn [dict_keys map mapM] in Hraw.
      destruct (BuysSells.parse_timestamp (fst q)); [|discriminate].
      destruct (mapM _ _); discriminate.
    + rewrite (find_buy_sell_dates_min_max (q :: ts) Hraw) in Hev.
      apply Some_inj in Hev. subst events.
      cbn [alternates ev_action action_eqb andb other_action].
      rewrite alternates_gap_events.
      destruct (date_eqb _ _); reflexivity.
    + unfold BuysSells.find_buy_sell_dates in Hev. rewrite Hraw in Hev.
      discriminate.
Qed.

Lemma reconstructed_events_are_all_paired_witness :
  exists r,
    Analysis.calculate_profit_and_prices 0%Z Z.add Z.sub positive "Fund A"
      [mkevent bought "2025-01-01"; mkevent sold "2025-01-02";
       mkevent bought "2025-01-09"; mkevent sold "2025-01-09"]
      sample_nav None = Some r
    /\ Forall2
         (detail_of_pair 0%Z Z.add Z.sub positive sample_nav None
            [mkevent bought "2025-01-01"; mkevent sold "2025-01-02";
             mkevent bought "2025-01-09"; mkevent sold "2025-01-09"])
         (pair_indices 0
            [mkevent bought "2025-01-01"; mkevent sold "2025-01-02";
             mkevent bought "2025-01-09"; mkevent sold "2025-01-09"])
         (Analysis.transactions_detail r)
    /\ used_indices
         (pair_indices 0
            [mkevent bought "2025-01-01"; mkevent sold "2025-01-02";
             mkevent bought "2025-01-09"; mkevent sold "2025-01-09"])
       = seq 0 4.
Proof.
  apply (@reconstructed_events_are_all_paired Z 0%Z Z.add Z.sub positive
           "Fund A" json
           [("2025-01-01T00:00:00", JInt 10); ("2025-01-02T00:00:00", JInt 11);
            ("2025-01-09T00:00:00", JInt 12)]
           sample_nav None).
  - reflexivity.
  - reflexivity.
  - reflexivity.
  - discriminate.
Defined.

(** ** The valuation reads the NAV series as a dictionary *)

Section SortedUnique.
Variable A : Type.
Variable leb : A -> A -> bool.
Hypothesis leb_total : forall x y, leb x y = true \/ leb y x = true.
Hypothesis leb_trans :
  forall x y z, leb x y = true -> leb y z = true -> leb x z = true.
Hypothesis leb_antisym :
  forall x y, leb x y = true -> leb y x = true -> x = y.

Lemma sorted_permutation_unique (l1 l2 : list A) :
  StronglySorted (fun x y => leb x y = true) l1 ->
  StronglySorted (fun x y => leb x y = true) l2 ->
  Permutation l1 l2 -> l1 = l2.
Proof.
  intros S1. revert l2.
  induction S1 as [|x l1 S1 IH H1]; intros l2 S2 HP.
  - apply Permutation_nil in HP. congruence.
  - destruct S2 as [|y l2 S2 H2].
    + apply Permutation_sym, Permutation_nil in HP. discriminate.
    + rewrite Forall_forall in H1, H2.
      assert (x = y) as ->.
      { assert (Hx : In x (y :: l2))
          by (eapply Permutation_in; [exact HP|left; reflexivity]).
        assert (Hy : In y (x :: l1))
          by (eapply Permutation_in;
              [apply Permutation_sym, HP|left; reflexivity]).
        destruct Hx as [E|Hx]; [congruence|].
        destruct Hy as [E|Hy]; [congruence|].
        apply leb_antisym; [apply H1, Hy|apply H2, Hx]. }
      f_equal. apply IH; [exact S2|].
      eapply Permutation_cons_inv, HP.
Qed.

Lemma sorted_of_permutation (l1 l2 : list A) :
  Permutation l1 l2 -> sorted leb l1 = sorted leb l2.
Proof.
  intros HP. apply sorted_permutation_unique.
  - apply sorted_sorted; assumption.
  - apply sorted_sorted; assumption.
  - eapply perm_trans; [apply sorted_perm|].
    eapply perm_trans; [exact HP|apply Permutation_sym, sorted_perm].
Qed.
End SortedUnique.

Lemma string_leb_antisym (a b : string) :
  String.leb a b = true -> String.leb b a = true -> a = b.
Proof.
  unfold String.leb. rewrite (String.compare_antisym b a).
  destruct (String.compare a b) eqn:E; cbn; try discriminate.
  intros _ _. apply String.compare_eq_iff, E.
Qed.

Lemma dict_get_keys {V} (d : dict string V) (k : string) :
  In k (dict_keys d) <-> dict_get String.eqb d k <> None.
Proof.
  induction d as [|[k' v'] d IH]; cbn [dict_keys map In dict_get fst].
  - split; [tauto|congruence].
  - destruct (String.eqb k' k) eqn:E.
    + apply String.eqb_eq in E. split; [discriminate|auto].
    + apply String.eqb_neq in E. unfold dict_keys in IH. rewrite <- IH.
      split; [intros [H|H]; [congruence|exact H]|auto].
Qed.

Lemma same_dict_same_sorted_keys {V} (d d' : dict string V) :
  NoDup (dict_keys d) -> NoDup (dict_keys d') ->
  (forall k, dict_get String.eqb d k = dict_get String.eqb d' k) ->
  sorted String.leb (dict_keys d) = sorted String.leb (dict_keys d').
Proof.
  intros N N' H.
  apply sorted_of_permutation;
    [apply String.leb_total|apply string_leb_trans|apply string_leb_antisym|].
  apply NoDup_Permutation; [exact N|exact N'|].
  intros k. rewrite !dict_get_keys, H. tauto.
Qed.

Section SameDict.
Import Analysis.
Variable num : Type.
Variable zero : num.
Variable add sub : num -> num -> num.
Variable gt_zero : num -> bool.
Variable nav nav' : dict string num.
Variable purchase_price_arg : option num.
Hypothesis same_keys :
  sorted String.leb (dict_keys nav) = sorted String.leb (dict_keys nav').
Hypothesis same_values :
  forall k, dict_get String.eqb nav k = dict_get String.eqb nav' k.

Lemma find_timestamp_key_same (date_str : string) :
  find_timestamp_key date_str nav = find_timestamp_key date_str nav'.
Proof. unfold find_timestamp_key. rewrite same_keys. reflexivity. Qed.

Lemma nav_or_zero_same (ts : option string) :
  nav_or_zero zero nav ts = nav_or_zero zero nav' ts.
Proof.
  unfold nav_or_zero. destruct ts as [k|]; [|reflexivity].
  rewrite same_values. reflexivity.
Qed.

Lemma holding_period_same (T : list event) (i : nat) :
  holding_period zero add sub gt_zero T nav purchase_price_arg i
  = holding_period zero add sub gt_zero T nav' purchase_price_arg i.
Proof.
  unfold holding_period.
  rewrite <- find_timestamp_key_same.
  destruct (find_timestamp_key _ nav) as [buy_ts|]; [|reflexivity].
  cbn [bind]. rewrite <- nav_or_zero_same.
  destruct ((i + 1 <? List.length T)%nat
            && action_eqb (ev_action (nth (i + 1) T no_event)) sold).
  - rewrite <- find_timestamp_key_same.
    destruct (find_timestamp_key (ev_date (nth (i + 1) T no_event)) nav)
      as [sell_ts|]; [|reflexivity].
    cbn [bind]. rewrite <- nav_or_zero_same. reflexivity.
  - rewrite <- same_keys.
    destruct (last_opt _) as [last_ts|]; [|reflexivity]. cbn [bind].
    destruct (parse_timestamp last_ts); [|reflexivity]. cbn [bind].
    rewrite <- same_values. reflexivity.
Qed.

Lemma pair_events_same (events : list event) :
  pair_events zero add sub gt_zero nav purchase_price_arg events
  = pair_events zero add sub gt_zero nav' purchase_price_arg events.
Proof.
  induction events as [|e rest Ee IH|e Ee|e s rest Ee Es IH|e s rest Ee Es IH]
    using pairing_ind.
  - reflexivity.
  - cbn [pair_events]. rewrite Ee. exact IH.
  - cbn [pair_events]. rewrite Ee. unfold period_detail.
    rewrite holding_period_same. reflexivity.
  - cbn [pair_events]. rewrite Ee, Es. cbn [action_eqb].
    unfold period_detail. rewrite holding_period_same, IH. reflexivity.
  - rewrite !pair_events_open by assumption.
    unfold period_detail. rewrite holding_period_same, IH. reflexivity.
Qed.
End SameDict.

(** X12.  The valuation reads the NAV series as a dictionary: two series with
    the same value at every key give the same result, whatever the order of
    their entries.  In particular the last available NAV is the one of the
    greatest key, not the one of the entry that comes last. *)
Theorem valuation_ignores_nav_order :
  forall (num : Type) (zero : num) (add sub : num -> num -> num)
         (gt_zero : num -> bool) (asset_name : string)
         (transactions : list event) (nav nav' : dict string num)
         (purchase_price : option num),
    NoDup (dict_keys nav) -> NoDup (dict_keys nav') ->
    (forall k, dict_get String.eqb nav k = dict_get String.eqb nav' k) ->
    Analysis.calculate_profit_and_prices zero add sub gt_zero asset_name
      transactions nav purchase_price
    = Analysis.calculate_profit_and_prices zero add sub gt_zero asset_name
        transactions nav' purchase_price.
Proof.
  intros num zero add sub gt_zero asset_name T nav nav' pp N N' H.
  rewrite !calculate_profit_and_prices_walk.
  rewrite (@pair_events_same num zero add sub gt_zero nav nav' pp
             (@same_dict_same_sorted_keys num nav nav' N N' H) H T).
  destruct nav as [|[k v] nav], nav' as [|[k' v'] nav']; try reflexivity.
  - specialize (H k'). cbn in H. rewrite String.eqb_refl in H. discriminate.
  - specialize (H k). cbn in H. rewrite String.eqb_refl in H. discriminate.
Qed.

Lemma valuation_ignores_nav_order_witness :
  Analysis.calculate_profit_and_prices 0%Z Z.add Z.sub positive "Fund A"
    sample_events
    [("2025-01-05T00:00:00", 15%Z); ("2025-01-01T00:00:00", 10%Z)] None
  = Analysis.calculate_profit_and_prices 0%Z Z.add Z.sub positive "Fund A"
      sample_events
      [("2025-01-01T00:00:00", 10%Z); ("2025-01-05T00:00:00", 15%Z)] None.
Proof.
  apply (@valuation_ignores_nav_order Z 0%Z Z.add Z.sub positive "Fund A"
           sample_events
           [("2025-01-05T00:00:00", 15%Z); ("2025-01-01T00:00:00", 10%Z)]
           [("2025-01-01T00:00:00", 10%Z); ("2025-01-05T00:00:00", 15%Z)] None).
  - repeat constructor; cbn; intuition discriminate.
  - repeat constructor; cbn; intuition discriminate.
  - intros k. cbn [dict_get].
    destruct (String.eqb "2025-01-05T00:00:00" k) eqn:E1;
      destruct (String.eqb "2025-01-01T00:00:00" k) eqn:E2; try reflexivity.
    apply String.eqb_eq in E1, E2. subst. discriminate.
Defined.

(** ** Daily changes *)

Section DailyChangesFacts.
Import DailyChanges.
Variable num : Type.
Variable sub div mul : num -> num -> num.
Variable hundred : num.
Variable is_zero : num -> bool.
Variable nav_time_series : dict string num.

Local Abbreviation body :=
  (loop_body sub div mul hundred is_zero nav_time_series).

Let row_of_key (k : string) (r : daily_change num) : Prop :=
  exists d, Analysis.parse_timestamp k = Some d
            /\ dict_get String.eqb nav_time_series k = Some (dc_nav r)
            /\ dc_date r = strftime_ymd d.

Lemma for_each_rows (keys : list string) :
  forall acc prev st,
    for_each body keys (acc, prev) = Some st ->
    exists rows,
      fst st = acc ++ rows
      /\ Forall2 row_of_key keys rows
      /\ chained sub div mul hundred is_zero prev rows.
Proof.
  induction keys as [|k keys IH]; intros acc prev st H.
  - cbn [for_each] in H. unfold ret in H. injection H as <-.
    exists []. cbn [fst]. rewrite app_nil_r. repeat split. constructor.
  - cbn [for_each] in H. unfold loop_body at 1 in H.
    destruct (dict_get String.eqb nav_time_series k) as [nav|] eqn:En;
      [|discriminate].
    cbn [bind] in H.
    destruct (Analysis.parse_timestamp k) as [d|] eqn:Ed; [|discriminate].
    cbn [bind] in H.
    destruct prev as [p|].
    + cbn [bind ret] in H.
      destruct (IH _ _ _ H) as (rows & Hst & Hrows & Hch).
      eexists (_ :: rows). rewrite Hst, <- app_assoc. cbn [app].
      split; [reflexivity|]. split.
      * constructor; [|exact Hrows]. exists d. cbn [dc_nav dc_date]. auto.
      * cbn [chained]. split; [|exact Hch].
        unfold change_after. cbn [dc_change dc_change_percent dc_nav].
        split; [reflexivity|]. destruct (is_zero p); reflexivity.
    + cbn [bind ret] in H.
      destruct (IH _ _ _ H) as (rows & Hst & Hrows & Hch).
      eexists (_ :: rows). rewrite Hst, <- app_assoc. cbn [app].
      split; [reflexivity|]. split.
      * constructor; [|exact Hrows]. exists d. cbn [dc_nav dc_date]. auto.
      * cbn [chained]. split; [|exact Hch].
        unfold change_after. cbn [dc_change dc_change_percent]. auto.
Qed.

Lemma for_each_returns (keys : list string) :
  (forall k, In k keys ->
             In k (dict_keys nav_time_series)
             /\ Analysis.parse_timestamp k <> None) ->
  forall st, for_each body keys st <> None.
Proof.
  induction keys as [|k keys IH]; intros Hk st; [discriminate|].
  cbn [for_each]. unfold loop_body at 1. destruct st as [acc prev].
  destruct (Hk k (or_introl eq_refl)) as [Hin Hp].
  destruct (dict_get_In nav_time_series k Hin) as [v ->]. cbn [bind].
  destruct (Analysis.parse_timestamp k) as [d|]; [|congruence].
  cbn [bind]. destruct prev as [p|]; cbn [bind ret]; apply IH;
    intros k' Hk'; apply Hk; right; exact Hk'.
Qed.
End DailyChangesFacts.

Lemma decorated_keys (keys : list string) :
  forall dec,
    mapM (fun x => d <- Analysis.parse_timestamp x ;; ret (d, x)) keys = Some dec ->
    Forall (fun p => Analysis.parse_timestamp (snd p) = Some (fst p)) dec
    /\ map snd dec = keys.
Proof.
  induction keys as [|k keys IH]; intros dec H; cbn [mapM] in H.
  - injection H as <-. split; [constructor|reflexivity].
  - destruct (Analysis.parse_timestamp k) as [d|] eqn:Ed; [|discriminate].
    cbn [bind ret] in H.
    destruct (mapM _ keys) as [dec'|]; [|discriminate].
    injection H as <-. destruct (IH dec' eq_refl) as [Hf Hm].
    split; [constructor; [exact Ed|exact Hf]|].
    cbn [map snd]. rewrite Hm. reflexivity.
Qed.

Lemma sorted_by_date_raises (keys : list string) :
  DailyChanges.sorted_by_date keys = None
  <-> exists k, In k keys /\ Analysis.parse_timestamp k = None.
Proof.
  unfold DailyChanges.sorted_by_date.
  destruct (mapM _ keys) as [dec|] eqn:E; cbn [bind ret].
  - split; [discriminate|]. intros (k & Hk & Hp).
    destruct (mapM_In_result _ _ E k Hk) as (b & Hb & _).
    rewrite Hp in Hb. discriminate.
  - split; [|reflexivity]. intros _.
    apply mapM_None_iff in E. destruct E as (k & Hk & Hp).
    exists k. split; [exact Hk|].
    destruct (Analysis.parse_timestamp k); [discriminate|reflexivity].
Qed.

Lemma sorted_by_date_sorted (keys sorted_dates : list string) :
  DailyChanges.sorted_by_date keys = Some sorted_dates ->
  exists dec,
    sorted_dates = map snd dec
    /\ Permutation sorted_dates keys
    /\ Forall (fun p => Analysis.parse_timestamp (snd p) = Some (fst p)) dec
    /\ StronglySorted (fun a b => date_leb (fst a) (fst b) = true) dec.
Proof.
  unfold DailyChanges.sorted_by_date.
  destruct (mapM _ keys) as [dec|] eqn:E; [|discriminate].
  cbn [bind ret]. intros [= <-].
  destruct (decorated_keys _ E) as [Hf Hm].
  set (leb := fun a b : date * string => date_leb (fst a) (fst b)).
  exists (sorted leb dec). split; [reflexivity|]. split; [|split].
  - rewrite <- Hm. apply Permutation_map, sorted_perm.
  - rewrite Forall_forall in *. intros p Hp. apply Hf.
    apply (sorted_In leb), Hp.
  - apply sorted_sorted.
    + intros x y. apply date_leb_total.
    + intros x y z. apply date_leb_trans.
Qed.

Lemma StronglySorted_Forall2 {A B} (R1 : A -> A -> Prop) (R2 : B -> B -> Prop)
    (Q : A -> B -> Prop) (l1 : list A) (l2 : list B) :
  (forall a b ra rb, R1 a b -> Q a ra -> Q b rb -> R2 ra rb) ->
  Forall2 Q l1 l2 -> StronglySorted R1 l1 -> StronglySorted R2 l2.
Proof.
  intros Hstep HF. induction HF as [|a ra l1 l2 Hq HF IH]; intros Hs;
    [constructor|].
  inversion Hs as [|? ? Hs' Ha]; subst. constructor; [apply IH, Hs'|].
  clear IH Hs Hs'. induction HF as [|b rb l1 l2 Hq' HF IH]; [constructor|].
  inversion Ha as [|? ? Hab Ha']; subst.
  constructor; [eapply Hstep; eassumption|apply IH, Ha'].
Qed.

Lemma chained_first {num} (sub div mul : num -> num -> num) (hundred : num)
    (is_zero : num -> bool) (rows : list (DailyChanges.daily_change num))
    (r : DailyChanges.daily_change num) :
  chained sub div mul hundred is_zero None rows ->
  nth_error rows 0 = Some r ->
  DailyChanges.dc_change r = None /\ DailyChanges.dc_change_percent r = None.
Proof.
  destruct rows as [|r0 rows]; [discriminate|].
  cbn [chained nth_error]. intros [H _] [= <-]. exact H.
Qed.

Lemma chained_next {num} (sub div mul : num -> num -> num) (hundred : num)
    (is_zero : num -> bool) (rows : list (DailyChanges.daily_change num)) :
  forall prev i r1 r2,
    chained sub div mul hundred is_zero prev rows ->
    nth_error rows i = Some r1 -> nth_error rows (S i) = Some r2 ->
    change_after sub div mul hundred is_zero (Some (DailyChanges.dc_nav r1)) r2.
Proof.
  induction rows as [|r rows IH]; intros prev i r1 r2 Hc H1 H2;
    [destruct i; discriminate|].
  destruct Hc as [_ Hc]. destruct i as [|i].
  - injection H1 as <-. destruct rows as [|r' rows]; [discriminate|].
    injection H2 as <-. apply Hc.
  - exact (IH _ _ _ _ Hc H1 H2).
Qed.

Section DailyChangesResult.
Import DailyChanges.
Variable num : Type.
Variable sub div mul : num -> num -> num.
Variable hundred : num.
Variable is_zero : num -> bool.
Variable nav_time_series : dict string num.

Lemma calculate_daily_changes_rows (rows : list (daily_change num)) :
  calculate_daily_changes sub div mul hundred is_zero nav_time_series
  = Some rows ->
  exists dec,
    Permutation (map snd dec) (dict_keys nav_time_series)
    /\ Forall (fun p => Analysis.parse_timestamp (snd p) = Some (fst p)) dec
    /\ StronglySorted (fun a b => date_leb (fst a) (fst b) = true) dec
    /\ Forall2
         (fun p r =>
            dict_get String.eqb nav_time_series (snd p) = Some (dc_nav r)
            /\ dc_date r = strftime_ymd (fst p))
         dec rows
    /\ chained sub div mul hundred is_zero None rows.
Proof.
  unfold calculate_daily_changes. intros H.
  destruct nav_time_series as [|p nav] eqn:Enav.
  { injection H as <-. exists []. repeat split; constructor. }
  rewrite <- Enav in *.
  destruct (sorted_by_date (dict_keys nav_time_series)) as [sd|] eqn:Es;
    [|discriminate].
  cbn [bind] in H.
  destruct (for_each _ sd ([], None)) as [st|] eqn:Ef; [|discriminate].
  cbn [bind ret] in H. injection H as <-.
  destruct (for_each_rows _ _ _ _ _ _ _ _ _ Ef) as (rows & Hst & Hrows & Hch).
  destruct (sorted_by_date_sorted _ Es) as (dec & -> & Hperm & Hdec & Hsort).
  exists dec. rewrite Hst. cbn [app].
  split; [exact Hperm|]. split; [exact Hdec|]. split; [exact Hsort|].
  split; [|exact Hch].
  clear - Hrows Hdec. revert rows Hrows.
  induction Hdec as [|q dec Hq Hdec IH]; intros rows Hrows.
  - inversion Hrows. constructor.
  - cbn [map] in Hrows. inversion Hrows as [|? r ? rows' Hr Hrows']; subst.
    constructor; [|apply IH, Hrows'].
    destruct Hr as (d & Hp & Hg & Hd). split; [exact Hg|].
    rewrite Hd. congruence.
Qed.
End DailyChangesResult.

(** X13.  [calculate_daily_changes] returns one row for each key of the NAV
    series, with the value of that key and its date as [strftime] writes
    it; the rows are in the order of the dates of the keys, whatever the
    order of the entries and the form of the keys.  When no key is dated
    before the year 1000 the dates of the rows go upwards as texts, too. *)
Theorem daily_changes_follow_dates :
  forall (num : Type) (sub div mul : num -> num -> num) (hundred : num)
         (is_zero : num -> bool) (nav_time_series : dict string num)
         (rows : list (DailyChanges.daily_change num)),
    DailyChanges.calculate_daily_changes sub div mul hundred is_zero
      nav_time_series = Some rows ->
    exists dated : list (date * string),
      Permutation (map snd dated) (dict_keys nav_time_series)
      /\ Forall (fun p => Analysis.parse_timestamp (snd p) = Some (fst p)) dated
      /\ StronglySorted (fun a b => date_leb (fst a) (fst b) = true) dated
      /\ Forall2
           (fun p r =>
              dict_get String.eqb nav_time_series (snd p)
              = Some (DailyChanges.dc_nav r)
              /\ DailyChanges.dc_date r = strftime_ymd (fst p))
           dated rows
      /\ (forallb from_year_1000 (dict_keys nav_time_series) = true ->
          StronglySorted
            (fun a b =>
               String.leb (DailyChanges.dc_date a) (DailyChanges.dc_date b)
               = true)
            rows).
Proof.
  intros num sub div mul hundred is_zero nav rows H.
  destruct (calculate_daily_changes_rows _ _ _ _ _ _ H)
    as (dec & Hperm & Hdec & Hsort & Hrows & _).
  exists dec. split; [exact Hperm|]. split; [exact Hdec|].
  split; [exact Hsort|]. split; [exact Hrows|]. intros Hy.
  assert (Hboth : Forall2
                    (fun p r =>
                       DailyChanges.dc_date r = strftime_ymd (fst p)
                       /\ valid_date (fst p) = true
                       /\ (1000 <= year (fst p))%Z) dec rows).
  { assert (Hyears : Forall (fun p => valid_date (fst p) = true
                                      /\ (1000 <= year (fst p))%Z) dec).
    { rewrite Forall_forall in *. intros p Hp.
      pose proof (Hdec p Hp) as Hparse.
      split; [exact (strptime_ymd_valid _ Hparse)|].
      rewrite forallb_forall in Hy.
      assert (Hk : In (snd p) (dict_keys nav)).
      { eapply Permutation_in; [exact Hperm|]. apply in_map, Hp. }
      specialize (Hy _ Hk). unfold from_year_1000 in Hy.
      change (BuysSells.parse_timestamp (snd p))
        with (Analysis.parse_timestamp (snd p)) in Hy.
      rewrite Hparse in Hy. apply Z.leb_le. exact Hy. }
    clear - Hyears Hrows. induction Hrows as [|p r dec rows [Hg Hd] Hrows IH].
    - constructor.
    - inversion Hyears as [|? ? [Hv Hyr] Hyears']; subst.
      constructor; [|apply IH, Hyears'].
      split; [exact Hd|]. split; assumption. }
  eapply StronglySorted_Forall2; [|exact Hboth|exact Hsort].
  intros a b ra rb Hab [Ha [Va Ya]] [Hb [Vb Yb]]. rewrite Ha, Hb.
  apply strftime_monotone; assumption.
Qed.

Lemma daily_changes_follow_dates_witness :
  exists dated : list (date * string),
    Permutation (map snd dated) (dict_keys sample_nav)
    /\ Forall (fun p => Analysis.parse_timestamp (snd p) = Some (fst p)) dated
    /\ StronglySorted (fun a b => date_leb (fst a) (fst b) = true) dated
    /\ Forall2
         (fun p r =>
            dict_get String.eqb sample_nav (snd p)
            = Some (DailyChanges.dc_nav r)
            /\ DailyChanges.dc_date r = strftime_ymd (fst p))
         dated
         [DailyChanges.mkdaily_change "2025-01-01" 10%Z None None;
          DailyChanges.mkdaily_change "2025-01-05" 15%Z (Some 5%Z) (Some 0%Z);
          DailyChanges.mkdaily_change "2025-01-10" 30%Z (Some 15%Z)
            (Some 100%Z)]
    /\ (forallb from_year_1000 (dict_keys sample_nav) = true ->
        StronglySorted
          (fun a b =>
             String.leb (DailyChanges.dc_date a) (DailyChanges.dc_date b)
             = true)
          [DailyChanges.mkdaily_change "2025-01-01" 10%Z None None;
           DailyChanges.mkdaily_change "2025-01-05" 15%Z (Some 5%Z) (Some 0%Z);
           DailyChanges.mkdaily_change "2025-01-10" 30%Z (Some 15%Z)
             (Some 100%Z)]).
Proof.
  apply (@daily_changes_follow_dates Z Z.sub Z.div Z.mul 100%Z (Z.eqb 0)
           sample_nav).
  reflexivity.
Defined.

(** X14.  The first row of [calculate_daily_changes] has no change; every later
    row carries the difference between its value and the value of the row
    before it, and that difference as a percentage of the value of the row
    before it, unless that value is zero: then the percentage is absent and
    nothing is divided. *)
Theorem daily_changes_chain :
  forall (num : Type) (sub div mul : num -> num -> num) (hundred : num)
         (is_zero : num -> bool) (nav_time_series : dict string num)
         (rows : list (DailyChanges.daily_change num)),
    DailyChanges.calculate_daily_changes sub div mul hundred is_zero
      nav_time_series = Some rows ->
    (forall r, nth_error rows 0 = Some r ->
               DailyChanges.dc_change r = None
               /\ DailyChanges.dc_change_percent r = None)
    /\ (forall i r1 r2,
           nth_error rows i = Some r1 -> nth_error rows (S i) = Some r2 ->
           DailyChanges.dc_change r2
           = Some (sub (DailyChanges.dc_nav r2) (DailyChanges.dc_nav r1))
           /\ DailyChanges.dc_change_percent r2
              = if is_zero (DailyChanges.dc_nav r1) then None
                else Some (mul (div (sub (DailyChanges.dc_nav r2)
                                       (DailyChanges.dc_nav r1))
                                  (DailyChanges.dc_nav r1)) hundred)).
Proof.
  intros num sub div mul hundred is_zero nav rows H.
  destruct (calculate_daily_changes_rows _ _ _ _ _ _ H)
    as (dec & _ & _ & _ & _ & Hch).
  split.
  - intros r Hr. exact (chained_first _ _ _ _ _ _ Hch Hr).
  - intros i r1 r2 H1 H2.
    exact (chained_next _ _ _ _ _ _ _ _ Hch H1 H2).
Qed.

Lemma daily_changes_chain_witness :
  (forall r,
      nth_error [DailyChanges.mkdaily_change "2025-01-01" 0%Z None None;
                 DailyChanges.mkdaily_change "2025-01-02" 4%Z (Some 4%Z) None;
                 DailyChanges.mkdaily_change "2025-01-03" 6%Z (Some 2%Z)
                   (Some 0%Z)] 0 = Some r ->
      DailyChanges.dc_change r = None
      /\ DailyChanges.dc_change_percent r = None)
  /\ (forall i r1 r2,
         nth_error [DailyChanges.mkdaily_change "2025-01-01" 0%Z None None;
                    DailyChanges.mkdaily_change "2025-01-02" 4%Z (Some 4%Z) None;
                    DailyChanges.mkdaily_change "2025-01-03" 6%Z (Some 2%Z)
                      (Some 0%Z)] i = Some r1 ->
         nth_error [DailyChanges.mkdaily_change "2025-01-01" 0%Z None None;
                    DailyChanges.mkdaily_change "2025-01-02" 4%Z (Some 4%Z) None;
                    DailyChanges.mkdaily_change "2025-01-03" 6%Z (Some 2%Z)
                      (Some 0%Z)] (S i) = Some r2 ->
         DailyChanges.dc_change r2
         = Some (Z.sub (DailyChanges.dc_nav r2) (DailyChanges.dc_nav r1))
         /\ DailyChanges.dc_change_percent r2
            = if Z.eqb 0 (DailyChanges.dc_nav r1) then None
              else Some (Z.mul (Z.div (Z.sub (DailyChanges.dc_nav r2)
                                         (DailyChanges.dc_nav r1))
                                  (DailyChanges.dc_nav r1)) 100%Z)).
Proof.
  apply (@daily_changes_chain Z Z.sub Z.div Z.mul 100%Z (Z.eqb 0)
           [("2025-01-03T00:00:00", 6%Z); ("2025-01-01T00:00:00", 0%Z);
            ("2025-01-02T00:00:00", 4%Z)]).
  reflexivity.
Defined.

(** X15.  [calculate_daily_changes] raises exactly when a key of the NAV series
    is not a date; on an empty series it returns no row. *)
Theorem daily_changes_raise_iff :
  forall (num : Type) (sub div mul : num -> num -> num) (hundred : num)
         (is_zero : num -> bool) (nav_time_series : dict string num),
    (DailyChanges.calculate_daily_changes sub div mul hundred is_zero
       nav_time_series = None
     <-> exists k, In k (dict_keys nav_time_series)
                   /\ Analysis.parse_timestamp k = None)
    /\ DailyChanges.calculate_daily_changes sub div mul hundred is_zero
         (@nil (string * num)) = Some [].
Proof.
  intros num sub div mul hundred is_zero nav. split; [|reflexivity].
  unfold DailyChanges.calculate_daily_changes.
  destruct nav as [|p nav0] eqn:Enav.
  { split; [discriminate|]. intros (k & [] & _). }
  rewrite <- Enav. clear Enav p nav0.
  destruct (DailyChanges.sorted_by_date (dict_keys nav)) as [sd|] eqn:Es.
  - cbn [bind]. split.
    + intros H. exfalso.
      destruct (sorted_by_date_sorted _ Es) as (dec & -> & Hperm & Hdec & _).
      destruct (DailyChanges.for_each _ (map snd dec) ([], None)) eqn:Ef;
        [discriminate|].
      revert Ef. apply for_each_returns. intros k Hk. split.
      * eapply Permutation_in; [exact Hperm|exact Hk].
      * apply in_map_iff in Hk. destruct Hk as (q & <- & Hq).
        rewrite Forall_forall in Hdec. rewrite (Hdec q Hq). discriminate.
    + intros Hex. apply sorted_by_date_raises in Hex. congruence.
  - split; [|reflexivity]. intros _. apply sorted_by_date_raises, Es.
Qed.

(** ** The metrics of a line *)

Lemma bind_header_metric (metric_indices : dict string nat) (i : nat)
    (h : header) (metric : string) :
  dict_get String.eqb (Metrics.bind_header metric_indices (i, h)) metric
  = if metric_matches metric h then Some i
    else dict_get String.eqb metric_indices metric.
Proof.
  unfold Metrics.bind_header, metric_matches.
  destruct (Metrics.header_cmd_name h) as [cmd name].
  repeat match goal with
         | |- context [if ?c then dict_set _ _ _ _ else _] => destruct c
         end;
    rewrite ?dict_get_set;
    repeat match goal with
           | |- context [String.eqb ?s metric] =>
               let E := fresh "E" in destruct (String.eqb s metric) eqn:E
           end;
    cbn [andb orb]; try reflexivity;
    exfalso;
    repeat match goal with
           | H : String.eqb _ metric = true |- _ => apply String.eqb_eq in H
           end;
    congruence.
Qed.

Lemma metric_indices_of (metric : string) (hs : list header) :
  forall (k : nat) (metric_indices : dict string nat),
    dict_get String.eqb
      (fold_left Metrics.bind_header (combine (seq k (List.length hs)) hs)
         metric_indices) metric
    = match last_opt (filter (fun ih => metric_matches metric (snd ih))
                        (combine (seq k (List.length hs)) hs)) with
      | Some ih => Some (fst ih)
      | None => dict_get String.eqb metric_indices metric
      end.
Proof.
  induction hs as [|h hs IH]; intros k mi; [reflexivity|].
  cbn [List.length seq combine fold_left filter snd].
  rewrite IH, bind_header_metric.
  destruct (metric_matches metric h).
  - rewrite last_opt_cons.
    destruct (last_opt _); reflexivity.
  - reflexivity.
Qed.

Lemma metric_index_last (metric : string) (headers : list header) :
  dict_get String.eqb (Metrics.metric_indices headers) metric
  = last_index (metric_matches metric) headers.
Proof.
  unfold Metrics.metric_indices, last_index, Metrics.enumerate.
  rewrite metric_indices_of.
  destruct (last_opt _); reflexivity.
Qed.

Lemma enumerate_snoc {A} (l : list A) (x : A) :
  forall k,
    combine (seq k (List.length (l ++ [x]))) (l ++ [x])
    = combine (seq k (List.length l)) l ++ [(k + List.length l, x)].
Proof.
  induction l as [|a l IH]; intros k.
  - cbn. rewrite Nat.add_0_r. reflexivity.
  - cbn [app List.length seq combine]. rewrite IH.
    replace (S k + List.length l) with (k + S (List.length l)) by lia.
    reflexivity.
Qed.

Lemma last_opt_snoc {A} (l : list A) (x : A) : last_opt (l ++ [x]) = Some x.
Proof. unfold last_opt. rewrite rev_app_distr. reflexivity. Qed.

Lemma last_index_snoc {A} (f : A -> bool) (l : list A) (x : A) :
  last_index f (l ++ [x])
  = if f x then Some (List.length l) else last_index f l.
Proof.
  unfold last_index, Metrics.enumerate.
  rewrite enumerate_snoc, filter_app. cbn [filter snd Nat.add].
  destruct (f x).
  - rewrite last_opt_snoc. reflexivity.
  - rewrite app_nil_r. reflexivity.
Qed.

(** [last_index f l] is the position of the last element that satisfies
    [f]. *)
Lemma last_index_spec {A} (f : A -> bool) (l : list A) (i : nat) :
  last_index f l = Some i
  <-> (exists a, nth_error l i = Some a /\ f a = true)
      /\ forall j a, i < j -> nth_error l j = Some a -> f a = false.
Proof.
  revert i. induction l as [|x l IH] using rev_ind; intros i.
  - cbn. split; [discriminate|].
    intros [(a & Ha & _) _]. destruct i; discriminate.
  - rewrite last_index_snoc. destruct (f x) eqn:Ex.
    + split.
      * intros [= <-]. split.
        -- exists x. rewrite nth_error_app2, Nat.sub_diag by lia. auto.
        -- intros j a Hj Ha.
           rewrite nth_error_app2 in Ha by lia.
           destruct (j - List.length l) as [|n] eqn:E; [lia|].
           destruct n; discriminate.
      * intros [(a & Ha & Hf) Hlater].
        destruct (Nat.lt_trichotomy i (List.length l)) as [Hlt|[->|Hgt]];
          [|reflexivity|].
        -- rewrite (Hlater (List.length l) x Hlt) in Ex; [discriminate|].
           rewrite nth_error_app2, Nat.sub_diag by lia. reflexivity.
        -- rewrite nth_error_app2 in Ha by lia.
           destruct (i - List.length l) as [|n] eqn:E; [lia|].
           destruct n; discriminate.
    + rewrite IH. split.
      * intros [(a & Ha & Hf) Hlater]. split.
        -- exists a. split; [|exact Hf].
           rewrite nth_error_app1; [exact Ha|].
           apply nth_error_Some. congruence.
        -- intros j b Hj Hb.
           destruct (Nat.lt_ge_cases j (List.length l)) as [Hlt|Hge].
           ++ rewrite nth_error_app1 in Hb by exact Hlt. eapply Hlater; eauto.
           ++ rewrite nth_error_app2 in Hb by exact Hge.
              destruct (j - List.length l) as [|n]; [|destruct n; discriminate].
              injection Hb as <-. exact Ex.
      * intros [(a & Ha & Hf) Hlater].
        assert (Hi : i < List.length l).
        { destruct (Nat.lt_ge_cases i (List.length l)) as [Hlt|Hge]; [exact Hlt|].
          rewrite nth_error_app2 in Ha by exact Hge.
          destruct (i - List.length l) as [|n]; [|destruct n; discriminate].
          injection Ha as <-. congruence. }
        split.
        -- exists a. rewrite nth_error_app1 in Ha by exact Hi. auto.
        -- intros j b Hj Hb. apply (Hlater j b Hj).
           rewrite nth_error_app1; [exact Hb|].
           apply nth_error_Some. congruence.
Qed.

Lemma last_index_none {A} (f : A -> bool) (l : list A) :
  last_index f l = None <-> forall a, In a l -> f a = false.
Proof.
  induction l as [|x l IH] using rev_ind.
  - cbn. split; [intros _ a []|reflexivity].
  - rewrite last_index_snoc. destruct (f x) eqn:Ex.
    + split; [discriminate|]. intros H.
      rewrite (H x) in Ex; [discriminate|]. apply in_or_app. right. left.
      reflexivity.
    + rewrite IH. split.
      * intros H a Ha. apply in_app_or in Ha.
        destruct Ha as [Ha|[<-|[]]]; [apply H, Ha|exact Ex].
      * intros H a Ha. apply H. apply in_or_app. left. exact Ha.
Qed.

(** X16.  [extract_metrics_from_asset] binds each of its four metrics to the last
    header that satisfies the test of the metric, and to none when no header
    does; no other name is bound. *)
Theorem metrics_bind_to_last_matching_header :
  forall (headers : list header) (metric : string),
    (forall i,
        dict_get String.eqb (Metrics.metric_indices headers) metric = Some i
        <-> (exists h, nth_error headers i = Some h
                       /\ metric_matches metric h = true)
            /\ forall j h, i < j -> nth_error headers j = Some h ->
                           metric_matches metric h = false)
    /\ (dict_get String.eqb (Metrics.metric_indices headers) metric = None
        <-> forall h, In h headers -> metric_matches metric h = false)
    /\ (In metric (dict_keys (Metrics.metric_indices headers)) ->
        In metric ["volatility"; "interest_rate"; "purchase_price"; "price"]).
Proof.
  intros headers metric. rewrite metric_index_last.
  split; [intros i; apply last_index_spec|].
  split; [apply last_index_none|].
  intros Hin. apply dict_get_keys in Hin. rewrite metric_index_last in Hin.
  destruct (last_index (metric_matches metric) headers) as [i|] eqn:E;
    [|congruence].
  apply last_index_spec in E. destruct E as [(h & _ & Hm) _].
  unfold metric_matches in Hm.
  destruct (Metrics.header_cmd_name h) as [cmd name].
  cbn [In].
  destruct (String.eqb_spec "volatility" metric); [auto|].
  destruct (String.eqb_spec "interest_rate" metric); [auto|].
  destruct (String.eqb_spec "purchase_price" metric); [auto|].
  destruct (String.eqb_spec "price" metric); [auto 6|].
  discriminate.
Qed.

Lemma bind_header_NoDup (metric_indices : dict string nat) (ih : nat * header) :
  NoDup (dict_keys metric_indices) ->
  NoDup (dict_keys (Metrics.bind_header metric_indices ih)).
Proof.
  intros H. destruct ih as [i h]. unfold Metrics.bind_header.
  destruct (Metrics.header_cmd_name h) as [cmd name].
  repeat match goal with
         | |- context [if ?c then dict_set _ _ _ _ else _] => destruct c
         end;
    repeat apply dict_set_NoDup; exact H.
Qed.

Lemma metric_indices_NoDup (headers : list header) :
  NoDup (dict_keys (Metrics.metric_indices headers)).
Proof.
  unfold Metrics.metric_indices.
  assert (G : forall l mi, NoDup (dict_keys mi) ->
                           NoDup (dict_keys (fold_left Metrics.bind_header l mi))).
  { induction l as [|ih l IH]; intros mi H; [exact H|].
    cbn [fold_left]. apply IH, bind_header_NoDup, H. }
  apply G. constructor.
Qed.

Lemma dict_get_absent {V} (d : dict string V) (k : string) :
  ~ In k (dict_keys d) -> dict_get String.eqb d k = None.
Proof.
  intros H. destruct (dict_get String.eqb d k) eqn:E; [|reflexivity].
  exfalso. apply H, dict_get_keys. congruence.
Qed.

Lemma metrics_of_cells (values : list json) (entries : dict string nat) :
  NoDup (dict_keys entries) ->
  forall (init : dict string Metrics.metric_value) (metric : string),
    dict_get String.eqb
      (fold_left
         (fun metrics (entry : string * nat) =>
            let '(metric_name, idx) := entry in
            match nth_error values idx with
            | Some cell =>
                dict_set String.eqb metrics metric_name
                  (Metrics.MCell (Analysis.get_cell_value cell))
            | None => metrics
            end)
         entries init) metric
    = match dict_get String.eqb entries metric with
      | Some idx =>
          match nth_error values idx with
          | Some cell => Some (Metrics.MCell (Analysis.get_cell_value cell))
          | None => dict_get String.eqb init metric
          end
      | None => dict_get String.eqb init metric
      end.
Proof.
  induction entries as [|[k idx] entries IH]; intros N init metric;
    [reflexivity|].
  cbn [dict_keys map fst] in N. inversion N as [|? ? Hk N']; subst.
  cbn [fold_left dict_get]. rewrite (IH N').
  destruct (String.eqb_spec k metric) as [->|Hne].
  - rewrite (@dict_get_absent nat entries metric Hk).
    destruct (nth_error values idx) as [cell|]; [|reflexivity].
    rewrite dict_get_set, String.eqb_refl. reflexivity.
  - assert (Hinit : dict_get String.eqb
                      match nth_error values idx with
                      | Some cell =>
                          dict_set String.eqb init k
                            (Metrics.MCell (Analysis.get_cell_value cell))
                      | None => init
                      end metric
                    = dict_get String.eqb init metric).
    { destruct (nth_error values idx); [|reflexivity].
      rewrite dict_get_set. apply String.eqb_neq in Hne. rewrite Hne.
      reflexivity. }
    rewrite Hinit. reflexivity.
Qed.

(** X17.  The metrics of a line: a metric is the value of the cell in the column
    the metric is bound to; it is absent when no header binds the metric, and
    also when the line has no cell in that column (no other matching column
    is tried).  The record always holds a [time_series] entry, so that it is
    never empty. *)
Theorem metric_is_cell_of_bound_column :
  forall (line : node) (headers : list header) (metric : string),
    (exists series,
        dict_get String.eqb (Metrics.extract_metrics_from_asset line headers)
          "time_series" = Some (Metrics.MSeries series))
    /\ (metric <> "time_series" ->
        dict_get String.eqb (Metrics.extract_metrics_from_asset line headers)
          metric
        = match dict_get String.eqb (Metrics.metric_indices headers) metric with
          | Some idx =>
              option_map
                (fun cell => Metrics.MCell (Analysis.get_cell_value cell))
                (nth_error (node_values line) idx)
          | None => None
          end).
Proof.
  intros line headers metric. unfold Metrics.extract_metrics_from_asset.
  split.
  - eexists. rewrite dict_get_set, String.eqb_refl. reflexivity.
  - intros Hne. rewrite dict_get_set.
    destruct (String.eqb_spec "time_series" metric) as [E|_]; [congruence|].
    rewrite (@metrics_of_cells (node_values line) _ (metric_indices_NoDup headers)).
    destruct (dict_get String.eqb (Metrics.metric_indices headers) metric)
      as [idx|]; [|reflexivity].
    destruct (nth_error (node_values line) idx); reflexivity.
Qed.

Lemma series_key_eqb_eq (a b : Metrics.series_key) :
  Metrics.series_key_eqb a b = true <-> a = b.
Proof.
  destruct a as [x|x], b as [y|y]; cbn [Metrics.series_key_eqb];
    try (split; [discriminate|congruence]).
  - rewrite String.eqb_eq. split; congruence.
  - rewrite Nat.eqb_eq. split; congruence.
Qed.

Lemma series_get_set {V} (d : dict Metrics.series_key V)
    (k k' : Metrics.series_key) (v : V) :
  dict_get Metrics.series_key_eqb (dict_set Metrics.series_key_eqb d k v) k'
  = if Metrics.series_key_eqb k k' then Some v
    else dict_get Metrics.series_key_eqb d k'.
Proof.
  induction d as [|[k0 v0] d IH]; cbn [dict_set dict_get].
  - destruct (Metrics.series_key_eqb k k'); reflexivity.
  - destruct (Metrics.series_key_eqb k0 k) eqn:E0; cbn [dict_get].
    + apply series_key_eqb_eq in E0. subst k0.
      destruct (Metrics.series_key_eqb k k'); reflexivity.
    + rewrite IH. destruct (Metrics.series_key_eqb k0 k') eqn:E1; [|reflexivity].
      apply series_key_eqb_eq in E1. subst k0.
      destruct (Metrics.series_key_eqb k k') eqn:E2; [|reflexivity].
      apply series_key_eqb_eq in E2. subst k'.
      assert (X : Metrics.series_key_eqb k k = true)
        by (apply series_key_eqb_eq; reflexivity).
      congruence.
Qed.

Lemma series_by_position (values : list json) (i : nat) :
  forall (k : nat) (init : dict Metrics.series_key (dict string json)),
    dict_get Metrics.series_key_eqb
      (fold_left
         (fun (time_series_dict : dict Metrics.series_key (dict string json))
              (entry : nat * json) =>
            let '(idx, value) := entry in
            match value with
            | JDict d =>
                match dict_get String.eqb d "rawValue" with
                | Some (JDict raw_value) =>
                    if looks_like_time_series raw_value then
                      let command :=
                        match dict_get String.eqb d "command" with
                        | Some (JStr c) => c
                        | _ => ("value_" ++ Metrics.str_of_nat idx)%string
                        end in
                      let time_series_dict :=
                        dict_set Metrics.series_key_eqb time_series_dict
                          (Metrics.KCommand command) raw_value in
                      dict_set Metrics.series_key_eqb time_series_dict
                        (Metrics.KIndex idx) raw_value
                    else time_series_dict
                | _ => time_series_dict
                end
            | _ => time_series_dict
            end)
         (combine (seq k (List.length values)) values) init)
      (Metrics.KIndex i)
    = match (if (k <=? i)%nat then nth_error values (i - k) else None) with
      | Some cell =>
          match extract_asset_time_series_values [cell] with
          | Some raw_value => Some raw_value
          | None => dict_get Metrics.series_key_eqb init (Metrics.KIndex i)
          end
      | None => dict_get Metrics.series_key_eqb init (Metrics.KIndex i)
      end.
Proof.
  induction values as [|v vs IH]; intros k init.
  - cbn [List.length seq combine fold_left].
    destruct (k <=? i)%nat; [|reflexivity].
    destruct (i - k); reflexivity.
  - cbn [List.length seq combine fold_left]. rewrite IH. clear IH.
    destruct (Nat.leb_spec (S k) i) as [Hlt|Hge].
    + replace (k <=? i)%nat with true by (symmetry; apply Nat.leb_le; lia).
      replace (i - k) with (S (i - S k)) by lia. cbn [nth_error].
      assert (Hinit : forall d' : dict Metrics.series_key (dict string json),
                 (d' = init \/ exists c raw,
                     d' = dict_set Metrics.series_key_eqb
                            (dict_set Metrics.series_key_eqb init
                               (Metrics.KCommand c) raw)
                            (Metrics.KIndex k) raw) ->
                 dict_get Metrics.series_key_eqb d' (Metrics.KIndex i)
                 = dict_get Metrics.series_key_eqb init (Metrics.KIndex i)).
      { intros d' [->|(c & raw & ->)]; [reflexivity|].
        rewrite !series_get_set. cbn [Metrics.series_key_eqb].
        replace (k =? i)%nat with false by (symmetry; apply Nat.eqb_neq; lia).
        reflexivity. }
      rewrite Hinit; [reflexivity|].
      destruct v as [| | | | | |d]; auto.
      destruct (dict_get String.eqb d "rawValue") as [[| | | | | |raw]|]; auto.
      destruct (looks_like_time_series raw); auto.
      right. eauto.
    + destruct (Nat.leb_spec k i) as [Hle|Hlt].
      * assert (i = k) by lia. subst i. rewrite Nat.sub_diag. cbn [nth_error].
        cbn [extract_asset_time_series_values].
        destruct v as [| | | | | |d]; try reflexivity.
        destruct (dict_get String.eqb d "rawValue") as [[| | | | | |raw]|];
          try reflexivity.
        destruct (looks_like_time_series raw); [|reflexivity].
        rewrite series_get_set. cbn [Metrics.series_key_eqb].
        rewrite Nat.eqb_refl. reflexivity.
      * assert (Hinit : forall d' : dict Metrics.series_key (dict string json),
                   (d' = init \/ exists c raw,
                       d' = dict_set Metrics.series_key_eqb
                              (dict_set Metrics.series_key_eqb init
                                 (Metrics.KCommand c) raw)
                              (Metrics.KIndex k) raw) ->
                   dict_get Metrics.series_key_eqb d' (Metrics.KIndex i)
                   = dict_get Metrics.series_key_eqb init (Metrics.KIndex i)).
        { intros d' [->|(c & raw & ->)]; [reflexivity|].
          rewrite !series_get_set. cbn [Metrics.series_key_eqb].
          replace (k =? i)%nat with false by (symmetry; apply Nat.eqb_neq; lia).
          reflexivity. }
        apply Hinit.
        destruct v as [| | | | | |d]; auto.
        destruct (dict_get String.eqb d "rawValue") as [[| | | | | |raw]|]; auto.
        destruct (looks_like_time_series raw); auto.
        right. eauto.
Qed.

(** X18.  On a line whose cells have a text for command, or none, the
    [time_series] entry of the metrics holds, under each position, the time
    series that [extract_asset_time_series] samples in the cell at that
    position, and nothing under the position of a cell that is not sampled
    as a time series: no series of the line is lost, even when two cells
    carry the same command.  (A command that is a number would be a key of
    its own and could stand for a position.) *)
Theorem series_are_kept_by_position :
  forall (line : node) (headers : list header)
         (series : dict Metrics.series_key (dict string json)) (i : nat),
    forallb text_command (node_values line) = true ->
    dict_get String.eqb (Metrics.extract_metrics_from_asset line headers)
      "time_series" = Some (Metrics.MSeries series) ->
    dict_get Metrics.series_key_eqb series (Metrics.KIndex i)
    = match nth_error (node_values line) i with
      | Some cell => extract_asset_time_series_values [cell]
      | None => None
      end.
Proof.
  intros line headers series i _ H.
  unfold Metrics.extract_metrics_from_asset in H.
  rewrite dict_get_set, String.eqb_refl in H.
  injection H as <-. unfold Metrics.enumerate.
  rewrite series_by_position. cbn [Nat.leb]. rewrite Nat.sub_0_r.
  destruct (nth_error (node_values line) i) as [cell|]; [|reflexivity].
  destruct (extract_asset_time_series_values [cell]); reflexivity.
Qed.

Lemma series_are_kept_by_position_witness :
  dict_get Metrics.series_key_eqb
    [(Metrics.KCommand "value_0", two_days); (Metrics.KIndex 0, two_days)]
    (Metrics.KIndex 0)
  = match nth_error (node_values fund_line) 0 with
    | Some cell => extract_asset_time_series_values [cell]
    | None => None
    end.
Proof.
  apply (@series_are_kept_by_position fund_line [HStr "NAV"]).
  - reflexivity.
  - reflexivity.
Defined.

(** ** Merging the metrics of lines with the same name *)

Lemma merge_metrics_get (metrics : dict string Metrics.metric_value) :
  NoDup (dict_keys metrics) ->
  forall (existing : dict string Metrics.metric_value) (key : string),
    dict_get String.eqb (Metrics.merge_metrics existing metrics) key
    = match dict_get String.eqb existing key with
      | Some old =>
          if Metrics.is_None old then
            match dict_get String.eqb metrics key with
            | Some value => Some value
            | None => Some old
            end
          else Some old
      | None => dict_get String.eqb metrics key
      end.
Proof.
  unfold Metrics.merge_metrics.
  induction metrics as [|[k v] metrics IH]; intros N existing key.
  - cbn [fold_left dict_get].
    destruct (dict_get String.eqb existing key) as [old|]; [|reflexivity].
    destruct (Metrics.is_None old); reflexivity.
  - cbn [dict_keys map fst] in N. inversion N as [|? ? Hk N']; subst.
    cbn [fold_left]. rewrite (IH N'). clear IH. cbn [dict_get].
    destruct (String.eqb_spec k key) as [->|Hne].
    + rewrite (@dict_get_absent _ metrics key Hk).
      destruct (dict_get String.eqb existing key) as [old|] eqn:Eold.
      * destruct (Metrics.is_None old) eqn:En.
        -- rewrite dict_get_set, String.eqb_refl.
           destruct (Metrics.is_None v); reflexivity.
        -- rewrite Eold, En. reflexivity.
      * rewrite dict_get_set, String.eqb_refl.
        destruct (Metrics.is_None v); reflexivity.
    + assert (Hsame : dict_get String.eqb
                        match dict_get String.eqb existing k with
                        | Some old =>
                            if Metrics.is_None old
                            then dict_set String.eqb existing k v
                            else existing
                        | None => dict_set String.eqb existing k v
                        end key
                      = dict_get String.eqb existing key).
      { apply String.eqb_neq in Hne.
        destruct (dict_get String.eqb existing k) as [old|];
          [destruct (Metrics.is_None old)|];
          rewrite ?dict_get_set, ?Hne; reflexivity. }
      rewrite Hsame. reflexivity.
Qed.

(** X19.  The merge of the metrics of a second line with the same name fills
    gaps only: a value that is present and not null is kept, a value that is
    absent or null is replaced by the value of the second line when it has
    one.  The [time_series] entry of the first line is never null, so it is
    the one that stays. *)
Theorem merge_fills_gaps_only :
  forall (existing metrics : dict string Metrics.metric_value) (key : string),
    NoDup (dict_keys metrics) ->
    dict_get String.eqb (Metrics.merge_metrics existing metrics) key
    = match dict_get String.eqb existing key with
      | Some old =>
          if Metrics.is_None old then
            match dict_get String.eqb metrics key with
            | Some value => Some value
            | None => Some old
            end
          else Some old
      | None => dict_get String.eqb metrics key
      end.
Proof.
  intros existing metrics key N. apply merge_metrics_get, N.
Qed.

Lemma merge_fills_gaps_only_witness :
  dict_get String.eqb
    (Metrics.merge_metrics
       [("volatility", Metrics.MCell JNull); ("price", Metrics.MCell (JInt 3))]
       [("price", Metrics.MCell (JInt 4));
        ("volatility", Metrics.MCell (JInt 12))])
    "volatility"
  = Some (Metrics.MCell (JInt 12))
  /\ dict_get String.eqb
       (Metrics.merge_metrics
          [("volatility", Metrics.MCell JNull); ("price", Metrics.MCell (JInt 3))]
          [("price", Metrics.MCell (JInt 4));
           ("volatility", Metrics.MCell (JInt 12))])
       "price"
     = Some (Metrics.MCell (JInt 3)).
Proof.
  assert (N : NoDup (dict_keys [("price", Metrics.MCell (JInt 4));
                                ("volatility", Metrics.MCell (JInt 12))]))
    by (repeat constructor; cbn; intuition discriminate).
  split.
  - exact (@merge_fills_gaps_only
             [("volatility", Metrics.MCell JNull);
              ("price", Metrics.MCell (JInt 3))]
             [("price", Metrics.MCell (JInt 4));
              ("volatility", Metrics.MCell (JInt 12))] "volatility" N).
  - exact (@merge_fills_gaps_only
             [("volatility", Metrics.MCell JNull);
              ("price", Metrics.MCell (JInt 3))]
             [("price", Metrics.MCell (JInt 4));
              ("volatility", Metrics.MCell (JInt 12))] "price" N).
Defined.

Lemma metrics_visit_get (headers : list header) (line : node)
    (assets_dict : Metrics.assets) (name : string) :
  dict_get String.eqb (Metrics.visit headers line assets_dict) name
  = if match node_name line with
       | Some n => truthy (Some n) && String.eqb n name
       | None => false
       end
    then Some match dict_get String.eqb assets_dict name with
              | None => Metrics.extract_metrics_from_asset line headers
              | Some existing =>
                  Metrics.merge_metrics existing
                    (Metrics.extract_metrics_from_asset line headers)
              end
    else dict_get String.eqb assets_dict name.
Proof.
  unfold Metrics.visit.
  destruct (node_name line) as [n|]; [|reflexivity].
  destruct (truthy (Some n)); [|reflexivity]. cbn [andb].
  pose proof (extract_metrics_nonempty line headers) as Hne.
  destruct (Metrics.extract_metrics_from_asset line headers) as [|m ms] eqn:Em;
    [congruence|]. clear Hne.
  destruct (String.eqb_spec n name) as [->|Hn].
  - destruct (dict_get String.eqb assets_dict name) as [existing|];
      rewrite dict_get_set, String.eqb_refl; reflexivity.
  - apply String.eqb_neq in Hn.
    destruct (dict_get String.eqb assets_dict n) as [existing|];
      rewrite dict_get_set, Hn; reflexivity.
Qed.

Lemma metrics_walk_get (headers : list header) (name : string)
    (ls : list node) :
  forall assets_dict : Metrics.assets,
    dict_get String.eqb
      (fold_left (fun a line => Metrics.visit headers line a) ls assets_dict)
      name
    = fold_left
        (fun o line =>
           Some match o with
                | None => Metrics.extract_metrics_from_asset line headers
                | Some existing =>
                    Metrics.merge_metrics existing
                      (Metrics.extract_metrics_from_asset line headers)
                end)
        (filter
           (fun line =>
              match node_name line with
              | Some n => truthy (Some n) && String.eqb n name
              | None => false
              end) ls)
        (dict_get String.eqb assets_dict name).
Proof.
  induction ls as [|l ls IH]; intros a; [reflexivity|].
  cbn [fold_left filter]. rewrite IH, metrics_visit_get.
  destruct (match node_name l with
            | Some n => truthy (Some n) && String.eqb n name
            | None => false
            end); reflexivity.
Qed.

Lemma merged_from (headers : list header) (others : list node) :
  forall first : dict string Metrics.metric_value,
    fold_left
      (fun o line =>
         Some match o with
              | None => Metrics.extract_metrics_from_asset line headers
              | Some existing =>
                  Metrics.merge_metrics existing
                    (Metrics.extract_metrics_from_asset line headers)
              end)
      others (Some first)
    = Some (fold_left
              (fun acc line =>
                 Metrics.merge_metrics acc
                   (Metrics.extract_metrics_from_asset line headers))
              others first).
Proof.
  induction others as [|l others IH]; intros first; [reflexivity|].
  cbn [fold_left]. apply IH.
Qed.

(** X20.  The record that [extract_all_assets_with_metrics] keeps under a name is
    the metrics of the first line of that name, in pre-order, into which the
    metrics of the later lines of that name are merged one after the other;
    a name that no line carries has no record. *)
Theorem record_merges_lines_of_a_name :
  forall (lines : list node) (headers : list header) (name : string),
    dict_get String.eqb
      (Metrics.extract_all_assets_with_metrics lines headers) name
    = match lines_named name lines with
      | [] => None
      | first :: others =>
          Some (fold_left
                  (fun acc line =>
                     Metrics.merge_metrics acc
                       (Metrics.extract_metrics_from_asset line headers))
                  others (Metrics.extract_metrics_from_asset first headers))
      end.
Proof.
  intros lines headers name.
  unfold Metrics.extract_all_assets_with_metrics, lines_named.
  rewrite walk_lines_preorder, metrics_walk_get. cbn [dict_get].
  destruct (filter _ (preorder lines)) as [|first others]; [reflexivity|].
  cbn [fold_left]. apply merged_from.
Qed.

(** ** The volatility column *)

Lemma first_index_from_spec {A} (f : A -> bool) (l : list A) :
  forall k i,
    option_map fst
      (find (fun ia => f (snd ia)) (combine (seq k (List.length l)) l)) = Some i
    <-> k <= i
        /\ (exists a, nth_error l (i - k) = Some a /\ f a = true)
        /\ forall j a, j < i - k -> nth_error l j = Some a -> f a = false.
Proof.
  induction l as [|x l IH]; intros k i.
  - cbn. split; [discriminate|].
    intros (_ & (a & Ha & _) & _). destruct (i - k); discriminate.
  - cbn [List.length seq combine find snd]. destruct (f x) eqn:Ex.
    + cbn [option_map fst]. split.
      * intros [= <-]. rewrite Nat.sub_diag. split; [lia|]. split.
        -- exists x. auto.
        -- intros j a Hj. lia.
      * intros (Hk & (a & Ha & Hf) & Hbefore).
        destruct (i - k) as [|n] eqn:E; [f_equal; lia|].
        rewrite (Hbefore 0 x) in Ex; [discriminate|lia|reflexivity].
    + rewrite IH. split.
      * intros (Hk & (a & Ha & Hf) & Hbefore).
        replace (i - k) with (S (i - S k)) by lia.
        split; [lia|]. split; [exists a; auto|].
        intros [|j] b Hj Hb.
        -- injection Hb as <-. exact Ex.
        -- apply (Hbefore j b); [lia|exact Hb].
      * intros (Hk & (a & Ha & Hf) & Hbefore).
        destruct (i - k) as [|n] eqn:E.
        { injection Ha as <-. congruence. }
        replace (i - S k) with n by lia.
        split; [lia|]. split; [exists a; auto|].
        intros j b Hj Hb. apply (Hbefore (S j) b); [lia|exact Hb].
Qed.

Lemma first_index_spec {A} (f : A -> bool) (l : list A) (i : nat) :
  first_index f l = Some i
  <-> (exists a, nth_error l i = Some a /\ f a = true)
      /\ forall j a, j < i -> nth_error l j = Some a -> f a = false.
Proof.
  unfold first_index, Metrics.enumerate.
  rewrite first_index_from_spec, Nat.sub_0_r. split.
  - intros (_ & H1 & H2). auto.
  - intros (H1 & H2). split; [lia|auto].
Qed.

Lemma first_index_none {A} (f : A -> bool) (l : list A) :
  first_index f l = None <-> forall a, In a l -> f a = false.
Proof.
  unfold first_index, Metrics.enumerate. generalize 0 as k.
  induction l as [|x l IH]; intros k.
  - cbn. split; [intros _ a []|reflexivity].
  - cbn [List.length seq combine find snd]. destruct (f x) eqn:Ex.
    + cbn. split; [discriminate|]. intros H.
      rewrite (H x (or_introl eq_refl)) in Ex. discriminate.
    + rewrite IH. split.
      * intros H a [<-|Ha]; [exact Ex|apply H, Ha].
      * intros H a Ha. apply H. right. exact Ha.
Qed.

(** X21.  [extract_volatility_index] returns the position of the first header
    whose lower-cased name or command contains ["volatility"], and nothing
    when no header does. *)
Theorem volatility_index_is_first_match :
  forall headers : list header,
    (forall i,
        Volatility.extract_volatility_index headers = Some i
        <-> (exists h, nth_error headers i = Some h
                       /\ mentions_volatility h = true)
            /\ forall j h, j < i -> nth_error headers j = Some h ->
                           mentions_volatility h = false)
    /\ (Volatility.extract_volatility_index headers = None
        <-> forall h, In h headers -> mentions_volatility h = false).
Proof.
  intros headers. rewrite extract_volatility_index_first_match.
  split; [intros i; apply first_index_spec|apply first_index_none].
Qed.

Lemma first_last_index_agree {A} (f : A -> bool) (l : list A) :
  first_index f l = last_index f l
  <-> forall i j a b,
        nth_error l i = Some a -> f a = true ->
        nth_error l j = Some b -> f b = true -> i = j.
Proof.
  split.
  - intros E i j a b Ha Hfa Hb Hfb.
    destruct (first_index f l) as [r|] eqn:Ef.
    + symmetry in E.
      apply first_index_spec in Ef. apply last_index_spec in E.
      destruct Ef as [_ Hbefore], E as [_ Hafter].
      assert (Hi : i = r).
      { destruct (Nat.lt_trichotomy i r) as [H|[H|H]]; [|exact H|].
        - rewrite (Hbefore i a H Ha) in Hfa. discriminate.
        - rewrite (Hafter i a H Ha) in Hfa. discriminate. }
      assert (Hj : j = r).
      { destruct (Nat.lt_trichotomy j r) as [H|[H|H]]; [|exact H|].
        - rewrite (Hbefore j b H Hb) in Hfb. discriminate.
        - rewrite (Hafter j b H Hb) in Hfb. discriminate. }
      congruence.
    + pose proof (proj1 (first_index_none f l) Ef) as Hnone.
      rewrite (Hnone a) in Hfa; [discriminate|].
      eapply nth_error_In, Ha.
  - intros Huniq. destruct (first_index f l) as [r|] eqn:Ef.
    + symmetry. apply last_index_spec.
      apply first_index_spec in Ef. destruct Ef as [(a & Ha & Hfa) _].
      split; [exists a; auto|].
      intros j b Hj Hb. destruct (f b) eqn:Hfb; [|reflexivity].
      pose proof (Huniq _ _ _ _ Ha Hfa Hb Hfb). lia.
    + symmetry. apply last_index_none.
      exact (proj1 (first_index_none f l) Ef).
Qed.

(** X22.  The two resolvers of the volatility column, the one of
    [analyze_volatility.py] and the one of [comprehensive_asset_analysis.py],
    return the same column exactly when at most one header mentions the
    volatility. *)
Theorem volatility_resolvers_agree_iff :
  forall headers : list header,
    Volatility.extract_volatility_index headers
    = dict_get String.eqb (Metrics.metric_indices headers) "volatility"
    <-> forall i j h h',
          nth_error headers i = Some h -> mentions_volatility h = true ->
          nth_error headers j = Some h' -> mentions_volatility h' = true ->
          i = j.
Proof.
  intros headers.
  rewrite extract_volatility_index_first_match, metric_indices_last_match.
  apply first_last_index_agree.
Qed.

(** ** The common-property column of access.py *)

Lemma common_property_indices_from (hs : list header) :
  forall (k : nat) (acc : list nat),
    fold_left
      (fun common_property_indices (ih : nat * header) =>
         let '(i, header) := ih in
         if CommonProperty.is_common_property header
         then common_property_indices ++ [i]
         else common_property_indices)
      (combine (seq k (List.length hs)) hs) acc
    = acc ++ map fst
               (filter (fun ih => CommonProperty.is_common_property (snd ih))
                  (combine (seq k (List.length hs)) hs)).
Proof.
  induction hs as [|h hs IH]; intros k acc.
  - cbn. rewrite app_nil_r. reflexivity.
  - cbn [List.length seq combine fold_left filter snd]. rewrite IH.
    destruct (CommonProperty.is_common_property h); [|reflexivity].
    cbn [map fst]. rewrite <- app_assoc. reflexivity.
Qed.

Lemma matching_positions_ascending {A} (f : A -> bool) (l : list A) :
  forall k,
    StronglySorted lt
      (map fst (filter (fun ia => f (snd ia)) (combine (seq k (List.length l)) l)))
    /\ Forall (fun i => k <= i)
         (map fst (filter (fun ia => f (snd ia))
                     (combine (seq k (List.length l)) l))).
Proof.
  induction l as [|x l IH]; intros k; [split; constructor|].
  cbn [List.length seq combine filter snd].
  destruct (IH (S k)) as [Hs Hf].
  assert (Hf' : Forall (fun i => k <= i)
                  (map fst (filter (fun ia => f (snd ia))
                              (combine (seq (S k) (List.length l)) l)))).
  { eapply Forall_impl; [|exact Hf]. cbn. intros; lia. }
  destruct (f x); [|split; assumption].
  cbn [map fst]. split.
  - constructor; [exact Hs|]. eapply Forall_impl; [|exact Hf]. cbn. intros; lia.
  - constructor; [lia|exact Hf'].
Qed.

Lemma first_cell_out_of_range (indices : list nat) (values : list json) :
  Forall (fun i => List.length values <= i) indices ->
  CommonProperty.first_cell indices values = JNull.
Proof.
  induction 1 as [|i indices Hi _ IH]; [reflexivity|].
  cbn [CommonProperty.first_cell].
  replace (i <? List.length values)%nat with false
    by (symmetry; apply Nat.ltb_ge; exact Hi).
  exact IH.
Qed.

Lemma first_cell_ascending (indices : list nat) (values : list json) :
  StronglySorted lt indices ->
  CommonProperty.first_cell indices values
  = match indices with
    | [] => JNull
    | idx :: _ =>
        if (idx <? List.length values)%nat
        then CommonProperty.get_cell_value (nth idx values JNull)
        else JNull
    end.
Proof.
  intros Hs. destruct indices as [|idx rest]; [reflexivity|].
  cbn [CommonProperty.first_cell].
  destruct (Nat.ltb_spec idx (List.length values)) as [Hlt|Hge]; [reflexivity|].
  apply first_cell_out_of_range.
  inversion Hs as [|? ? _ Hall]; subst.
  eapply Forall_impl; [|exact Hall]. cbn. intros; lia.
Qed.

Lemma head_of_matching {A} (f : A -> bool) (l : list (nat * A)) :
  match map fst (filter (fun ia => f (snd ia)) l) with
  | [] => None
  | i :: _ => Some i
  end = option_map fst (find (fun ia => f (snd ia)) l).
Proof.
  induction l as [|[i a] l IH]; [reflexivity|].
  cbn [filter find snd]. destruct (f a); [reflexivity|exact IH].
Qed.

Lemma first_cell_first_index (headers : list header) (values : list json) :
  CommonProperty.first_cell (CommonProperty.common_property_indices headers)
    values
  = match first_index CommonProperty.is_common_property headers with
    | Some idx =>
        if (idx <? List.length values)%nat
        then CommonProperty.get_cell_value (nth idx values JNull)
        else JNull
    | None => JNull
    end.
Proof.
  unfold CommonProperty.common_property_indices, Metrics.enumerate.
  rewrite common_property_indices_from. cbn [app].
  rewrite first_cell_ascending
    by apply (matching_positions_ascending CommonProperty.is_common_property).
  unfold first_index, Metrics.enumerate.
  rewrite <- head_of_matching.
  destruct (map fst _); reflexivity.
Qed.

Lemma common_property_visit (headers : list header) (line : node)
    (rows : list CommonProperty.row) (results : list Volatility.volatility_row) :
  map (fun r => (CommonProperty.asset r, CommonProperty.common_property r)) rows
  = map (fun r => (Volatility.asset r, Volatility.volatility r)) results ->
  map (fun r => (CommonProperty.asset r, CommonProperty.common_property r))
    (CommonProperty.visit (CommonProperty.common_property_indices headers)
       line rows)
  = map (fun r => (Volatility.asset r, Volatility.volatility r))
      (Volatility.visit
         (first_index CommonProperty.is_common_property headers) line results).
Proof.
  intros Hrows. unfold CommonProperty.visit, Volatility.visit.
  rewrite first_cell_first_index.
  destruct (node_name line) as [name_text|]; [|exact Hrows].
  destruct (first_index CommonProperty.is_common_property headers) as [idx|].
  - destruct (truthy (Some name_text)); [|exact Hrows]. cbn [andb].
    destruct (idx <? List.length (node_values line))%nat; [|exact Hrows].
    unfold CommonProperty.get_cell_value.
    destruct (nth idx (node_values line) JNull) as [| | | | | |d];
      rewrite ?map_app, ?Hrows; try reflexivity.
    destruct (dict_get String.eqb d "rawValue") as [[| | | | | |]|];
      try (rewrite ?map_app, ?Hrows; reflexivity);
      destruct (dict_get String.eqb d "value") as [[| | | | | |]|];
      rewrite ?map_app, ?Hrows; reflexivity.
  - destruct (truthy (Some name_text)); exact Hrows.
Qed.

Lemma is_common_property_lower (h : header) :
  CommonProperty.is_common_property h
  = (let '(cmd, name) := CommonProperty.header_cmd_name h in
     contains "common_property" (lower cmd)
     || contains "common property" (lower name)).
Proof.
  unfold CommonProperty.is_common_property.
  destruct (CommonProperty.header_cmd_name h) as [cmd name].
  destruct (String.eqb_spec cmd "common_property") as [->|_].
  { reflexivity. }
  destruct (String.eqb_spec name "Common Property") as [->|_].
  { cbn [orb].
    replace (contains "common property" (lower "Common Property")) with true
      by (vm_compute; reflexivity).
    rewrite orb_true_r. reflexivity. }
  reflexivity.
Qed.

(** X23.  [extract_common_property_data] reads one column only, the first one
    whose header passes the test, whatever the number of headers that pass
    it: its rows are those that [analyze_volatility.walk_lines] returns for
    that column.  The two equality tests on the header never decide: a
    header passes exactly when its lower-cased command contains
    ["common_property"] or its lower-cased name contains
    ["common property"]. *)
Theorem common_property_reads_first_matching_column :
  forall (headers : list header) (lines : list node),
    map (fun r => (CommonProperty.asset r, CommonProperty.common_property r))
      (CommonProperty.extract_common_property_data headers lines)
    = map (fun r => (Volatility.asset r, Volatility.volatility r))
        (Volatility.walk_lines lines
           (first_index CommonProperty.is_common_property headers) [])
    /\ forall h,
         CommonProperty.is_common_property h
         = (let '(cmd, name) := CommonProperty.header_cmd_name h in
            contains "common_property" (lower cmd)
            || contains "common property" (lower name)).
Proof.
  intros headers lines. split; [|apply is_common_property_lower].
  unfold CommonProperty.extract_common_property_data, Volatility.walk_lines.
  rewrite !walk_lines_preorder.
  generalize (@nil CommonProperty.row) (@nil Volatility.volatility_row)
             (eq_refl : map (fun r => (CommonProperty.asset r,
                                        CommonProperty.common_property r)) []
                        = map (fun r => (Volatility.asset r,
                                         Volatility.volatility r)) []).
  induction (preorder lines) as [|l ls IH]; intros rows results Hrows;
    [exact Hrows|].
  cbn [fold_left]. apply IH, common_property_visit, Hrows.
Qed.

(** ** The replacement of a zero volatility *)

Section MatchingFacts.
Import ZeroVolatility.
Variable num : Type.
Variable is_zero : num -> bool.

Lemma dict_get_In_pair {V} (d : dict string V) (k : string) (v : V) :
  dict_get String.eqb d k = Some v -> In (k, v) d.
Proof.
  induction d as [|[k' v'] d IH]; cbn [dict_get]; [discriminate|].
  destruct (String.eqb_spec k' k) as [->|_].
  - intros [= ->]. left. reflexivity.
  - intros H. right. apply IH, H.
Qed.

Lemma by_sell_date_some (sell_date : option string)
    (items : list (string * vol_data num)) (already_matched : list string)
    (v : num) :
  by_sell_date is_zero sell_date items already_matched = Some v ->
  exists name vd,
    In (name, vd) items /\ volatility vd = v /\ is_zero v = false
    /\ mem name already_matched = false
    /\ option_string_eqb (last_sell_date vd) sell_date = true.
Proof.
  induction items as [|[name vd] items IH]; cbn [by_sell_date];
    [discriminate|].
  destruct (mem name already_matched) eqn:Em.
  - intros H. destruct (IH H) as (n & d & Hin & Hrest).
    exists n, d. split; [right; exact Hin|exact Hrest].
  - destruct (option_string_eqb (last_sell_date vd) sell_date) eqn:Ed;
      cbn [andb].
    + destruct (is_zero (volatility vd)) eqn:Ez; cbn [negb].
      * intros H. destruct (IH H) as (n & d & Hin & Hrest).
        exists n, d. split; [right; exact Hin|exact Hrest].
      * intros [= <-]. exists name, vd.
        split; [left; reflexivity|]. auto.
    + intros H. destruct (IH H) as (n & d & Hin & Hrest).
      exists n, d. split; [right; exact Hin|exact Hrest].
Qed.

Lemma filter_head_In {A} (f : A -> bool) (l : list A) (x : A) (rest : list A) :
  filter f l = x :: rest -> In x l /\ f x = true.
Proof.
  intros H. apply filter_In. rewrite H. left. reflexivity.
Qed.

Lemma filter_nil_all {A} (f : A -> bool) (l : list A) :
  filter f l = [] -> forall x, In x l -> f x = false.
Proof.
  intros H x Hx. destruct (f x) eqn:E; [|reflexivity].
  assert (Hin : In x (filter f l)) by (apply filter_In; auto).
  rewrite H in Hin. destruct Hin.
Qed.

Lemma find_matching_volatility_some (asset_name : string)
    (sell_date : option string) (volatility_map : dict string (vol_data num))
    (already_matched : list string) (v : num) :
  find_matching_volatility is_zero asset_name sell_date volatility_map
    already_matched = Some v ->
  is_zero v = false
  /\ exists name vd,
       In (name, vd) volatility_map /\ volatility vd = v
       /\ (name = asset_name
           /\ dict_get String.eqb volatility_map asset_name = Some vd
           \/ mem name already_matched = false).
Proof.
  unfold find_matching_volatility. cbv zeta.
  destruct (match dict_get String.eqb volatility_map asset_name with
            | Some vol_data =>
                if negb (is_zero (volatility vol_data))
                then Some (volatility vol_data) else None
            | None => None
            end) as [w|] eqn:Eexact.
  { intros [= <-].
    destruct (dict_get String.eqb volatility_map asset_name) as [vd|] eqn:Eg;
      [|discriminate].
    destruct (is_zero (volatility vd)) eqn:Ez; cbn [negb] in Eexact;
      [discriminate|].
    injection Eexact as <-. split; [exact Ez|]. exists asset_name, vd.
    split; [apply dict_get_In_pair, Eg|]. auto. }
  destruct (if truthy sell_date
            then by_sell_date is_zero sell_date volatility_map already_matched
            else None) as [w|] eqn:Ed.
  { intros [= <-]. destruct (truthy sell_date); [|discriminate].
    destruct (by_sell_date_some _ _ _ Ed) as (n & d & Hin & Hv & Hz & Hm & _).
    split; [exact Hz|]. exists n, d. auto. }
  destruct (filter
              (fun item : string * vol_data num =>
                 negb (is_zero (volatility (snd item)))
                 && truthy (last_sell_date (snd item))
                 && negb (mem (fst item) already_matched))
              volatility_map) as [|c cs] eqn:Ef1.
  2:{ intros [= <-]. apply filter_head_In in Ef1.
      destruct Ef1 as [Hin Hc]. apply andb_prop in Hc.
      destruct Hc as [Hc Hm]. apply andb_prop in Hc.
      destruct Hc as [Hz _]. apply negb_true_iff in Hz, Hm.
      split; [exact Hz|]. exists (fst c), (snd c).
      destruct c as [n d]. auto. }
  destruct (filter
              (fun item : string * vol_data num =>
                 negb (is_zero (volatility (snd item)))
                 && negb (mem (fst item) already_matched))
              volatility_map) as [|c cs] eqn:Ef2; [discriminate|].
  intros [= <-]. apply filter_head_In in Ef2.
  destruct Ef2 as [Hin Hc]. apply andb_prop in Hc.
  destruct Hc as [Hz Hm]. apply negb_true_iff in Hz, Hm.
  split; [exact Hz|]. exists (fst c), (snd c).
  destruct c as [n d]. auto.
Qed.

Lemma find_matching_volatility_none (asset_name : string)
    (sell_date : option string) (volatility_map : dict string (vol_data num))
    (already_matched : list string) :
  find_matching_volatility is_zero asset_name sell_date volatility_map
    already_matched = None
  <-> (forall vd, dict_get String.eqb volatility_map asset_name = Some vd ->
                  is_zero (volatility vd) = true)
      /\ (forall name vd,
             In (name, vd) volatility_map ->
             mem name already_matched = false ->
             is_zero (volatility vd) = true).
Proof.
  split.
  - unfold find_matching_volatility. cbv zeta.
    destruct (dict_get String.eqb volatility_map asset_name) as [vd|] eqn:Eg.
    + destruct (is_zero (volatility vd)) eqn:Ez; cbn [negb]; [|discriminate].
      destruct (if truthy sell_date then _ else None); [discriminate|].
      destruct (filter _ volatility_map); [|discriminate].
      destruct (filter _ volatility_map) as [|c cs] eqn:Ef2; [|discriminate].
      intros _. split; [intros vd' [= <-]; exact Ez|].
      intros name d Hin Hm.
      pose proof (filter_nil_all _ _ Ef2 (name, d) Hin) as Hc.
      cbn [fst snd] in Hc. rewrite Hm in Hc. cbn [negb] in Hc.
      rewrite andb_true_r in Hc. apply negb_false_iff, Hc.
    + destruct (if truthy sell_date then _ else None); [discriminate|].
      destruct (filter _ volatility_map); [|discriminate].
      destruct (filter _ volatility_map) as [|c cs] eqn:Ef2; [|discriminate].
      intros _. split; [discriminate|].
      intros name d Hin Hm.
      pose proof (filter_nil_all _ _ Ef2 (name, d) Hin) as Hc.
      cbn [fst snd] in Hc. rewrite Hm in Hc. cbn [negb] in Hc.
      rewrite andb_true_r in Hc. apply negb_false_iff, Hc.
  - intros [Hexact Hall].
    destruct (find_matching_volatility is_zero asset_name sell_date
                volatility_map already_matched) as [v|] eqn:E; [|reflexivity].
    exfalso. apply find_matching_volatility_some in E.
    destruct E as (Hz & n & d & Hin & Hv & Hor).
    subst v. destruct (mem n already_matched) eqn:Em.
    + destruct Hor as [[-> Hg]|Hor]; [|discriminate].
      rewrite (Hexact d Hg) in Hz. discriminate.
    + rewrite (Hall n d Hin Em) in Hz. discriminate.
Qed.

End MatchingFacts.

(** X24.  [find_matching_volatility] never returns a zero volatility: what it
    returns is the non-zero volatility of an entry of the map, the entry of
    the asset's own name or an entry that is not already matched.  It returns
    nothing exactly when the entry of the asset's own name, if there is one,
    and every entry that is not already matched have a zero volatility.  The
    entry of the asset's own name has priority over the sell date and over
    [already_matched]. *)
Theorem matching_volatility_is_never_zero :
  forall (num : Type) (is_zero : num -> bool) (asset_name : string)
         (sell_date : option string)
         (volatility_map : dict string (ZeroVolatility.vol_data num))
         (already_matched : list string),
    (forall v,
        ZeroVolatility.find_matching_volatility is_zero asset_name sell_date
          volatility_map already_matched = Some v ->
        is_zero v = false
        /\ exists name vd,
             In (name, vd) volatility_map
             /\ ZeroVolatility.volatility vd = v
             /\ (name = asset_name
                 \/ ZeroVolatility.mem name already_matched = false))
    /\ (ZeroVolatility.find_matching_volatility is_zero asset_name sell_date
          volatility_map already_matched = None
        <-> (forall vd,
                dict_get String.eqb volatility_map asset_name = Some vd ->
                is_zero (ZeroVolatility.volatility vd) = true)
            /\ (forall name vd,
                   In (name, vd) volatility_map ->
                   ZeroVolatility.mem name already_matched = false ->
                   is_zero (ZeroVolatility.volatility vd) = true))
    /\ (forall vd,
          dict_get String.eqb volatility_map asset_name = Some vd ->
          is_zero (ZeroVolatility.volatility vd) = false ->
          ZeroVolatility.find_matching_volatility is_zero asset_name sell_date
            volatility_map already_matched
          = Some (ZeroVolatility.volatility vd)).
Proof.
  intros num is_zero asset_name sell_date volatility_map already_matched.
  split; [|split].
  - intros v H. destruct (find_matching_volatility_some _ _ _ _ _ H)
      as (Hz & n & d & Hin & Hv & Hor).
    split; [exact Hz|]. exists n, d. split; [exact Hin|]. split; [exact Hv|].
    destruct Hor as [[Hn _]|Hm]; auto.
  - apply find_matching_volatility_none.
  - intros vd Hg Hz. unfold ZeroVolatility.find_matching_volatility.
    rewrite Hg, Hz. reflexivity.
Qed.

(** ** The transactions of an asset in [main] *)

Lemma dict_set_absent {K V} (keq : K -> K -> bool) (d : dict K V) (k : K)
    (v : V) :
  dict_mem keq d k = false -> dict_set keq d k v = d ++ [(k, v)].
Proof.
  unfold dict_mem. induction d as [|[k' v'] d IH]; [reflexivity|].
  cbn [dict_get dict_set]. destruct (keq k' k); [discriminate|].
  intros H. cbn [app]. rewrite (IH H). reflexivity.
Qed.

Lemma find_transactions_snoc
    (L : dict Lookup.lookup_key ProcessAssets.asset_result)
    (key : Lookup.lookup_key) (item : ProcessAssets.asset_result)
    (name : string) :
  Lookup.find_transactions (L ++ [(key, item)]) name
  = match Lookup.find_transactions L name with
    | Some t => Some t
    | None =>
        if String.eqb (fst (fst key)) name
        then Some (ProcessAssets.transactions item) else None
    end.
Proof.
  induction L as [|[k it] L IH]; [reflexivity|].
  cbn [app Lookup.find_transactions].
  destruct (String.eqb (fst (fst k)) name); [reflexivity|exact IH].
Qed.

Lemma find_transactions_of_key
    (L : dict Lookup.lookup_key ProcessAssets.asset_result)
    (key : Lookup.lookup_key) :
  dict_mem Lookup.lookup_key_eqb L key = true ->
  Lookup.find_transactions L (fst (fst key)) <> None.
Proof.
  unfold dict_mem. induction L as [|[k it] L IH]; [discriminate|].
  cbn [dict_get Lookup.find_transactions].
  destruct (String.eqb (fst (fst k)) (fst (fst key))) eqn:En; [discriminate|].
  destruct (Lookup.lookup_key_eqb k key) eqn:Ek; [|exact IH].
  destruct k as [[n1 f1] l1], key as [[n2 f2] l2].
  cbn [Lookup.lookup_key_eqb fst] in *.
  apply andb_prop in Ek. destruct Ek as [Ek _].
  apply andb_prop in Ek. destruct Ek as [Ek _]. congruence.
Qed.

Lemma buy_sell_lookup_from (name : string)
    (buy_sell_data : list ProcessAssets.asset_result) :
  forall L : dict Lookup.lookup_key ProcessAssets.asset_result,
    Lookup.find_transactions
      (fold_left
         (fun buy_sell_lookup item =>
            let asset_name := ProcessAssets.asset item in
            if truthy (Some asset_name) then
              let key := (asset_name, ProcessAssets.first_date item,
                          ProcessAssets.last_date item) in
              if negb (dict_mem Lookup.lookup_key_eqb buy_sell_lookup key)
              then dict_set Lookup.lookup_key_eqb buy_sell_lookup key item
              else buy_sell_lookup
            else buy_sell_lookup)
         buy_sell_data L) name
    = match Lookup.find_transactions L name with
      | Some t => Some t
      | None =>
          match find (fun item =>
                        truthy (Some (ProcessAssets.asset item))
                        && String.eqb (ProcessAssets.asset item) name)
                  buy_sell_data with
          | Some item => Some (ProcessAssets.transactions item)
          | None => None
          end
      end.
Proof.
  induction buy_sell_data as [|item data IH]; intros L.
  - cbn [fold_left find]. destruct (Lookup.find_transactions L name); reflexivity.
  - cbn [fold_left find]. cbv zeta. rewrite IH. clear IH.
    destruct (truthy (Some (ProcessAssets.asset item))) eqn:Et; cbn [andb];
      [|reflexivity].
    destruct (dict_mem Lookup.lookup_key_eqb L
                (ProcessAssets.asset item, ProcessAssets.first_date item,
                 ProcessAssets.last_date item)) eqn:Em; cbn [negb].
    + destruct (String.eqb_spec (ProcessAssets.asset item) name) as [<-|_];
        [|reflexivity].
      pose proof (find_transactions_of_key _ _ Em) as Hne. cbn [fst] in Hne.
      destruct (Lookup.find_transactions L (ProcessAssets.asset item));
        [reflexivity|congruence].
    + rewrite (dict_set_absent _ _ _ item Em), find_transactions_snoc.
      cbn [fst].
      destruct (Lookup.find_transactions L name); [reflexivity|].
      destruct (String.eqb (ProcessAssets.asset item) name); reflexivity.
Qed.

(** X25.  In [main] the transactions of an asset are those of the first record of
    [asset_buy_sell_dates.json] that carries the asset's name: the records
    that [process_assets] wrote for other periods of the same asset are never
    used. *)
Theorem transactions_of_first_record :
  forall (buy_sell_data : list ProcessAssets.asset_result) (name : string),
    Lookup.find_transactions (Lookup.buy_sell_lookup buy_sell_data) name
    = match find (fun item =>
                    truthy (Some (ProcessAssets.asset item))
                    && String.eqb (ProcessAssets.asset item) name)
              buy_sell_data with
      | Some item => Some (ProcessAssets.transactions item)
      | None => None
      end.
Proof.
  intros buy_sell_data name. unfold Lookup.buy_sell_lookup.
  rewrite buy_sell_lookup_from. reflexivity.
Qed.

(** ** From the report to the valuation *)

Lemma find_buy_sell_dates_alternates (V : Type) (time_series : dict string V)
    (events : list event) :
  BuysSells.find_buy_sell_dates time_series = Some events ->
  alternates bought events = true.
Proof.
  intros Hev. destruct time_series as [|q ts].
  - injection Hev as <-. reflexivity.
  - destruct (mapM BuysSells.parse_timestamp (dict_keys (q :: ts)))
      as [[|a raw]|] eqn:Hraw.
    + cbn [dict_keys map mapM] in Hraw.
      destruct (BuysSells.parse_timestamp (fst q)); [|discriminate].
      destruct (mapM _ _); discriminate.
    + rewrite (find_buy_sell_dates_min_max (q :: ts) Hraw) in Hev.
      apply Some_inj in Hev. subst events.
      cbn [alternates ev_action action_eqb andb other_action].
      rewrite alternates_gap_events.
      destruct (date_eqb _ _); reflexivity.
    + unfold BuysSells.find_buy_sell_dates in Hev. rewrite Hraw in Hev.
      discriminate.
Qed.

(** X26.  The three stages together: the transactions that [main] finds for a
    name among the records that [process_assets] returned for a report are
    the events reconstructed from the time series of a line of that name;
    they are not empty, and, when no time series of the report has a key
    dated before the year 1000, their valuation against a non-empty NAV
    series with ISO-8601 keys does not raise and uses every one of them. *)
Theorem found_transactions_are_valued :
  forall (num : Type) (zero : num) (add sub : num -> num -> num)
         (gt_zero : num -> bool)
         (calls : ProcessAssets.state -> node -> nat) (frames : nat)
         (lines : list node)
         (results : list ProcessAssets.asset_result) (name : string)
         (transactions : list event) (nav_time_series : dict string num)
         (purchase_price : option num),
    ProcessAssets.process_assets calls frames lines = Some results ->
    Lookup.find_transactions (Lookup.buy_sell_lookup results) name
    = Some transactions ->
    series_from_year_1000 lines = true ->
    forallb iso_dated (dict_keys nav_time_series) = true ->
    nav_time_series <> [] ->
    transactions <> []
    /\ (exists line time_series,
           In line (preorder lines)
           /\ node_name line = Some name
           /\ extract_asset_time_series line = Some time_series
           /\ BuysSells.find_buy_sell_dates time_series = Some transactions)
    /\ exists r,
         Analysis.calculate_profit_and_prices zero add sub gt_zero name
           transactions nav_time_series purchase_price = Some r
         /\ Analysis.error r = None
         /\ used_indices (pair_indices 0 transactions)
            = seq 0 (List.length transactions).
Proof.
  intros num zero add sub gt_zero calls frames lines results name T nav pp
         Hres Hfind Hyears Hiso Hne.
  unfold Lookup.buy_sell_lookup in Hfind.
  rewrite buy_sell_lookup_from in Hfind. cbn [Lookup.find_transactions] in Hfind.
  destruct (find _ results) as [item|] eqn:Ef; [|discriminate].
  injection Hfind as <-.
  apply find_some in Ef. destruct Ef as [Hin Hname].
  apply andb_prop in Hname. destruct Hname as [_ Hname].
  apply String.eqb_eq in Hname.
  destruct (process_assets_result _ _ _ Hres) as (cs & Ecs & ->).
  apply first_occurrences_In, somes_In in Hin.
  destruct (mapM_In_source _ _ Ecs _ Hin) as (line & Hline & Hrec).
  destruct (line_record_inv _ Hrec)
    as (ts & a & raw & Hn & _ & Hx & Hf & Hm & _ & _).
  rewrite Hname in Hn.
  pose proof (find_buy_sell_dates_min_max ts Hm) as Hshape.
  rewrite Hf in Hshape. apply Some_inj in Hshape.
  split; [rewrite Hshape; discriminate|].
  split; [exists line, ts; auto|].
  assert (Hy : forallb from_year_1000 (dict_keys ts) = true).
  { unfold series_from_year_1000 in Hyears.
    rewrite forallb_forall in Hyears. specialize (Hyears line Hline).
    rewrite Hx in Hyears. exact Hyears. }
  pose proof (find_buy_sell_dates_dated ts Hy Hf) as Hdates.
  destruct (@pair_events_ok num zero add sub gt_zero nav pp Hiso Hne
              (ProcessAssets.transactions item) Hdates
              (ProcessAssets.transactions item) 0 (fun j => eq_refl))
    as (ds & Hds & _).
  rewrite calculate_profit_and_prices_walk.
  destruct nav as [|p nav]; [congruence|].
  rewrite Hds. cbn [bind ret].
  eexists. split; [reflexivity|]. cbn [Analysis.error].
  split; [reflexivity|].
  apply alternating_events_all_used.
  exact (find_buy_sell_dates_alternates ts Hf).
Qed.

Lemma found_transactions_are_valued_witness :
  [mkevent bought "2025-01-01"; mkevent sold "2025-01-02"] <> []
  /\ (exists line time_series,
         In line (preorder [Node None [] [fund_line]])
         /\ node_name line = Some "Fund A"
         /\ extract_asset_time_series line = Some time_series
         /\ BuysSells.find_buy_sell_dates time_series
            = Some [mkevent bought "2025-01-01"; mkevent sold "2025-01-02"])
  /\ exists r,
       Analysis.calculate_profit_and_prices 0%Z Z.add Z.sub positive "Fund A"
         [mkevent bought "2025-01-01"; mkevent sold "2025-01-02"]
         sample_nav None = Some r
       /\ Analysis.error r = None
       /\ used_indices
            (pair_indices 0
               [mkevent bought "2025-01-01"; mkevent sold "2025-01-02"])
          = seq 0 2.
Proof.
  apply (@found_transactions_are_valued Z 0%Z Z.add Z.sub positive
           (fun _ _ => 10) 20
           [Node None [] [fund_line]]
           [ProcessAssets.mkasset_result "Fund A"
              [mkevent bought "2025-01-01"; mkevent sold "2025-01-02"]
              "2025-01-01" "2025-01-02"]
           "Fund A"
           [mkevent bought "2025-01-01"; mkevent sold "2025-01-02"]
           sample_nav None).
  - reflexivity.
  - reflexivity.
  - reflexivity.
  - reflexivity.
  - discriminate.
Defined.
